(** * RefineM: window generation and outlier / compatibility classification

    A shallow embedding of [refinem/singlegenome.py] (class [WindowGen]) and
    of the decision logic of [refinem/outliers.py] (class [Outliers]),
    together with the properties the specification states about them.

    Python values are modelled as the interpreter has them: a [float] is an
    IEEE-754 binary64 number (Rocq's primitive floats, with NaN and the
    infinities), an [int] is an integer, a [str] is a string, a [dict] is a
    finite map whose iteration order is not fixed by the language. *)

From Stdlib Require Import ZArith Floats Ascii String DecimalString.
From Stdlib Require DecimalZ.
From stdpp Require Import base list strings gmap.

Set Warnings "-inexact-float".
Local Open Scope Z_scope.

(** ** Python values, exceptions and builtins *)
Module Py.

(** The exceptions the modelled code can raise. *)
Inductive exn := TypeError | ValueError | OverflowError | KeyError | IndexError.

(** A computation that returns a value or raises. *)
Inductive res (A : Type) :=
| Ok (a : A)
| Raise (e : exn).
Arguments Ok {A} a.
Arguments Raise {A} e.

#[export] Instance res_bind : MBind res := fun A B k r =>
  match r with
  | Ok a => k a
  | Raise e => Raise e
  end.

(** The dynamically typed values that reach [make_windows] as a window
    size or gap.  Python 2 keeps [int] (a machine word) and [long] apart,
    and [isinstance (x, int)] is false for a [long]; [None] stands for the
    values of any other type.  A [bool] is an [int] for [isinstance] and
    is represented by [PInt 0] and [PInt 1]. *)
Inductive pyval :=
| PStr (s : string)
| PInt (n : Z)
| PLong (n : Z)
| PFloat (f : float)
| PNone.

Definition is_str (v : pyval) : bool :=
  match v with PStr _ => true | _ => false end.
Definition is_int (v : pyval) : bool :=
  match v with PInt _ => true | _ => false end.
Definition is_float (v : pyval) : bool :=
  match v with PFloat _ => true | _ => false end.

(** [float (n)] for an integer [n]: the nearest binary64 number. *)
Definition float_of_int (n : Z) : float :=
  SF2Prim (binary_normalize prec emax n 0 false).

(** [int (f)] for a float [f]: truncation towards zero; NaN and the
    infinities have no integer value. *)
Definition int_of_float (f : float) : res Z :=
  match Prim2SF f with
  | S754_zero _ => Ok 0
  | S754_finite s m e =>
      let a := if 0 <=? e then Z.shiftl (Z.pos m) e
               else Z.shiftr (Z.pos m) (- e) in
      Ok (if s then - a else a)
  | S754_infinity _ => Raise OverflowError
  | S754_nan => Raise ValueError
  end.

(** The largest [int] ([sys.maxint] on a 64-bit platform); an integer
    result outside the machine word is a [long]. *)
Definition maxint : Z := 2 ^ 63 - 1.

Definition int_or_long (n : Z) : pyval :=
  if (- maxint - 1 <=? n) && (n <=? maxint) then PInt n else PLong n.

(** [str (n)], as [format] renders an integer. *)
Definition str_of_int (n : Z) : string :=
  NilZero.string_of_int (Z.to_int n).

Definition len {A} (l : list A) : Z := Z.of_nat (length l).

(** [range (start, stop, step)]. *)
Definition range (start stop step : Z) : res (list Z) :=
  if step =? 0 then Raise ValueError
  else
    let n := if 0 <? step then (stop - start + step - 1) / step
             else (start - stop - step - 1) / (- step) in
    Ok ((fun k => start + k * step) <$> seqZ 0 n).

(** A slice bound is counted from the end when negative and clipped to
    the sequence. *)
Definition slice_index (n i : Z) : Z :=
  if i <? 0 then Z.max (i + n) 0 else Z.min i n.

(** [s[a:b]]. *)
Definition slice {A} (s : list A) (a b : Z) : list A :=
  let lo := slice_index (len s) a in
  let hi := slice_index (len s) b in
  take (Z.to_nat (hi - lo)) (drop (Z.to_nat lo) s).

(** [d[k]] on a dictionary with string keys. *)
Definition lookup_key {V} (d : gmap string V) (k : string) : res V :=
  match d !! k with
  | Some v => Ok v
  | None => Raise KeyError
  end.

(** A [for] loop whose body updates a state and may raise: the state
    reached, and whether the loop ended or raised. *)
Fixpoint for_each {A S} (body : A -> S -> S * res ()) (l : list A) (s : S)
  : S * res () :=
  match l with
  | [] => (s, Ok ())
  | a :: l' =>
      match body a s with
      | (s', Ok _) => for_each body l' s'
      | (s', Raise e) => (s', Raise e)
      end
  end.

(** A loop that threads a state through a body that may raise. *)
Fixpoint foldM {A S} (f : S -> A -> res S) (s : S) (l : list A) : res S :=
  match l with
  | [] => Ok s
  | a :: l' => s' ← f s a; foldM f s' l'
  end.

(** [l[i]] on a list; a negative index counts from the end. *)
Definition list_getitem {A} (l : list A) (i : Z) : res A :=
  let j := if i <? 0 then i + len l else i in
  if (0 <=? j) && (j <? len l) then
    match l !! Z.to_nat j with
    | Some a => Ok a
    | None => Raise IndexError
    end
  else Raise IndexError.

(** [l.count (x)] on a list of strings. *)
Definition list_count (l : list string) (x : string) : Z :=
  len (filter (fun y => y = x) l).

(** The tab character, and the line feed and the double quote as
    strings. *)
Definition tab : ascii := ascii_of_nat 9.
Definition newline : string := String (ascii_of_nat 10) EmptyString.
Definition quote : string := String (ascii_of_nat 34) EmptyString.

(** [s.split (sep)] for a separator of one character. *)
Fixpoint str_split (sep : ascii) (s : string) : list string :=
  match s with
  | EmptyString => [EmptyString]
  | String c s' =>
      if Ascii.eqb c sep then EmptyString :: str_split sep s'
      else
        match str_split sep s' with
        | w :: ws => String c w :: ws
        | [] => [String c EmptyString]
        end
  end.

(** [sep.join (l)]. *)
Fixpoint str_join (sep : string) (l : list string) : string :=
  match l with
  | [] => EmptyString
  | [w] => w
  | w :: ws => w +:+ sep +:+ str_join sep ws
  end.

(** The characters [str.strip ()] removes: space, tab, line feed,
    vertical tab, form feed and carriage return. *)
Definition is_space (c : ascii) : bool :=
  let n := Z.of_nat (nat_of_ascii c) in
  (n =? 32) || ((9 <=? n) && (n <=? 13)).

(** [s.lstrip ()], [s.rstrip ()] and [s.strip ()], for the characters
    that satisfy [drop_char]. *)
Fixpoint str_lstrip (drop_char : ascii -> bool) (s : string) : string :=
  match s with
  | String c s' => if drop_char c then str_lstrip drop_char s' else s
  | EmptyString => EmptyString
  end.

Fixpoint str_rstrip (drop_char : ascii -> bool) (s : string) : string :=
  match s with
  | EmptyString => EmptyString
  | String c s' =>
      match str_rstrip drop_char s' with
      | EmptyString => if drop_char c then EmptyString else String c EmptyString
      | r => String c r
      end
  end.

Definition str_strip (s : string) : string :=
  str_rstrip is_space (str_lstrip is_space s).

(** [s.startswith (c)] and [s.endswith (c)] for one character. *)
Definition startswith (s : string) (c : ascii) : bool :=
  match s with
  | String c' _ => Ascii.eqb c' c
  | EmptyString => false
  end.

Fixpoint endswith (s : string) (c : ascii) : bool :=
  match s with
  | EmptyString => false
  | String c' EmptyString => Ascii.eqb c' c
  | String _ s' => endswith s' c
  end.

(** [p[:i], p[i:]] for [i = p.rfind (sep) + 1]. *)
Fixpoint cut_last (sep : ascii) (p : string) : string * string :=
  match p with
  | EmptyString => (EmptyString, EmptyString)
  | String c p' =>
      let '(head, tail) := cut_last sep p' in
      match head with
      | EmptyString =>
          if Ascii.eqb c sep then (String c EmptyString, tail)
          else (EmptyString, String c tail)
      | _ => (String c head, tail)
      end
  end.

Fixpoint all_char (c : ascii) (s : string) : bool :=
  match s with
  | EmptyString => true
  | String c' s' => Ascii.eqb c' c && all_char c s'
  end.

(** [os.path.split (p)] and [os.path.join (a, b)] of [posixpath]. *)
Definition path_split (p : string) : string * string :=
  let '(head, tail) := cut_last "/" p in
  let head :=
    if negb (String.eqb head EmptyString) && negb (all_char "/" head)
    then str_rstrip (fun c => Ascii.eqb c "/") head
    else head in
  (head, tail).

Definition path_join (a b : string) : string :=
  if startswith b "/" then b
  else if String.eqb a EmptyString || endswith a "/" then a +:+ b
  else a +:+ "/" +:+ b.


End Py.

Export Py.

(** ** [singlegenome.py]: class [WindowGen]

    A sequence file is the list of its records, the links file is the
    list of its lines, [None] when the file does not exist, and what is
    printed is the list of the lines printed. *)
Module WindowGen.

(** [[list of ids, list of windows]], the value [make_windows] returns. *)
Definition Windows : Type := list string * list (list ascii).

Definition TAB : string := String (ascii_of_nat 9) EmptyString.
Definition NL : string := String (ascii_of_nat 10) EmptyString.

Definition type_error_message : string :=
  "The window size and gap must be int(#bp) or float(proportion of total length)".
Definition append_message : string :=
  "This file already exists. New content will be appended".

Section Builtins.
(** [int (s)] and [float (s)] on a string, [None] when the builtin
    raises [ValueError]. *)
Variable str_to_int : string -> option Z.
Variable str_to_float : string -> option float.
(** The order in which a dictionary hands out its items. *)
Variable iteritems : forall V : Type, gmap string V -> list (string * V).

(** [type_convert], called on strings only. *)
Definition type_convert (num_str : string) : res pyval :=
  match str_to_int num_str with
  | Some n => Ok (int_or_long n)
  | None =>
      match str_to_float num_str with
      | Some f => Ok (PFloat f)
      | None => Raise ValueError
      end
  end.

(** The two checks at the head of [make_windows], one per argument:
    a string is converted, an [int] or a [float] is kept, anything
    else is a type error. *)
Definition check_arg (v : pyval) : res pyval :=
  match v with
  | PStr s => type_convert s
  | PInt _ | PFloat _ => Ok v
  | PLong _ | PNone => Raise TypeError
  end.

(** The [isinstance] chain: proportional values become absolute
    lengths of the current sequence. *)
Definition absolute_lengths (seq_length : Z) (window_size window_gap : pyval)
  : res (Z * Z) :=
  match window_size, window_gap with
  | PInt s, PInt g => Ok (s, g)
  | PInt s, PFloat g =>
      g' ← int_of_float (g * float_of_int seq_length);
      Ok (s, g')
  | PFloat s, PInt g =>
      s' ← int_of_float (s * float_of_int seq_length);
      Ok (s', g)
  | PFloat s, PFloat g =>
      s' ← int_of_float (s * float_of_int seq_length);
      g' ← int_of_float (g * float_of_int seq_length);
      Ok (s', g')
  | _, _ => Raise TypeError
  end.

Definition window_id (seq_id : string) (i j : Z) : string :=
  seq_id +:+ ":" +:+ str_of_int i +:+ "to" +:+ str_of_int j.

(** One turn of the loop over the offsets. *)
Definition window_step (seq_id : string) (sequence : list ascii)
    (window_size : Z) (W : Windows) (i : Z) : Windows :=
  if 100 <=? len (slice sequence i (i + window_size)) then
    (W.1 ++ [window_id seq_id i (Z.min (i + window_size) (len sequence))],
     W.2 ++ [slice sequence i (i + window_size)])
  else W.

(** The body of the [try] block. *)
Definition try_windows (seq_id : string) (sequence : list ascii)
    (window_size window_gap : pyval) : res Windows :=
  '(size, gap) ← absolute_lengths (len sequence) window_size window_gap;
  offsets ← range 0 (len sequence) (size + gap);
  Ok (foldl (window_step seq_id sequence size) ([], []) offsets).

(** [make_windows]: what it prints and what it returns or raises. *)
Definition make_windows (seq_info : string * list ascii)
    (window_size window_gap : pyval) : list string * res Windows :=
  let '(seq_id, sequence) := seq_info in
  match check_arg window_size with
  | Raise e => ([], Raise e)
  | Ok window_size =>
      match check_arg window_gap with
      | Raise e => ([], Raise e)
      | Ok window_gap =>
          match try_windows seq_id sequence window_size window_gap with
          | Raise TypeError => ([type_error_message], Raise TypeError)
          | r => ([], r)
          end
      end
  end.

(** A line of the links file: two window ids, tab-separated. *)
Definition link_line (a b : string) : string :=
  a +:+ TAB +:+ b +:+ NL.

(** The lines [write_links] writes for one scaffold. *)
Definition link_lines (windows : list string) : list string :=
  i ← seq 0 (length windows - 1);
  match windows !! i, windows !! S i with
  | Some a, Some b => [link_line a b]
  | _, _ => []
  end.

(** [tryopen]: an absent file is created empty, an existing one is
    announced; either way the file is then opened for appending. *)
Definition tryopen (file : option (list string)) : list string * list string :=
  match file with
  | None => ([], [])
  | Some content => ([append_message], content)
  end.

(** [write_links]: the printed lines and the content of the links file
    afterwards. *)
Definition write_links (Windows : gmap string (list string))
    (links_file : option (list string)) : list string * list string :=
  let '(out, content) := tryopen links_file in
  (out, content ++ (iteritems _ Windows ≫= fun sw => link_lines sw.2)).

(** The dictionaries [write_windows] fills: scaffold to window ids and
    window id to window. *)
Definition store_windows (window_dict : gmap string (list ascii))
    (W : Windows) : gmap string (list ascii) :=
  foldl (fun d i =>
           match W.1 !! i, W.2 !! i with
           | Some k, Some w => <[k := w]> d
           | _, _ => d
           end) window_dict (seq 0 (length W.1)).

Fixpoint read_windows (seqs : list (string * list ascii))
    (window_size window_gap : pyval)
    (seq_win_id : gmap string (list string))
    (window_dict : gmap string (list ascii))
  : list string * res (gmap string (list string) * gmap string (list ascii)) :=
  match seqs with
  | [] => ([], Ok (seq_win_id, window_dict))
  | (seq_id, sequence) :: rest =>
      match make_windows (seq_id, sequence) window_size window_gap with
      | (out, Raise e) => (out, Raise e)
      | (out, Ok W) =>
          let '(out', r) :=
            read_windows rest window_size window_gap
              (<[seq_id := W.1]> seq_win_id) (store_windows window_dict W) in
          (out ++ out', r)
      end
  end.

(** [write_windows] on the records of the scaffold file: the printed
    lines and, unless a call of [make_windows] raised, the windows
    written and the content of the links file. *)
Definition write_windows (seqs : list (string * list ascii))
    (window_size window_gap : pyval) (links_file : option (list string))
  : list string * res (gmap string (list ascii) * list string) :=
  match read_windows seqs window_size window_gap ∅ ∅ with
  | (out, Raise e) => (out, Raise e)
  | (out, Ok (seq_win_id, window_dict)) =>
      let '(out', links) := write_links seq_win_id links_file in
      (out ++ [str_of_int (Z.of_nat (size window_dict))] ++ out',
       Ok (window_dict, links))
  end.

End Builtins.

(** The two paths [write_windows] writes to and returns: the window
    file, named after the scaffold file, and the links file. *)
Definition window_file (scaffold_file output_dir : string) : res string :=
  let filename := (path_split scaffold_file).2 in
  let start := str_join "" (slice (str_split "." filename) 0 (-1)) in
  end_ ← list_getitem (str_split "." filename) (-1);
  Ok (path_join output_dir (start +:+ "windows." +:+ end_)).

Definition links_file (output_dir : string) : string :=
  path_join output_dir "links_file.tsv".


End WindowGen.

(** ** [outliers.py]: class [Outliers]

    The report is modelled by the values of its rows: the header line,
    the rendering of the numbers and the progress messages are left out.
    The statistics of the scaffolds and genomes, the reference
    distributions and the numeric libraries come from outside the class
    and are parameters. *)
Module Outliers.

(** The statistics of a scaffold and of a genome, as the statistics
    store hands them over. *)
Record ScaffoldStat := {
  length : Z;
  gc : float;
  signature : list float;
  coverage : list float }.

Record GenomeStat := {
  mean_gc : float;
  mean_td : float;
  mean_signature : list float;
  mean_coverage : list float }.

(** A row of the report, field by field as it is written; [identify]
    leaves the two gene columns out. *)
Record Row := {
  row_scaffold : string;
  row_genome : string;
  row_length : Z;
  row_dists : list string;
  row_gc : float;
  row_mean_gc : float;
  row_gc_lower : float;
  row_gc_upper : float;
  row_td : float;
  row_mean_td : float;
  row_td_bound : float;
  row_coverage : float;
  row_mean_coverage : float;
  row_corr : float;
  row_mean_cp : pyval;
  row_genes : option (Z * float) }.

(** A line of the compatibility table, its numeric columns parsed. *)
Record CompatLine := {
  line_scaffold : string;
  line_bin : string;
  line_scaffold_gc : float;
  line_genome_gc : float;
  line_td : float;
  line_scaffold_cov : float;
  line_genome_cov : float }.

Definition min_required_coverage : float := 0.01.

(** [d[k]] and [d.keys ()] for a reference table, a dictionary with
    numeric keys given in its iteration order. *)
Definition keys {V} (d : list (float * V)) : list float := d.*1.

Definition getitem {V} (d : list (float * V)) (k : float) : res V :=
  match List.find (fun kv => (kv.1 =? k)%float) d with
  | Some kv => Ok kv.2
  | None => Raise KeyError
  end.

(** [l[0]]. *)
Definition first {A} (l : list A) : res A :=
  match l with
  | a :: _ => Ok a
  | [] => Raise IndexError
  end.

Section Body.
(** The libraries the class calls and the reference distributions it
    reads from its data files.  [find_nearest] takes the position of the
    least distance, which raises on an empty list of keys. *)
Variable manhattan : list float -> list float -> float.
Variable pearsonr : list float -> list float -> float * float.
Variable np_mean : list float -> float.
Variable find_nearest : list float -> float -> res float.
Variable gc_dist : list (float * list (float * list (float * float))).
Variable td_dist : list (float * list (float * float)).
Variable iteritems : forall V : Type, gmap string V -> list (string * V).

(** The keys into the distributions that depend on the genome only. *)
Definition genome_keys (gs : GenomeStat) (gc_per td_per : float)
  : res (float * float * float * float) :=
  closest_gc ← find_nearest (keys gc_dist) (mean_gc gs / 100);
  by_len ← getitem gc_dist closest_gc;
  sample_seq_len ← first (keys by_len);
  d ← getitem by_len sample_seq_len;
  gc_lower_bound_key ← find_nearest (keys d) ((100 - gc_per) / 2);
  gc_upper_bound_key ← find_nearest (keys d) ((100 + gc_per) / 2);
  first_len ← first (keys td_dist);
  td_keys ← getitem td_dist first_len;
  td_bound_key ← find_nearest (keys td_keys) td_per;
  Ok (closest_gc, gc_lower_bound_key, gc_upper_bound_key, td_bound_key).

(** The GC and TD bounds for a scaffold of the given length. *)
Definition scaffold_bounds (k : float * float * float * float) (length : Z)
  : res (float * float * float) :=
  let '(closest_gc, gc_lower_bound_key, gc_upper_bound_key, td_bound_key) := k in
  by_len ← getitem gc_dist closest_gc;
  closest_seq_len ← find_nearest (keys by_len) (float_of_int length);
  d ← getitem by_len closest_seq_len;
  gc_lower_bound ← getitem d gc_lower_bound_key;
  gc_upper_bound ← getitem d gc_upper_bound_key;
  closest_seq_len ← find_nearest (keys td_dist) (float_of_int length);
  t ← getitem td_dist closest_seq_len;
  td_bound ← getitem t td_bound_key;
  Ok (gc_lower_bound, gc_upper_bound, td_bound).

Definition delta_gc (stats : ScaffoldStat) (gs : GenomeStat) : float :=
  (gc stats - mean_gc gs) / 100.

Definition delta_td (stats : ScaffoldStat) (gs : GenomeStat) : float :=
  manhattan (signature stats) (mean_signature gs).

(** The percent errors [identify] collects over the dimensions with
    enough genome coverage. *)
Definition identify_cp (gs : GenomeStat) (stats : ScaffoldStat) : list float :=
  cc ← zip (mean_coverage gs) (coverage stats);
  let '(cov_genome, cov_scaffold) := cc in
  if (min_required_coverage <=? cov_genome)%float
  then [(abs (cov_scaffold - cov_genome) * 100 / cov_genome)%float]
  else [].

(** The same list as [compatible] writes it. *)
Definition compatible_cp (gs : GenomeStat) (ss : ScaffoldStat) : list float :=
  cc ← zip (mean_coverage gs) (coverage ss);
  let '(cov_genome, cov_scaffold) := cc in
  if (min_required_coverage <=? cov_genome)%float
  then [(abs (cov_genome - cov_scaffold) * 100 / cov_genome)%float]
  else [].

(** [identify], from "determine if scaffold is an outlier" to the
    report condition: the outlying distributions, the correlation and
    the mean coverage error. *)
Definition identify_dists (gs : GenomeStat) (stats : ScaffoldStat)
    (gc_lower_bound gc_upper_bound td_bound cov_corr cov_perc : float)
  : list string * float * pyval :=
  let outlying_dists : list string := [] in
  let outlying_dists :=
    if ((delta_gc stats gs <? gc_lower_bound)
        || (gc_upper_bound <? delta_gc stats gs))%float
    then outlying_dists ++ ["GC"] else outlying_dists in
  let outlying_dists :=
    if (td_bound <? delta_td stats gs)%float
    then outlying_dists ++ ["TD"] else outlying_dists in
  let '(corr_r, outlying_dists) :=
    if 1 <? len (mean_coverage gs) then
      let corr_r := (pearsonr (mean_coverage gs) (coverage stats)).1 in
      (corr_r, if (corr_r <? cov_corr)%float
               then outlying_dists ++ ["COV_CORR"] else outlying_dists)
    else (1%float, outlying_dists) in
  let mean_cp := identify_cp gs stats in
  if len mean_cp =? 0 then
    (outlying_dists ++ ["COV_PERC"], corr_r, PInt (-1))
  else
    let mean_cp := np_mean mean_cp in
    (if (cov_perc <? mean_cp)%float
     then outlying_dists ++ ["COV_PERC"] else outlying_dists,
     corr_r, PFloat mean_cp).

(** The report condition shared by [identify] and [compatible]. *)
Definition reported (report_type : string) (dists : list string) : bool :=
  (bool_decide (report_type = "any") && (1 <=? len dists))
  || (bool_decide (report_type = "all") && (3 <=? len dists)).

Definition make_row (scaffold_id genome_id : string) (gs : GenomeStat)
    (stats : ScaffoldStat) (gc_lower_bound gc_upper_bound td_bound : float)
    (r : list string * float * pyval) (genes : option (Z * float)) : Row :=
  {| row_scaffold := scaffold_id;
     row_genome := genome_id;
     row_length := length stats;
     row_dists := r.1.1;
     row_gc := gc stats;
     row_mean_gc := mean_gc gs;
     row_gc_lower := mean_gc gs + gc_lower_bound * 100;
     row_gc_upper := mean_gc gs + gc_upper_bound * 100;
     row_td := delta_td stats gs;
     row_mean_td := mean_td gs;
     row_td_bound := td_bound;
     row_coverage := np_mean (coverage stats);
     row_mean_coverage := np_mean (mean_coverage gs);
     row_corr := r.1.2;
     row_mean_cp := r.2;
     row_genes := genes |}.

(** What [identify] writes for one scaffold of a genome: a row or
    nothing. *)
Definition identify_scaffold (scaffold_id genome_id : string)
    (gs : GenomeStat) (stats : ScaffoldStat)
    (gc_lower_bound gc_upper_bound td_bound cov_corr cov_perc : float)
    (report_type : string) : option Row :=
  let r := identify_dists gs stats gc_lower_bound gc_upper_bound td_bound
             cov_corr cov_perc in
  if reported report_type r.1.1
  then Some (make_row scaffold_id genome_id gs stats
               gc_lower_bound gc_upper_bound td_bound r None)
  else None.

(** [compatible], from "determine if scaffold compatible" to the
    report condition. *)
Definition compatible_dists (gs : GenomeStat) (ss : ScaffoldStat)
    (gc_lower_bound gc_upper_bound td_bound cov_corr cov_perc : float)
  : list string * float * pyval :=
  let compatible_dists : list string := [] in
  let compatible_dists :=
    if ((gc_lower_bound <=? delta_gc ss gs)
        && (delta_gc ss gs <=? gc_upper_bound))%float
    then compatible_dists ++ ["GC"] else compatible_dists in
  let compatible_dists :=
    if (delta_td ss gs <=? td_bound)%float
    then compatible_dists ++ ["TD"] else compatible_dists in
  let '(corr_r, compatible_dists) :=
    if 1 <? len (mean_coverage gs) then
      let corr_r := (pearsonr (mean_coverage gs) (coverage ss)).1 in
      (corr_r, if (cov_corr <=? corr_r)%float
               then compatible_dists ++ ["COV_CORR"] else compatible_dists)
    else (1%float, compatible_dists) in
  let mean_cp := np_mean (compatible_cp gs ss) in
  (if (mean_cp <=? cov_perc)%float
   then compatible_dists ++ ["COV_PERC"] else compatible_dists,
   corr_r, PFloat mean_cp).

(** What [compatible] writes for one scaffold and one genome. *)
Definition compatible_pair (scaffold_id genome_id : string)
    (gs : GenomeStat) (ss : ScaffoldStat) (genes : Z * float)
    (gc_lower_bound gc_upper_bound td_bound cov_corr cov_perc : float)
    (report_type : string) : option Row :=
  let r := compatible_dists gs ss gc_lower_bound gc_upper_bound td_bound
             cov_corr cov_perc in
  if reported report_type r.1.1
  then Some (make_row scaffold_id genome_id gs ss
               gc_lower_bound gc_upper_bound td_bound r (Some genes))
  else None.

(** The body of [identify]'s loop over the scaffolds of a genome; the
    state is the list of rows written so far. *)
Definition identify_body (stats_of : gmap string ScaffoldStat)
    (genome_id : string) (gs : GenomeStat) (k : float * float * float * float)
    (cov_corr cov_perc : float) (report_type : string)
    (scaffold_id : string) (fout : list Row) : list Row * res () :=
  match
    stats ← lookup_key stats_of scaffold_id;
    b ← scaffold_bounds k (length stats);
    Ok (stats, b)
  with
  | Raise e => (fout, Raise e)
  | Ok (stats, (gc_lower_bound, gc_upper_bound, td_bound)) =>
      match identify_scaffold scaffold_id genome_id gs stats
              gc_lower_bound gc_upper_bound td_bound
              cov_corr cov_perc report_type with
      | Some row => (fout ++ [row], Ok ())
      | None => (fout, Ok ())
      end
  end.

(** The body of [identify]'s loop over the genomes. *)
Definition identify_genome (stats_of : gmap string ScaffoldStat)
    (genome_stats : gmap string GenomeStat)
    (gc_per td_per cov_corr cov_perc : float) (report_type : string)
    (g : string * list string) (fout : list Row) : list Row * res () :=
  match
    gs ← lookup_key genome_stats g.1;
    k ← genome_keys gs gc_per td_per;
    Ok (gs, k)
  with
  | Raise e => (fout, Raise e)
  | Ok (gs, k) =>
      for_each (identify_body stats_of g.1 gs k cov_corr cov_perc report_type)
        g.2 fout
  end.

(** [identify]: the rows of the report below its header, and whether
    the run ended or raised. *)
Definition identify (scaffolds_in_genome : gmap string (list string))
    (stats_of : gmap string ScaffoldStat)
    (genome_stats : gmap string GenomeStat)
    (gc_per td_per cov_corr cov_perc : float) (report_type : string)
  : list Row * res () :=
  for_each (identify_genome stats_of genome_stats
              gc_per td_per cov_corr cov_perc report_type)
    (iteritems _ scaffolds_in_genome) [].

(** The body of [compatible]'s loop over the genomes, for one
    scaffold of interest. *)
Definition compatible_body (scaffold_id : string) (ss : ScaffoldStat)
    (genes : Z * float)
    (gc_per td_per cov_corr cov_perc : float) (report_type : string)
    (g : string * GenomeStat) (fout : list Row) : list Row * res () :=
  match
    k ← genome_keys g.2 gc_per td_per;
    scaffold_bounds k (length ss)
  with
  | Raise e => (fout, Raise e)
  | Ok (gc_lower_bound, gc_upper_bound, td_bound) =>
      match compatible_pair scaffold_id g.1 g.2 ss genes
              gc_lower_bound gc_upper_bound td_bound
              cov_corr cov_perc report_type with
      | Some row => (fout ++ [row], Ok ())
      | None => (fout, Ok ())
      end
  end.

(** [compatible]. *)
Definition compatible (scaffolds_of_interest : gmap string (Z * float))
    (stats_of : gmap string ScaffoldStat)
    (genome_stats : gmap string GenomeStat)
    (gc_per td_per cov_corr cov_perc : float) (report_type : string)
  : list Row * res () :=
  for_each (fun (s : string * ScaffoldStat) fout =>
              match scaffolds_of_interest !! s.1 with
              | None => (fout, Ok ())
              | Some genes =>
                  for_each (compatible_body s.1 s.2 genes
                              gc_per td_per cov_corr cov_perc report_type)
                    (iteritems _ genome_stats) fout
              end)
    (iteritems _ stats_of) [].

(** [add_compatible_closest]: the table of distances, scaffold by
    scaffold and bin by bin; a later line replaces an earlier one. *)
Definition add_line (scaffold_ids : gmap string (gmap string (float * float * float)))
    (l : CompatLine) : gmap string (gmap string (float * float * float)) :=
  let gc_dist := abs (line_scaffold_gc l - line_genome_gc l) in
  let td_dist := line_td l in
  let cov_dist := abs (line_scaffold_cov l - line_genome_cov l) in
  <[line_scaffold l :=
      <[line_bin l := (gc_dist, td_dist, cov_dist)]>
        (default ∅ (scaffold_ids !! line_scaffold l))]> scaffold_ids.

Definition distance_table (lines : list CompatLine)
  : gmap string (gmap string (float * float * float)) :=
  foldl add_line ∅ lines.

(** One turn of the loop over the bins of a scaffold: each of the
    three running minima moves to a strictly smaller distance. *)
Definition best_step
    (best : (float * option string) * (float * option string)
            * (float * option string))
    (b : string * (float * float * float))
  : (float * option string) * (float * option string)
    * (float * option string) :=
  let '(best_gc, best_td, best_cov) := best in
  let '(bin_id, (gc, td, cov)) := b in
  let best_gc := if (gc <? best_gc.1)%float then (gc, Some bin_id) else best_gc in
  let best_td := if (td <? best_td.1)%float then (td, Some bin_id) else best_td in
  let best_cov := if (cov <? best_cov.1)%float then (cov, Some bin_id) else best_cov in
  (best_gc, best_td, best_cov).

Definition best_bins (bin_stats : gmap string (float * float * float))
  : (float * option string) * (float * option string)
    * (float * option string) :=
  foldl best_step ((1e9%float, None), (1e9%float, None), (1e9%float, None))
    (iteritems _ bin_stats).

(** The check "closest to a single bin", for the current bin. *)
Definition closest_to (cur_bin_id : string)
    (bin_stats : gmap string (float * float * float)) : bool :=
  let '(best_gc, best_td, best_cov) := best_bins bin_stats in
  (bool_decide (best_gc.2 = best_td.2) && bool_decide (best_td.2 = best_cov.2))
  && bool_decide (best_gc.2 = Some cur_bin_id).

Definition compatible_scaffolds (lines : list CompatLine)
    (cur_bin_id : string) : gset string :=
  foldl (fun (acc : gset string) (s : string * gmap string (float * float * float)) =>
           if closest_to cur_bin_id s.2 then acc ∪ {[ s.1 ]} else acc)
    ∅ (iteritems _ (distance_table lines)).

(** The sequences of the bin after the compatible scaffolds of the
    scaffold file have been added. *)
Definition add_compatible_closest (scaffolds : list (string * list ascii))
    (genome_seqs : gmap string (list ascii)) (lines : list CompatLine)
    (cur_bin_id : string) : gmap string (list ascii) :=
  foldl (fun (g : gmap string (list ascii)) (sq : string * list ascii) =>
           if bool_decide (sq.1 ∈ compatible_scaffolds lines cur_bin_id)
           then <[sq.1 := sq.2]> g else g)
    genome_seqs scaffolds.

End Body.

(** *** Modifying a bin

    A sequence file is the list of its records and, once read, the
    dictionary of its sequences; the outlier file and the compatibility
    file are the lists of their lines, each line with its terminator as
    the file iterator hands it out.  The bin of the genome file, which a
    library derives from its name, is a parameter. *)
Section Modify.
Variable iteritems : forall V : Type, gmap string V -> list (string * V).

(** [remove_outliers]: the sequences written to the output genome. *)
Definition remove_outliers (genome_seqs : gmap string (list ascii))
    (outlier_file : list string) : res (gmap string (list ascii)) :=
  foldM (fun genome_seqs line =>
           let line_split := str_split tab line in
           scaffold_id ← list_getitem line_split 0;
           Ok (delete scaffold_id genome_seqs))
    genome_seqs (drop 1 outlier_file).

(** [add_compatible_unique], reading the compatibility file: the
    scaffold ids in the order of the lines and the bin of each. *)
Definition read_bins (compatible_file : list string)
  : res (list string * gmap string string) :=
  foldM (fun (st : list string * gmap string string) line =>
           let line_split := str_split tab line in
           scaffold_id ← list_getitem line_split 0;
           bin_field ← list_getitem line_split 1;
           let bin_id := str_strip bin_field in
           Ok (st.1 ++ [scaffold_id], <[scaffold_id := bin_id]> st.2))
    ([], ∅) (drop 1 compatible_file).

(** The scaffolds named exactly once, for the current bin. *)
Definition unique_scaffolds (scaffold_ids : list string)
    (bin_ids : gmap string string) (cur_bin_id : string) : gset string :=
  foldl (fun (acc : gset string) (sb : string * string) =>
           if (list_count scaffold_ids sb.1 =? 1) && bool_decide (sb.2 = cur_bin_id)
           then acc ∪ {[ sb.1 ]} else acc)
    ∅ (iteritems _ bin_ids).

(** The loop "add compatible sequences to genome". *)
Definition add_sequences (compatible_scaffolds : gset string)
    (scaffolds : list (string * list ascii))
    (genome_seqs : gmap string (list ascii)) : gmap string (list ascii) :=
  foldl (fun (g : gmap string (list ascii)) (sq : string * list ascii) =>
           if bool_decide (sq.1 ∈ compatible_scaffolds)
           then <[sq.1 := sq.2]> g else g)
    genome_seqs scaffolds.

(** [add_compatible_unique]: the sequences written to the output
    genome. *)
Definition add_compatible_unique (scaffolds : list (string * list ascii))
    (genome_seqs : gmap string (list ascii)) (compatible_file : list string)
    (cur_bin_id : string) : res (gmap string (list ascii)) :=
  '(scaffold_ids, bin_ids) ← read_bins compatible_file;
  let compatible_scaffolds := unique_scaffolds scaffold_ids bin_ids cur_bin_id in
  Ok (add_sequences compatible_scaffolds scaffolds genome_seqs).

End Modify.

(** *** The index of the outlier plots

    A file is the list of the strings written to it, [None] when it has
    not been opened; opening a file for writing is taken to succeed.
    The sort of the genome ids is a library's. *)
Section Html.
Variable alphanumeric_sort : list string -> list string.
Variable iteritems : forall V : Type, gmap string V -> list (string * V).

Definition quoted (s : string) : string := quote +:+ s +:+ quote.

(** What is written to [index.html]. *)
Definition index_html (starting_plot_filename : string) : list string :=
  ["<html>" +:+ newline;
   "<head>";
   "<title>RefineM outlier plots</title>" +:+ newline;
   "</head>" +:+ newline;
   "<frameset cols=" +:+ quoted "15%,85%" +:+ ">" +:+ newline;
   "<frame src=" +:+ quoted "plot_menu.html" +:+ " name=" +:+ quoted "menu"
     +:+ ">" +:+ newline;
   "<frame src=" +:+ quoted starting_plot_filename +:+ " name=" +:+ quoted "plot"
     +:+ ">" +:+ newline;
   "</frameset>" +:+ newline;
   "</html>" +:+ newline].

(** What is written to [plot_menu.html] before and after the loop over
    the genomes. *)
Definition menu_head (starting_plot_str : string) : list string :=
  ["<html>" +:+ newline;
   "<script>" +:+ newline;
   "    function change_title(name) {" +:+ newline;
   "        document.getElementById(" +:+ quoted "active_plot"
     +:+ ").innerHTML = name;" +:+ newline;
   "    }" +:+ newline;
   "</script>" +:+ newline +:+ newline;
   "<style>" +:+ newline;
   "ul {" +:+ newline;
   "margin-top: 0px;" +:+ newline;
   "margin-bottom: 12px;" +:+ newline;
   "}" +:+ newline;
   "</style>" +:+ newline +:+ newline;
   "<body>" +:+ newline;
   "<div><b>Active plot:</b>" +:+ newline;
   "<div id=" +:+ quoted "active_plot" +:+ ">" +:+ starting_plot_str +:+ "</div>"
     +:+ newline;
   "</div>" +:+ newline;
   "<br>" +:+ newline;
   "<div><b>Plots:</b></div>" +:+ newline].

Definition menu_foot : list string :=
  ["</body>" +:+ newline; "</html>" +:+ newline].

(** The entry of a plot, a pair of its type and its file name. *)
Definition menu_item (genome_id : string) (plot : string * string) : string :=
  "    <li><a href=" +:+ quoted plot.2 +:+ " target=" +:+ quoted "plot"
    +:+ " onclick=" +:+ quoted ("change_title('" +:+ (genome_id +:+ "<br>" +:+ plot.1)
                                 +:+ "');")
    +:+ ">" +:+ plot.1 +:+ "</a><br></li>" +:+ newline.

(** One turn of the loop over the genomes. *)
Definition menu_genome (genome_plots : gmap string (list (string * string)))
    (genome_id : string) (fout : list string) : list string * res () :=
  let fout := fout ++ ["<i>  " +:+ genome_id +:+ ":</i>" +:+ newline;
                       "    <ul>" +:+ newline] in
  match lookup_key genome_plots genome_id with
  | Raise e => (fout, Raise e)
  | Ok plots =>
      (fout ++ (menu_item genome_id <$> plots) ++ ["    </ul>" +:+ newline], Ok ())
  end.

(** [create_html_index]: the two files, [index.html] and
    [plot_menu.html], and whether the call ended or raised. *)
Definition create_html_index (genome_plots : gmap string (list (string * string)))
  : (option (list string) * option (list string)) * res () :=
  let sorted_genome_ids := alphanumeric_sort (iteritems _ genome_plots).*1 in
  match
    genome_id ← list_getitem sorted_genome_ids 0;
    plots ← lookup_key genome_plots genome_id;
    plot ← list_getitem plots 0;
    Ok (genome_id, plot)
  with
  | Raise e => ((None, None), Raise e)
  | Ok (genome_id, plot) =>
      let starting_plot_filename := plot.2 in
      let starting_plot_str := genome_id +:+ "<br>" +:+ plot.1 in
      let index := index_html starting_plot_filename in
      match for_each (menu_genome genome_plots) sorted_genome_ids
              (menu_head starting_plot_str) with
      | (fout, Raise e) => ((Some index, Some fout), Raise e)
      | (fout, Ok _) => ((Some index, Some (fout ++ menu_foot)), Ok ())
      end
  end.

End Html.

End Outliers.

(** ** Reference instances of the builtins

    The theorems below hold for every behaviour of [int (s)], [float (s)]
    and of the dictionary order.  To run the model on concrete inputs, the
    builtins are instantiated on plain decimal literals (an optional sign,
    digits, an optional fractional part) and the dictionary order by the
    order of the keys. *)
Module Ref.

Definition digit_value (c : ascii) : option Z :=
  let n := Z.of_nat (nat_of_ascii c) in
  if (48 <=? n) && (n <=? 57) then Some (n - 48) else None.

(** The value of a run of decimal digits and the number of digits. *)
Fixpoint digits (s : string) (acc : Z) (count : Z) : option (Z * Z * string) :=
  match s with
  | EmptyString => Some (acc, count, EmptyString)
  | String c s' =>
      match digit_value c with
      | Some d => digits s' (10 * acc + d) (count + 1)
      | None => Some (acc, count, s)
      end
  end.

Definition signed (s : string) : bool * string :=
  match s with
  | String "-" s' => (true, s')
  | String "+" s' => (false, s')
  | _ => (false, s)
  end.

Definition str_to_int (s : string) : option Z :=
  let '(neg, body) := signed s in
  match digits body 0 0 with
  | Some (n, count, EmptyString) =>
      if count =? 0 then None else Some (if neg then - n else n)
  | _ => None
  end.

(** The binary64 number nearest to [m / 10 ^ k]. *)
Definition decimal (neg : bool) (m k : Z) : float :=
  match m with
  | Z.pos p =>
      SF2Prim (SFdiv prec emax (S754_finite neg p 0)
                 (S754_finite false (Z.to_pos (10 ^ k)) 0))
  | _ => if neg then (-0)%float else 0%float
  end.

Definition str_to_float (s : string) : option float :=
  let '(neg, body) := signed s in
  match digits body 0 0 with
  | Some (n, count, EmptyString) =>
      if count =? 0 then None else Some (decimal neg n 0)
  | Some (n, count, String "." frac) =>
      match digits frac n 0 with
      | Some (m, k, EmptyString) =>
          if count + k =? 0 then None else Some (decimal neg m k)
      | _ => None
      end
  | _ => None
  end.

Definition iteritems (V : Type) (d : gmap string V) : list (string * V) :=
  map_to_list d.

(** The opposite order. *)
Definition iteritems_rev (V : Type) (d : gmap string V) : list (string * V) :=
  reverse (map_to_list d).

(** The numeric libraries, computed from left to right: [numpy.mean],
    the Manhattan distance of two signatures, the nearest key, and the
    correlation coefficient of [scipy.stats.pearsonr] (its second
    result, the p-value, is not used by the class and is not computed). *)
Definition sum (l : list float) : float := foldl PrimFloat.add 0%float l.

Definition np_mean (l : list float) : float :=
  (sum l / float_of_int (len l))%float.

Definition manhattan (a b : list float) : float :=
  sum (zip_with (fun x y => abs (x - y)) a b).

Definition find_nearest (array : list float) (value : float) : res float :=
  match array with
  | [] => Raise ValueError
  | k :: ks =>
      Ok (foldl (fun best k' =>
                   if (abs (k' - value) <? best.1)%float
                   then (abs (k' - value), k') else best)
            (abs (k - value), k) ks).2
  end.

Definition py_min (a b : float) : float := if (b <? a)%float then b else a.
Definition py_max (a b : float) : float := if (a <? b)%float then b else a.

Definition pearsonr (x y : list float) : float * float :=
  let mx := np_mean x in
  let my := np_mean y in
  let xm := (fun a => a - mx)%float <$> x in
  let ym := (fun a => a - my)%float <$> y in
  let r_num := sum (zip_with PrimFloat.mul xm ym) in
  let r_den :=
    sqrt (sum ((fun a => a * a)%float <$> xm) * sum ((fun a => a * a)%float <$> ym)) in
  let r := (r_num / r_den)%float in
  (py_max (py_min r 1) (-1), nan).

(** A reference distribution with one GC bucket and one length bucket:
    the 5th and 95th percentile of the GC deviation and the 95th
    percentile of the TD distance. *)
Definition gc_dist : list (float * list (float * list (float * float))) :=
  [(0.5, [(1000, [(5, -0.04); (95, 0.04)])])]%float.

Definition td_dist : list (float * list (float * float)) :=
  [(1000, [(95, 0.3)])]%float.

(** A genome sampled twice and two of its scaffolds; the first scaffold
    has the same coverage in both samples. *)
Definition genome : Outliers.GenomeStat :=
  {| Outliers.mean_gc := 50;
     Outliers.mean_td := 0.1;
     Outliers.mean_signature := [0.25; 0.75];
     Outliers.mean_coverage := [10; 20] |}%float.

Definition scaffold_a : Outliers.ScaffoldStat :=
  {| Outliers.length := 1200;
     Outliers.gc := 55;
     Outliers.signature := [0.25; 0.75];
     Outliers.coverage := [5; 5] |}%float.

Definition scaffold_b : Outliers.ScaffoldStat :=
  {| Outliers.length := 1200;
     Outliers.gc := 55;
     Outliers.signature := [0.25; 0.75];
     Outliers.coverage := [11; 19] |}%float.

(** A genome without coverage worth the name. *)
Definition uncovered : Outliers.GenomeStat :=
  {| Outliers.mean_gc := 50;
     Outliers.mean_td := 0.1;
     Outliers.mean_signature := [0.25; 0.75];
     Outliers.mean_coverage := [0; 0.005] |}%float.

Definition compat_line (scaffold bin : string)
    (scaffold_gc genome_gc td scaffold_cov genome_cov : float)
  : Outliers.CompatLine :=
  {| Outliers.line_scaffold := scaffold;
     Outliers.line_bin := bin;
     Outliers.line_scaffold_gc := scaffold_gc;
     Outliers.line_genome_gc := genome_gc;
     Outliers.line_td := td;
     Outliers.line_scaffold_cov := scaffold_cov;
     Outliers.line_genome_cov := genome_cov |}.

(** Two scaffolds of 250 and 120 bases, and the lines of a table: the
    fields of a line are joined by tabs and ended by a line feed. *)
Definition scaffold_s : string * list ascii := ("s", replicate 250 "A"%char).
Definition scaffold_t : string * list ascii := ("t", replicate 120 "C"%char).

Definition table_line (fields : list string) : string :=
  str_join (String tab EmptyString) fields +:+ String (ascii_of_nat 10) EmptyString.

(** A compatibility file: [s] is named once, for [binA], and [t] twice. *)
Definition compatible_lines : list string :=
  [table_line ["Scaffold id"; "Genome id"; "Scaffold length (bp)"];
   table_line ["s"; "binA"; "250"];
   table_line ["t"; "binA"; "120"];
   table_line ["t"; "binB"; "120"]].

(** An outlier file that gives nothing but the ids. *)
Definition bare_lines : list string :=
  [table_line ["Scaffold id"]; table_line ["s"]; table_line ["t"]].

(** The same file without a line feed at its end. *)
Definition unterminated_lines : list string :=
  [table_line ["Scaffold id"]; table_line ["s"]; "t"].

(** A genome sampled once. *)
Definition single_sample : Outliers.GenomeStat :=
  {| Outliers.mean_gc := 50;
     Outliers.mean_td := 0.1;
     Outliers.mean_signature := [0.25; 0.75];
     Outliers.mean_coverage := [10] |}%float.

(** A sort of the genome ids, by insertion in the order of the character
    codes. *)
Fixpoint insert_sorted (x : string) (l : list string) : list string :=
  match l with
  | [] => [x]
  | y :: l' => if String.leb x y then x :: l else y :: insert_sorted x l'
  end.

Definition alphanumeric_sort (l : list string) : list string :=
  foldr insert_sorted [] l.

(** Two genomes: [g1] has two plots, [g2] none. *)
Definition genome_plots : gmap string (list (string * string)) :=
  {["g2" := []; "g1" := [("GC", "g1.gc.html"); ("TD", "g1.td.html")]]}.

End Ref.

(** ** Notions of the specification *)
Module Spec.

(** The parent scaffold a window id decodes to: the text before its
    last colon. *)
Fixpoint parent_id (w : string) : option string :=
  match w with
  | EmptyString => None
  | String c w' =>
      match parent_id w' with
      | Some p => Some (String c p)
      | None => if Ascii.eqb c ":" then Some EmptyString else None
      end
  end.

(** The entry a signal contributes to the list of distributions. *)
Definition flag (b : bool) (s : string) : list string :=
  if b then [s] else [].

(** The four signals and the number of them that a list of
    distributions names. *)
Definition signals : list string := ["GC"; "TD"; "COV_CORR"; "COV_PERC"].

Definition flagged_count (dists : list string) : Z :=
  len (filter (fun s => s ∈ dists) signals).

(** A coverage dimension counts when the genome's mean coverage on it
    reaches the minimum. *)
Definition qualifies (cov_genome : float) : Prop :=
  (Outliers.min_required_coverage <=? cov_genome)%float = true.

(** [B] attains the least distance of a list of bins with their
    distances. *)
Definition least (l : list (string * float)) (B : string) : Prop :=
  exists v, (B, v) ∈ l
            /\ forall C w, (C, w) ∈ l -> (v <=? w)%float = true.

(** [B] is strictly closer than every other bin of the list, at a
    distance below 1e9. *)
Definition strictly_least (l : list (string * float)) (B : string) : Prop :=
  exists v, (B, v) ∈ l
            /\ (v <? 1e9)%float = true
            /\ forall C w, (C, w) ∈ l -> C <> B -> (v <? w)%float = true.

(** [B] is the bin the loop of [add_compatible_closest] settles on: its
    distance is below 1e9, no bin that comes before it in the list is as
    close, and no bin that comes after it is closer. *)
Definition closest (l : list (string * float)) (B : string) : Prop :=
  exists (i : nat) (v : float),
    l !! i = Some (B, v)
    /\ (v <? 1e9)%float = true
    /\ (forall (j : nat) C w, (j < i)%nat -> l !! j = Some (C, w) ->
          (w <=? v)%float = false)
    /\ (forall (j : nat) C w, (i < j)%nat -> l !! j = Some (C, w) ->
          (w <? v)%float = false).

(** The running minimum of one column of distances. *)
Definition running_min (best : float * option string) (b : string * float)
  : float * option string :=
  if (b.2 <? best.1)%float then (b.2, Some b.1) else best.

(** What the running minimum of a column has settled on. *)
Definition settled (l : list (string * float)) (best : float * option string)
  : Prop :=
  (best = (1e9%float, None)
   /\ forall (j : nat) C w, l !! j = Some (C, w) -> (w <? 1e9)%float = false)
  \/ (exists B (i : nat),
        best.2 = Some B
        /\ l !! i = Some (B, best.1)
        /\ (best.1 <? 1e9)%float = true
        /\ (forall (j : nat) C w, (j < i)%nat -> l !! j = Some (C, w) ->
              (w <=? best.1)%float = false)
        /\ (forall (j : nat) C w, (i < j)%nat -> l !! j = Some (C, w) ->
              (w <? best.1)%float = false)).

(** The three columns of distances of a scaffold's bins. *)
Definition gc_column (l : list (string * (float * float * float)))
  : list (string * float) := (fun b => (b.1, b.2.1.1)) <$> l.
Definition td_column (l : list (string * (float * float * float)))
  : list (string * float) := (fun b => (b.1, b.2.1.2)) <$> l.
Definition cov_column (l : list (string * (float * float * float)))
  : list (string * float) := (fun b => (b.1, b.2.2)) <$> l.

(** A number that is not NaN, as a point of a lexicographic order. *)
Definition rank (x : spec_float) : option (Z * Z * Z) :=
  match x with
  | S754_nan => None
  | S754_infinity true => Some (-2, 0, 0)
  | S754_infinity false => Some (2, 0, 0)
  | S754_zero _ => Some (0, 0, 0)
  | S754_finite true m e => Some (-1, - e, Z.neg m)
  | S754_finite false m e => Some (1, e, Z.pos m)
  end.

Definition lt3 (a b : Z * Z * Z) : Prop :=
  a.1.1 < b.1.1
  \/ (a.1.1 = b.1.1 /\ (a.1.2 < b.1.2 \/ (a.1.2 = b.1.2 /\ a.2 < b.2))).

Definition key (x : float) : option (Z * Z * Z) := rank (Prim2SF x).

(** The character occurs in the string, and the string without it. *)
Fixpoint occurs (c : ascii) (s : string) : bool :=
  match s with
  | EmptyString => false
  | String c' s' => Ascii.eqb c' c || occurs c s'
  end.

Fixpoint remove_char (c : ascii) (s : string) : string :=
  match s with
  | EmptyString => EmptyString
  | String c' s' =>
      if Ascii.eqb c' c then remove_char c s' else String c' (remove_char c s')
  end.

(** The offsets a positive stride visits in a sequence of [L] bases,
    and those at which the slice of [size] bases is long enough to be
    kept as a window. *)
Definition stride_offsets (L stride : Z) : list Z :=
  if 0 <? stride
  then (fun k => k * stride) <$> seqZ 0 ((L + stride - 1) / stride)
  else [].

Definition kept_offsets (sequence : list ascii) (size stride : Z) : list Z :=
  filter (fun i => 100 <= len (slice sequence i (i + size)))
    (stride_offsets (len sequence) stride).

(** The text before and the text after the first occurrence of a
    character. *)
Fixpoint before (c : ascii) (s : string) : string :=
  match s with
  | EmptyString => EmptyString
  | String x s' => if Ascii.eqb x c then EmptyString else String x (before c s')
  end.

Fixpoint after (c : ascii) (s : string) : string :=
  match s with
  | EmptyString => EmptyString
  | String x s' => if Ascii.eqb x c then s' else after c s'
  end.

(** The first two columns of a line of a tab-separated table: the
    scaffold and, stripped of white space, the bin. *)
Definition column_scaffold (line : string) : string := before tab line.

Definition column_bin (line : string) : string :=
  str_strip (before tab (after tab line)).

(** The lines of a table that name a scaffold in their first column. *)
Definition lines_of (s : string) (rows : list string) : list string :=
  filter (fun line => column_scaffold line = s) rows.

(** The records of a sequence file with a given id. *)
Definition records_of (s : string) (scaffolds : list (string * list ascii))
  : list (string * list ascii) :=
  filter (fun sq => sq.1 = s) scaffolds.

(** The three distances a line of the compatibility table stands for,
    and the lines of the table for a scaffold and a bin. *)
Definition distances (l : Outliers.CompatLine) : float * float * float :=
  (abs (Outliers.line_scaffold_gc l - Outliers.line_genome_gc l),
   Outliers.line_td l,
   abs (Outliers.line_scaffold_cov l - Outliers.line_genome_cov l))%float.

Definition entries_of (s b : string) (lines : list Outliers.CompatLine)
  : list Outliers.CompatLine :=
  filter (fun l => Outliers.line_scaffold l = s /\ Outliers.line_bin l = b) lines.

(** The genome and the plot the index starts with: the first plot of the
    first genome in sorted order. *)
Definition starting_plot (sorted_genome_ids : list string)
    (genome_plots : gmap string (list (string * string)))
  : option (string * (string * string)) :=
  genome_id ← head sorted_genome_ids;
  plots ← genome_plots !! genome_id;
  plot ← head plots;
  Some (genome_id, plot).

(** The part of the menu for a genome: its heading and one entry for
    each of its plots. *)
Definition menu_section (genome_plots : gmap string (list (string * string)))
    (genome_id : string) : list string :=
  ["<i>  " +:+ genome_id +:+ ":</i>" +:+ Py.newline; "    <ul>" +:+ Py.newline]
  ++ (Outliers.menu_item genome_id <$> default [] (genome_plots !! genome_id))
  ++ ["    </ul>" +:+ Py.newline].


(** The absolute length a window size or gap stands for on a sequence
    of [seq_length] bases: an [int] is a number of bases, a [float] is
    the proportion of the sequence, truncated. *)
Definition absolute (seq_length : Z) (v : pyval) (n : Z) : Prop :=
  match v with
  | PInt m => m = n
  | PFloat f => int_of_float (f * float_of_int seq_length) = Ok n
  | _ => False
  end.


(** What the library's [find_nearest] does: it returns one of the keys
    it is given, and raises [ValueError] on an empty list of keys and on
    no other. *)
Definition returns_a_key (find_nearest : list float -> float -> res float)
  : Prop :=
  forall (array : list float) (value : float),
    match find_nearest array value with
    | Ok k => k ∈ array
    | Raise e => array = [] /\ e = ValueError
    end.

(** A scaffold whose signature and coverage profile have the dimensions
    of the genome's: the profiles the signature distance and the
    correlation are defined on. *)
Definition same_dimensions (gs : Outliers.GenomeStat)
    (stats : Outliers.ScaffoldStat) : Prop :=
  List.length (Outliers.signature stats) = List.length (Outliers.mean_signature gs)
  /\ List.length (Outliers.coverage stats) = List.length (Outliers.mean_coverage gs).

End Spec.

(** * Properties *)

Import WindowGen.

(** ** Slices and ranges *)
Section SliceFacts.
Context {A : Type}.
Implicit Types (s : list A) (a b n i : Z).

Lemma len_nonneg s : 0 <= len s.
Proof. unfold len. lia. Qed.

Lemma slice_index_bounds n i : 0 <= n -> 0 <= slice_index n i <= n.
Proof. unfold slice_index. intros Hn. destruct (Z.ltb_spec i 0); lia. Qed.

Lemma len_slice s a b :
  len (slice s a b)
  = Z.max 0 (slice_index (len s) b - slice_index (len s) a).
Proof.
  pose proof (slice_index_bounds (len s) a (len_nonneg s)) as Ha.
  pose proof (slice_index_bounds (len s) b (len_nonneg s)) as Hb.
  unfold slice, len in *. rewrite length_take, length_drop. lia.
Qed.

(** Within the sequence a slice is a plain sub-list. *)
Lemma slice_inside s a b :
  0 <= a -> a <= b -> b <= len s ->
  slice s a b = take (Z.to_nat (b - a)) (drop (Z.to_nat a) s).
Proof.
  intros Ha Hab Hb. unfold slice, slice_index.
  destruct (Z.ltb_spec a 0), (Z.ltb_spec b 0); try lia.
  rewrite !Z.min_l by lia. reflexivity.
Qed.

(** Past the end a slice stops at the end: nothing is added. *)
Lemma slice_clipped s a b :
  0 <= a -> a <= len s -> len s <= b ->
  slice s a b = drop (Z.to_nat a) s.
Proof.
  intros Ha Hab Hb. unfold slice, slice_index.
  destruct (Z.ltb_spec a 0), (Z.ltb_spec b 0); try lia.
  rewrite (Z.min_l a), (Z.min_r b) by lia.
  apply take_ge. rewrite length_drop. unfold len in *. lia.
Qed.

Lemma slice_sublist s a b : sublist (slice s a b) s.
Proof.
  unfold slice. etrans; [apply sublist_take|apply sublist_drop].
Qed.
End SliceFacts.

Lemma range_positive (stop step : Z) :
  0 < step ->
  range 0 stop step
  = Ok ((fun k => k * step) <$> seqZ 0 ((stop + step - 1) / step)).
Proof.
  intros Hs. unfold range.
  destruct (Z.eqb_spec step 0); [lia|].
  destruct (Z.ltb_spec 0 step); [|lia].
  f_equal. rewrite Z.sub_0_r. apply list_fmap_ext. intros; lia.
Qed.

Lemma range_negative (stop step : Z) :
  0 <= stop -> step < 0 -> range 0 stop step = Ok [].
Proof.
  intros Hstop Hs. unfold range.
  destruct (Z.eqb_spec step 0); [lia|].
  destruct (Z.ltb_spec 0 step); [lia|].
  f_equal.
  assert ((0 - stop - step - 1) / - step <= 0) as Hn.
  { apply Z.lt_succ_r. apply Z.div_lt_upper_bound; lia. }
  unfold seqZ. replace (Z.to_nat _) with 0%nat by lia. reflexivity.
Qed.

(** The offsets of a range from 0 with a positive step are the multiples
    of the step below the stop. *)
Lemma elem_of_range_positive (stop step i : Z) :
  0 < step ->
  i ∈ (fun k => k * step) <$> seqZ 0 ((stop + step - 1) / step)
  <-> exists k, 0 <= k /\ i = k * step /\ i < stop.
Proof.
  intros Hs. rewrite list_elem_of_fmap.
  set (n := (stop + step - 1) / step).
  assert (step * n <= stop + step - 1) as Hle by (apply Z.mul_div_le; lia).
  assert (stop + step - 1 < step * (n + 1)) as Hlt.
  { pose proof (Z.mul_succ_div_gt (stop + step - 1) step Hs). lia. }
  split.
  - intros (k & -> & Hk). apply elem_of_seqZ in Hk. exists k.
    split; [lia|]. split; [done|].
    assert (step * (k + 1) <= step * n) by (apply Z.mul_le_mono_nonneg_l; lia).
    lia.
  - intros (k & Hk & -> & Hi). exists k. split; [done|].
    apply elem_of_seqZ. split; [lia|].
    destruct (Z.lt_ge_cases k n) as [|Hge]; [lia|].
    assert (step * n <= step * k) by (apply Z.mul_le_mono_nonneg_l; lia).
    lia.
Qed.

(** ** The order of binary64 numbers *)
Section FloatOrder.
Local Open Scope Z_scope.

Import Spec.

Lemma SFcompare_rank (x y : spec_float) :
  match SFcompare x y with
  | None => rank x = None \/ rank y = None
  | Some c =>
      exists a b, rank x = Some a /\ rank y = Some b
                  /\ match c with
                     | Lt => lt3 a b
                     | Eq => a = b
                     | Gt => lt3 b a
                     end
  end.
Proof.
  destruct x as [[]|[]| |[] m1 e1], y as [[]|[]| |[] m2 e2]; simpl;
    try (by left); try (by right);
    try (eexists _, _; split; [reflexivity|split; [reflexivity|]];
         unfold lt3; simpl; try done; lia).
  - eexists _, _; split; [reflexivity|split; [reflexivity|]].
    rewrite Pos.compare_cont_spec. simpl.
    destruct (Z.compare_spec e1 e2); [|unfold lt3; simpl; lia..].
    destruct (Pos.compare_spec m1 m2); subst; simpl;
      first [reflexivity|unfold lt3; simpl; lia].
  - eexists _, _; split; [reflexivity|split; [reflexivity|]].
    rewrite Pos.compare_cont_spec. simpl.
    destruct (Z.compare_spec e1 e2); [|unfold lt3; simpl; lia..].
    destruct (Pos.compare_spec m1 m2); subst; simpl;
      first [reflexivity|unfold lt3; simpl; lia].
Qed.

Lemma ltb_key (x y : float) :
  (x <? y)%float = true <->
  exists a b, key x = Some a /\ key y = Some b /\ lt3 a b.
Proof.
  rewrite FloatAxioms.ltb_spec. unfold SFltb, key.
  pose proof (SFcompare_rank (Prim2SF x) (Prim2SF y)) as H.
  destruct (SFcompare _ _) as [[]|].
  - destruct H as (a & b & Ha & Hb & ->). split; [done|].
    intros (a' & b' & Ha' & Hb' & Hlt). simplify_eq. unfold lt3 in Hlt; lia.
  - done.
  - destruct H as (a & b & Ha & Hb & Hgt). split; [done|].
    intros (a' & b' & Ha' & Hb' & Hlt). simplify_eq. unfold lt3 in *; lia.
  - split; [done|]. intros (a' & b' & Ha' & Hb' & Hlt).
    destruct H; congruence.
Qed.

Lemma leb_key (x y : float) :
  (x <=? y)%float = true <->
  exists a b, key x = Some a /\ key y = Some b /\ (lt3 a b \/ a = b).
Proof.
  rewrite FloatAxioms.leb_spec. unfold SFleb, key.
  pose proof (SFcompare_rank (Prim2SF x) (Prim2SF y)) as H.
  destruct (SFcompare _ _) as [[]|].
  - destruct H as (a & b & Ha & Hb & ->). split; [eauto 6|done].
  - destruct H as (a & b & Ha & Hb & Hlt). split; [eauto 6|done].
  - destruct H as (a & b & Ha & Hb & Hgt). split; [done|].
    intros (a' & b' & Ha' & Hb' & [Hlt| ->]); simplify_eq; unfold lt3 in *; lia.
  - split; [done|]. intros (a' & b' & Ha' & Hb' & Hlt).
    destruct H; congruence.
Qed.

Lemma is_nan_key (x : float) : is_nan x = true <-> key x = None.
Proof.
  unfold is_nan. rewrite FloatAxioms.eqb_spec. unfold SFeqb, key.
  pose proof (SFcompare_rank (Prim2SF x) (Prim2SF x)) as H.
  destruct (SFcompare _ _) as [[]|]; simpl.
  - destruct H as (a & b & Ha & Hb & ->). split; congruence.
  - destruct H as (a & b & Ha & Hb & Hlt). simplify_eq. unfold lt3 in *; lia.
  - destruct H as (a & b & Ha & Hb & Hlt). simplify_eq. unfold lt3 in *; lia.
  - split; [|done]. intros _. by destruct H.
Qed.

Lemma not_nan_key (x : float) : is_nan x = false <-> exists a, key x = Some a.
Proof.
  pose proof (is_nan_key x) as H.
  destruct (is_nan x), (key x) as [a|]; split; try done; eauto.
  - intros _. by destruct H as [H _]; specialize (H eq_refl).
  - by intros [].
  - intros _. by destruct H as [_ H]; specialize (H eq_refl).
Qed.

(** A comparison with NaN is false. *)
Lemma ltb_nan_l (x y : float) : is_nan x = true -> (x <? y)%float = false.
Proof.
  intros Hx%is_nan_key. apply not_true_iff_false.
  intros (a & b & ? & _)%ltb_key. congruence.
Qed.

Lemma ltb_nan_r (x y : float) : is_nan y = true -> (x <? y)%float = false.
Proof.
  intros Hx%is_nan_key. apply not_true_iff_false.
  intros (a & b & ? & ? & _)%ltb_key. congruence.
Qed.

Lemma leb_nan_l (x y : float) : is_nan x = true -> (x <=? y)%float = false.
Proof.
  intros Hx%is_nan_key. apply not_true_iff_false.
  intros (a & b & ? & _)%leb_key. congruence.
Qed.

Lemma leb_nan_r (x y : float) : is_nan y = true -> (x <=? y)%float = false.
Proof.
  intros Hx%is_nan_key. apply not_true_iff_false.
  intros (a & b & ? & ? & _)%leb_key. congruence.
Qed.

Lemma ltb_not_nan (x y : float) :
  (x <? y)%float = true -> is_nan x = false /\ is_nan y = false.
Proof. intros (a & b & ? & ? & _)%ltb_key. rewrite !not_nan_key. eauto. Qed.

(** Two numbers that are not NaN are comparable: [x < y] fails exactly
    when [y <= x]. *)
Lemma ltb_negb_leb (x y : float) :
  is_nan x = false -> is_nan y = false ->
  (x <? y)%float = negb (y <=? x)%float.
Proof.
  intros [a Ha]%not_nan_key [b Hb]%not_nan_key.
  apply eq_true_iff_eq. rewrite negb_true_iff, <- not_true_iff_false.
  rewrite ltb_key, leb_key. split.
  - intros (a' & b' & ? & ? & Hlt) (b'' & a'' & ? & ? & Hle). simplify_eq.
    destruct Hle as [Hle| ->]; unfold lt3 in *; lia.
  - intros Hn. exists a, b. split; [done|]. split; [done|].
    destruct a as [[a1 a2] a3], b as [[b1 b2] b3].
    assert (~ (lt3 (b1, b2, b3) (a1, a2, a3) \/ (b1, b2, b3) = (a1, a2, a3))) as Hn'.
    { intros H. apply Hn. eauto 6. }
    unfold lt3 in *. simpl in *.
    destruct (decide (a1 = b1)), (decide (a2 = b2)), (decide (a3 = b3));
      subst; try lia; by destruct Hn'; right.
Qed.

Lemma ltb_trans (x y z : float) :
  (x <? y)%float = true -> (y <? z)%float = true -> (x <? z)%float = true.
Proof.
  rewrite !ltb_key.
  intros (a & b & ? & ? & ?) (b' & c & ? & ? & ?). simplify_eq.
  exists a, c. unfold lt3 in *. repeat split; try done. lia.
Qed.

Lemma leb_ltb_trans (x y z : float) :
  (x <=? y)%float = true -> (y <? z)%float = true -> (x <? z)%float = true.
Proof.
  rewrite !ltb_key, leb_key.
  intros (a & b & ? & ? & Hle) (b' & c & ? & ? & ?). simplify_eq.
  exists a, c. destruct Hle as [Hle| ->]; unfold lt3 in *; repeat split; try done; lia.
Qed.

Lemma ltb_leb (x y : float) : (x <? y)%float = true -> (x <=? y)%float = true.
Proof.
  rewrite ltb_key, leb_key. intros (a & b & ? & ? & ?). exists a, b. eauto.
Qed.

Lemma leb_refl (x : float) : is_nan x = false -> (x <=? x)%float = true.
Proof. intros [a Ha]%not_nan_key. apply leb_key. exists a, a. eauto. Qed.

Lemma ltb_irrefl (x : float) : (x <? x)%float = false.
Proof.
  apply not_true_iff_false. intros (a & b & ? & ? & ?)%ltb_key.
  simplify_eq. unfold lt3 in *; lia.
Qed.
End FloatOrder.

(** ** The distance of two binary64 numbers is symmetric *)
Section FloatDistance.

Lemma SFabs_binary_round_aux (s s' : bool) (m e : Z) (l : location) :
  SFabs (binary_round_aux prec emax s m e l)
  = SFabs (binary_round_aux prec emax s' m e l).
Proof.
  unfold binary_round_aux.
  destruct (shr_fexp _ _ _ _ _) as [mrs e1].
  destruct (shr_fexp _ _ _ _ _) as [mrs' e2].
  destruct (shr_m mrs'); try reflexivity.
  by destruct (Z.leb _ _).
Qed.

Lemma SFabs_binary_normalize_opp (m e : Z) :
  SFabs (binary_normalize prec emax (- m) e false)
  = SFabs (binary_normalize prec emax m e false).
Proof.
  destruct m as [|p|p]; simpl; try reflexivity;
    unfold binary_round;
    destruct (shl_align _ _ _); apply SFabs_binary_round_aux.
Qed.

Lemma SFabs_SFsub (x y : spec_float) :
  SFabs (SFsub prec emax x y) = SFabs (SFsub prec emax y x).
Proof.
  destruct x as [[]|[]| |sx mx ex], y as [[]|[]| |sy my ey];
    try reflexivity.
  unfold SFsub. rewrite (Z.min_comm ey ex).
  rewrite <- SFabs_binary_normalize_opp. f_equal. f_equal. lia.
Qed.

Lemma abs_sub_comm (x y : float) : abs (x - y) = abs (y - x).
Proof.
  apply Prim2SF_inj. rewrite !abs_spec, !sub_spec. apply SFabs_SFsub.
Qed.
End FloatDistance.
(** ** Window generation *)

(** Arithmetic goals about the length of a slice. *)
Ltac slice_lia :=
  rewrite ?len_slice; unfold slice_index;
  repeat match goal with
         | |- context [?a <? ?b] => destruct (Z.ltb_spec a b)
         end;
  lia.

Section WindowFacts.
Variable str_to_int : string -> option Z.
Variable str_to_float : string -> option float.

Lemma filter_all {A} (P : A -> Prop) `{!forall x, Decision (P x)} (l : list A) :
  Forall P l -> filter P l = l.
Proof.
  induction 1 as [|x l Hx _ IH]; [done|].
  rewrite filter_cons_True by done. by rewrite IH.
Qed.

(** The loop over the offsets keeps, in order, the offsets whose slice
    has at least 100 bases. *)
Lemma window_loop seq_id sequence size offsets W :
  foldl (window_step seq_id sequence size) W offsets
  = (let kept := filter (fun i => 100 <= len (slice sequence i (i + size))) offsets in
     (W.1 ++ ((fun i => window_id seq_id i (Z.min (i + size) (len sequence))) <$> kept),
      W.2 ++ ((fun i => slice sequence i (i + size)) <$> kept))).
Proof.
  revert W. induction offsets as [|i offsets IH]; intros [ids wins]; simpl.
  - by rewrite !app_nil_r.
  - rewrite IH. unfold window_step. simpl.
    destruct (Z.leb_spec 100 (len (slice sequence i (i + size)))) as [Hi|Hi].
    + rewrite filter_cons_True by done. simpl. by rewrite <- !app_assoc.
    + rewrite filter_cons_False by lia. done.
Qed.

Lemma make_windows_int seq_id sequence size gap :
  make_windows str_to_int str_to_float (seq_id, sequence) (PInt size) (PInt gap)
  = ([], offsets ← range 0 (len sequence) (size + gap);
         Ok (foldl (window_step seq_id sequence size) ([], []) offsets)).
Proof.
  unfold make_windows, try_windows. simpl.
  destruct (range 0 (len sequence) (size + gap)) as [offsets|e] eqn:Hr; simpl; [done|].
  unfold range in Hr. destruct (size + gap =? 0); by inversion Hr.
Qed.

(** Windows of 100 bases without gap: the offsets that are kept. *)
Lemma kept_100 (sequence : list ascii) :
  filter (fun i => 100 <= len (slice sequence i (i + 100)))
    ((fun k => k * 100) <$> seqZ 0 ((len sequence + 100 - 1) / 100))
  = (fun k => k * 100) <$> seqZ 0 (len sequence / 100).
Proof.
  pose proof (len_nonneg sequence) as HL.
  pose proof (Z.div_mod (len sequence) 100 ltac:(lia)) as Hdm.
  pose proof (Z.mod_pos_bound (len sequence) 100 ltac:(lia)) as Hm.
  assert (Hfull : forall k, 0 <= k < len sequence / 100 ->
            len (slice sequence (k * 100) (k * 100 + 100)) = 100).
  { intros k Hk. slice_lia. }
  destruct (Z.eq_dec (len sequence mod 100) 0) as [Hz|Hnz].
  - replace ((len sequence + 100 - 1) / 100) with (len sequence / 100).
    2:{ apply Z.div_unique with (r := 99); lia. }
    apply filter_all, Forall_forall. intros i (k & -> & Hk)%list_elem_of_fmap.
    apply elem_of_seqZ in Hk. rewrite Hfull; lia.
  - replace ((len sequence + 100 - 1) / 100) with (len sequence / 100 + 1).
    2:{ apply Z.div_unique with (r := len sequence mod 100 - 1); lia. }
    rewrite seqZ_app by (try apply Z.div_pos; lia).
    rewrite fmap_app, filter_app. simpl.
    rewrite filter_all.
    2:{ apply Forall_forall. intros i (k & -> & Hk)%list_elem_of_fmap.
        apply elem_of_seqZ in Hk. rewrite Hfull; lia. }
    rewrite filter_cons_False, filter_nil, app_nil_r; [done|].
    simpl. slice_lia.
Qed.

Lemma concat_full_windows (sequence : list ascii) (n : nat) :
  (100 * n <= length sequence)%nat ->
  concat ((fun k => slice sequence (k * 100) (k * 100 + 100)) <$> seqZ 0 (Z.of_nat n))
  = take (100 * n)%nat sequence.
Proof.
  induction n as [|n IH]; intros Hn.
  - by rewrite Nat.mul_0_r, take_0.
  - rewrite seqZ_S, fmap_app, concat_app, IH by lia. simpl.
    rewrite app_nil_r, slice_inside by (unfold len; lia).
    replace (Z.to_nat (_ + 100 - _)) with 100%nat by lia.
    replace (Z.to_nat (_ * 100)) with (100 * n)%nat by lia.
    rewrite take_take_drop. f_equal. lia.
Qed.
End WindowFacts.

Section WindowTheorems.
Variable str_to_int : string -> option Z.
Variable str_to_float : string -> option float.

(** C4.  With absolute lengths and a positive stride [size + gap],
    [make_windows] visits the offsets 0, stride, 2 * stride, ... below
    the length of the sequence, in this order, and keeps an offset
    exactly when the slice cut there has at least 100 bases; the window
    is that slice itself, so the trailing window is what is left of the
    sequence and is never padded.  With windows of 100 bases and no gap
    every window kept has exactly 100 bases, there are [L / 100] of them,
    they make up the first [100 * (L / 100)] bases, and the slice at the
    last offset, of [L mod 100] bases, is left out.  A stride of 0 is
    refused by [range] and a negative stride visits no offset. *)
Theorem make_windows_stride (seq_id : string) (sequence : list ascii) :
  (forall size gap : Z, 0 < size + gap ->
     let offsets :=
       (fun k => k * (size + gap))
         <$> seqZ 0 ((len sequence + (size + gap) - 1) / (size + gap)) in
     let kept :=
       filter (fun i => 100 <= len (slice sequence i (i + size))) offsets in
     make_windows str_to_int str_to_float (seq_id, sequence) (PInt size) (PInt gap)
     = ([], Ok ((fun i => window_id seq_id i (Z.min (i + size) (len sequence))) <$> kept,
                (fun i => slice sequence i (i + size)) <$> kept))
     /\ (forall i, i ∈ offsets <->
           exists k, 0 <= k /\ i = k * (size + gap) /\ i < len sequence)
     /\ (forall i, i ∈ kept <->
           i ∈ offsets /\ 100 <= len (slice sequence i (i + size)))
     /\ (forall i, i ∈ offsets -> len sequence <= i + size ->
           slice sequence i (i + size) = drop (Z.to_nat i) sequence))
  /\ (forall size gap : Z, size + gap = 0 ->
        make_windows str_to_int str_to_float (seq_id, sequence) (PInt size) (PInt gap)
        = ([], Raise ValueError))
  /\ (forall size gap : Z, size + gap < 0 ->
        make_windows str_to_int str_to_float (seq_id, sequence) (PInt size) (PInt gap)
        = ([], Ok ([], [])))
  /\ (exists ids wins,
        make_windows str_to_int str_to_float (seq_id, sequence) (PInt 100) (PInt 0)
        = ([], Ok (ids, wins))
        /\ Forall (fun w => len w = 100) wins
        /\ len wins = len sequence / 100
        /\ len ids = len sequence / 100
        /\ concat wins = take (Z.to_nat (100 * (len sequence / 100))) sequence
        /\ len (slice sequence (100 * (len sequence / 100))
                  (100 * (len sequence / 100) + 100))
           = len sequence mod 100).
Proof.
  pose proof (len_nonneg sequence) as HL.
  split; [|split; [|split]].
  - intros size gap Hstride offsets kept.
    split; [|split; [|split]].
    + rewrite make_windows_int, range_positive by done. simpl.
      by rewrite window_loop.
    + intros i. by apply elem_of_range_positive.
    + intros i. subst kept. by rewrite list_elem_of_filter, (comm and).
    + intros i (k & Hk & -> & Hi)%elem_of_range_positive Hend; [|done].
      apply slice_clipped; nia.
  - intros size gap Hstride. rewrite make_windows_int. unfold range.
    by rewrite Hstride.
  - intros size gap Hstride. by rewrite make_windows_int, range_negative.
  - pose proof (Z.div_mod (len sequence) 100 ltac:(lia)) as Hdm.
    pose proof (Z.mod_pos_bound (len sequence) 100 ltac:(lia)) as Hm.
    eexists _, _. split; [|split; [|split; [|split; [|split]]]].
    + rewrite make_windows_int, range_positive by lia. simpl.
      rewrite window_loop. simpl. rewrite kept_100. reflexivity.
    + apply Forall_fmap, Forall_forall.
      intros i (k & -> & Hk)%list_elem_of_fmap. apply elem_of_seqZ in Hk.
      simpl. slice_lia.
    + unfold len at 1. rewrite !length_fmap, length_seqZ. lia.
    + unfold len at 1. rewrite !length_fmap, length_seqZ. lia.
    + rewrite <- list_fmap_compose.
      replace (len sequence / 100) with (Z.of_nat (Z.to_nat (len sequence / 100))) at 1 by lia.
      erewrite list_fmap_ext; [rewrite concat_full_windows|].
      * f_equal. lia.
      * unfold len in *. lia.
      * intros j k _. simpl. reflexivity.
    + slice_lia.
Qed.
End WindowTheorems.

Section ProportionalLengths.
Variable str_to_int : string -> option Z.
Variable str_to_float : string -> option float.

(** A float window size counts as the integer it converts to on the
    current sequence, whatever the gap is. *)
Lemma proportional_size seq_id sequence f n other :
  int_of_float (f * float_of_int (len sequence)) = Ok n ->
  make_windows str_to_int str_to_float (seq_id, sequence) (PFloat f) other
  = make_windows str_to_int str_to_float (seq_id, sequence) (PInt n) other.
Proof.
  intros Hn. unfold make_windows. simpl.
  destruct (check_arg _ _ other) as [[s|g|g|g|]|e]; try reflexivity;
    unfold try_windows; simpl; rewrite Hn; reflexivity.
Qed.

(** The same for a float gap, whatever the window size is. *)
Lemma proportional_gap seq_id sequence f n other :
  int_of_float (f * float_of_int (len sequence)) = Ok n ->
  make_windows str_to_int str_to_float (seq_id, sequence) other (PFloat f)
  = make_windows str_to_int str_to_float (seq_id, sequence) other (PInt n).
Proof.
  intros Hn. unfold make_windows. simpl.
  destruct (check_arg _ _ other) as [[s|g|g|g|]|e]; try reflexivity;
    unfold try_windows; simpl; rewrite Hn; reflexivity.
Qed.

(** With absolute lengths the windows are those cut at the offsets
    that are kept. *)
Lemma make_windows_kept seq_id sequence size gap :
  make_windows str_to_int str_to_float (seq_id, sequence) (PInt size) (PInt gap)
  = ([], if size + gap =? 0 then Raise ValueError
         else Ok ((fun i => window_id seq_id i (Z.min (i + size) (len sequence)))
                    <$> Spec.kept_offsets sequence size (size + gap),
                  (fun i => slice sequence i (i + size))
                    <$> Spec.kept_offsets sequence size (size + gap))).
Proof.
  rewrite make_windows_int. f_equal.
  unfold Spec.kept_offsets, Spec.stride_offsets.
  destruct (Z.eqb_spec (size + gap) 0) as [H0|H0].
  - unfold range. by rewrite H0.
  - destruct (Z.ltb_spec 0 (size + gap)) as [Hs|Hs].
    + rewrite range_positive by done. cbn [mbind res_bind].
      by rewrite window_loop.
    + rewrite range_negative by (try apply len_nonneg; lia). reflexivity.
Qed.

(** The two windows of a sequence cut in halves. *)
Lemma make_windows_halves seq_id sequence (n : Z) :
  100 <= n -> len sequence = 2 * n ->
  make_windows str_to_int str_to_float (seq_id, sequence) (PInt n) (PInt 0)
  = ([], Ok ([window_id seq_id 0 n; window_id seq_id n (2 * n)],
             [take (Z.to_nat n) sequence; drop (Z.to_nat n) sequence])).
Proof.
  intros Hn HL. rewrite make_windows_int, Z.add_0_r, range_positive by lia.
  replace ((len sequence + n - 1) / n) with 2
    by (apply Z.div_unique with (r := n - 1); lia).
  cbn [mbind res_bind]. rewrite window_loop.
  change (seqZ 0 2) with [0; 1]. cbn [fmap list_fmap].
  rewrite Z.mul_0_l, Z.mul_1_l.
  assert (slice sequence 0 (0 + n) = take (Z.to_nat n) sequence) as H0.
  { rewrite slice_inside by lia. f_equal. lia. }
  assert (slice sequence n (n + n) = drop (Z.to_nat n) sequence) as H1.
  { apply slice_clipped; lia. }
  assert (len (take (Z.to_nat n) sequence) = n) as L0.
  { unfold len in *. rewrite length_take. lia. }
  assert (len (drop (Z.to_nat n) sequence) = n) as L1.
  { unfold len in *. rewrite length_drop. lia. }
  rewrite filter_cons_True by (rewrite H0, L0; lia).
  rewrite filter_cons_True by (rewrite H1, L1; lia).
  rewrite filter_nil. cbn [fst snd app fmap list_fmap]. rewrite H0, H1.
  repeat f_equal; lia.
Qed.

(** C5.  A proportional window size or gap is turned into an absolute
    length with the length of the sequence at hand, before the offsets
    are computed, and the windows are cut with that length:
    [make_windows] behaves as it does on the absolute length, its stride
    is the sum of the two absolute lengths, and the window at an offset
    that is kept is the slice of the absolute window size there.  The
    proportion 0.5 is 500 bases on a sequence of 1000 bases, cut into its
    two halves of 500 bases, and 1000 bases on a sequence of 2000 bases,
    cut into its two halves of 1000 bases. *)
Theorem make_windows_proportional (seq_id : string) (sequence : list ascii) :
  (forall (f : float) (n : Z) (other : pyval),
     int_of_float (f * float_of_int (len sequence)) = Ok n ->
     make_windows str_to_int str_to_float (seq_id, sequence) (PFloat f) other
     = make_windows str_to_int str_to_float (seq_id, sequence) (PInt n) other
     /\ make_windows str_to_int str_to_float (seq_id, sequence) other (PFloat f)
        = make_windows str_to_int str_to_float (seq_id, sequence) other (PInt n))
  /\ (forall (window_size window_gap : pyval) (size gap : Z),
        Spec.absolute (len sequence) window_size size ->
        Spec.absolute (len sequence) window_gap gap ->
        make_windows str_to_int str_to_float (seq_id, sequence)
          window_size window_gap
        = ([], if size + gap =? 0 then Raise ValueError
               else Ok ((fun i => window_id seq_id i
                                    (Z.min (i + size) (len sequence)))
                          <$> Spec.kept_offsets sequence size (size + gap),
                        (fun i => slice sequence i (i + size))
                          <$> Spec.kept_offsets sequence size (size + gap)))
        /\ (forall i,
              i ∈ Spec.kept_offsets sequence size (size + gap) ->
              0 <= size -> i + size <= len sequence ->
              len (slice sequence i (i + size)) = size))
  /\ (len sequence = 1000 ->
      absolute_lengths (len sequence) (PFloat 0.5) (PInt 0) = Ok (500, 0)
      /\ (forall other,
            make_windows str_to_int str_to_float (seq_id, sequence) (PFloat 0.5) other
            = make_windows str_to_int str_to_float (seq_id, sequence) (PInt 500) other)
      /\ make_windows str_to_int str_to_float (seq_id, sequence)
           (PFloat 0.5) (PInt 0)
         = ([], Ok ([window_id seq_id 0 500; window_id seq_id 500 1000],
                    [take 500 sequence; drop 500 sequence]))
      /\ len (take 500 sequence) = 500 /\ len (drop 500 sequence) = 500)
  /\ (len sequence = 2000 ->
      absolute_lengths (len sequence) (PFloat 0.5) (PInt 0) = Ok (1000, 0)
      /\ (forall other,
            make_windows str_to_int str_to_float (seq_id, sequence) (PFloat 0.5) other
            = make_windows str_to_int str_to_float (seq_id, sequence) (PInt 1000) other)
      /\ make_windows str_to_int str_to_float (seq_id, sequence)
           (PFloat 0.5) (PInt 0)
         = ([], Ok ([window_id seq_id 0 1000; window_id seq_id 1000 2000],
                    [take 1000 sequence; drop 1000 sequence]))
      /\ len (take 1000 sequence) = 1000 /\ len (drop 1000 sequence) = 1000).
Proof.
  split; [|split; [|split]].
  - intros f n other Hn. split.
    + by apply proportional_size.
    + by apply proportional_gap.
  - intros window_size window_gap size gap Hsize Hgap. split.
    + rewrite <- make_windows_kept.
      destruct window_size as [| m | | f |], window_gap as [| m' | | f' |];
        cbn in Hsize, Hgap; try done; subst.
      * reflexivity.
      * by apply proportional_gap.
      * by apply proportional_size.
      * rewrite (proportional_size _ _ f size) by done.
        by apply proportional_gap.
    + intros i [_ Hi]%list_elem_of_filter Hs Hend.
      unfold Spec.stride_offsets in Hi.
      destruct (Z.ltb_spec 0 (size + gap)) as [Hstride|Hstride];
        [|by apply elem_of_nil in Hi].
      apply list_elem_of_fmap in Hi as (k & -> & Hk%elem_of_seqZ).
      assert (0 <= k * (size + gap)) as Hi by nia.
      rewrite len_slice. unfold slice_index.
      repeat match goal with
             | |- context [?a <? ?b] => destruct (Z.ltb_spec a b)
             end; lia.
  - intros HL.
    assert (int_of_float (0.5 * float_of_int (len sequence)) = Ok 500) as Hn
      by (rewrite HL; vm_compute; reflexivity).
    split; [rewrite HL; vm_compute; reflexivity|].
    split; [intros other; by apply proportional_size|].
    split.
    + rewrite (proportional_size _ _ _ 500) by done.
      apply (make_windows_halves seq_id sequence 500); lia.
    + unfold len in *. rewrite length_take, length_drop. lia.
  - intros HL.
    assert (int_of_float (0.5 * float_of_int (len sequence)) = Ok 1000) as Hn
      by (rewrite HL; vm_compute; reflexivity).
    split; [rewrite HL; vm_compute; reflexivity|].
    split; [intros other; by apply proportional_size|].
    split.
    + rewrite (proportional_size _ _ _ 1000) by done.
      apply (make_windows_halves seq_id sequence 1000); lia.
    + unfold len in *. rewrite length_take, length_drop. lia.
Qed.
End ProportionalLengths.

(** The windows of a sequence of 1000 bases and of one of 2000 bases for
    the proportion 0.5. *)
Example windows_half_1000 :
  make_windows Ref.str_to_int Ref.str_to_float
    ("s", replicate 1000 "A"%char) (PFloat 0.5) (PInt 0)
  = ([], Ok (["s:0to500"; "s:500to1000"],
             [replicate 500 "A"%char; replicate 500 "A"%char])).
Proof. vm_compute. reflexivity. Qed.

Example windows_half_2000 :
  make_windows Ref.str_to_int Ref.str_to_float
    ("s", replicate 2000 "A"%char) (PStr "0.5") (PStr "0")
  = ([], Ok (["s:0to1000"; "s:1000to2000"],
             [replicate 1000 "A"%char; replicate 1000 "A"%char])).
Proof. vm_compute. reflexivity. Qed.

Section TypeErrors.
Variable str_to_int : string -> option Z.
Variable str_to_float : string -> option float.
Variable iteritems : forall V : Type, gmap string V -> list (string * V).

(** A value that is no [str], [int] or [float] fails the check. *)
Lemma check_arg_unsupported v :
  is_str v = false -> is_int v = false -> is_float v = false ->
  check_arg str_to_int str_to_float v = Raise TypeError.
Proof. by destruct v. Qed.

(** The check lets through an [int], a [float], and a string that
    [type_convert] converts. *)
Lemma check_arg_passes v v' :
  check_arg str_to_int str_to_float v = Ok v' <->
  (is_int v = true /\ v' = v) \/ (is_float v = true /\ v' = v)
  \/ (exists s, v = PStr s /\ type_convert str_to_int str_to_float s = Ok v').
Proof.
  destruct v as [s|n|n|f|]; unfold check_arg; simpl; split;
    try (intros [= <-]; by eauto);
    try (intros [[? ?]|[[? ?]|(? & ? & ?)]]; by simplify_eq);
    try discriminate.
Qed.

(** An exception of [make_windows] leaves [write_windows] on the first
    scaffold. *)
Lemma write_windows_raises seq_id sequence rest ws wg links_file out e :
  make_windows str_to_int str_to_float (seq_id, sequence) ws wg = (out, Raise e) ->
  write_windows str_to_int str_to_float iteritems
    ((seq_id, sequence) :: rest) ws wg links_file = (out, Raise e).
Proof. intros H. unfold write_windows. cbn [read_windows]. by rewrite H. Qed.

(** C9, as the code has it.  A window size that is no [str], [int] or
    [float] makes [make_windows] raise [TypeError], and so does such a
    gap when the window size is an [int], a [float] or a string that
    [type_convert] converts; a window size string that does not convert
    raises the [ValueError] of [type_convert] before the gap is looked
    at.  The exception leaves [write_windows] at the first scaffold, so
    the run ends there. *)
Theorem make_windows_unsupported_type (seq_id : string) (sequence : list ascii) :
  (forall ws wg,
     is_str ws = false -> is_int ws = false -> is_float ws = false ->
     make_windows str_to_int str_to_float (seq_id, sequence) ws wg
     = ([], Raise TypeError))
  /\ (forall ws wg,
        is_str wg = false -> is_int wg = false -> is_float wg = false ->
        is_int ws = true \/ is_float ws = true
        \/ (exists s v, ws = PStr s
                        /\ type_convert str_to_int str_to_float s = Ok v) ->
        make_windows str_to_int str_to_float (seq_id, sequence) ws wg
        = ([], Raise TypeError))
  /\ (forall s wg,
        str_to_int s = None -> str_to_float s = None ->
        make_windows str_to_int str_to_float (seq_id, sequence) (PStr s) wg
        = ([], Raise ValueError))
  /\ (forall ws wg rest links_file out e,
        make_windows str_to_int str_to_float (seq_id, sequence) ws wg
        = (out, Raise e) ->
        write_windows str_to_int str_to_float iteritems
          ((seq_id, sequence) :: rest) ws wg links_file = (out, Raise e)).
Proof.
  split; [|split; [|split]].
  - intros ws wg H1 H2 H3. unfold make_windows.
    by rewrite check_arg_unsupported.
  - intros ws wg H1 H2 H3 Hws.
    assert (exists ws', check_arg str_to_int str_to_float ws = Ok ws') as [ws' Hws'].
    { destruct Hws as [?|[?|(s & v & ? & ?)]];
        [exists ws|exists ws|exists v]; apply check_arg_passes; eauto 6. }
    unfold make_windows. by rewrite Hws', check_arg_unsupported.
  - intros s wg Hi Hf. unfold make_windows, check_arg, type_convert. simpl.
    by rewrite Hi, Hf.
  - intros. by apply write_windows_raises.
Qed.
End TypeErrors.

(** C9 as stated fails: with a window size string that is no number, a
    gap of an unsupported type raises [ValueError], not [TypeError]. *)
Lemma make_windows_gap_not_type_error :
  is_str PNone = false /\ is_int PNone = false /\ is_float PNone = false
  /\ make_windows Ref.str_to_int Ref.str_to_float
       ("s", replicate 250 "A"%char) (PStr "abc") PNone
     = ([], Raise ValueError)
  /\ write_windows Ref.str_to_int Ref.str_to_float Ref.iteritems
       [("s", replicate 250 "A"%char)] (PStr "abc") PNone None
     = ([], Raise ValueError).
Proof. vm_compute. repeat split. Qed.

(** ** Links between windows *)
Section DecodeFacts.
Import Spec.

Lemma append_nil_l (s : string) : "" +:+ s = s.
Proof. reflexivity. Qed.

Lemma append_cons (c : ascii) (s t : string) :
  String c s +:+ t = String c (s +:+ t).
Proof. reflexivity. Qed.

Lemma parent_id_app (s1 s2 : string) :
  parent_id (s1 +:+ s2)
  = match parent_id s2 with
    | Some p => Some (s1 +:+ p)
    | None => parent_id s1
    end.
Proof.
  induction s1 as [|c s1 IH].
  - rewrite append_nil_l. by destruct (parent_id s2).
  - rewrite append_cons. simpl. rewrite IH. by destruct (parent_id s2).
Qed.

Lemma parent_id_uint (d : Decimal.uint) :
  parent_id (NilEmpty.string_of_uint d) = None.
Proof. induction d; simpl; by rewrite ?IHd. Qed.

Lemma parent_id_str_of_int (n : Z) : parent_id (str_of_int n) = None.
Proof.
  unfold str_of_int, NilZero.string_of_int, NilZero.string_of_uint.
  destruct (Z.to_int n) as [d|d]; simpl.
  - destruct d; simpl; by rewrite ?parent_id_uint.
  - destruct d; simpl; by rewrite ?parent_id_uint.
Qed.

(** A window id decodes to the scaffold it was cut from. *)
Lemma parent_id_window_id (seq_id : string) (i j : Z) :
  parent_id (window_id seq_id i j) = Some seq_id.
Proof.
  unfold window_id.
  rewrite parent_id_app.
  replace (parent_id (":" +:+ str_of_int i +:+ "to" +:+ str_of_int j))
    with (Some EmptyString).
  - f_equal. induction seq_id as [|c s IH]; [done|].
    rewrite append_cons. by rewrite IH.
  - change (":" +:+ ?s) with (String ":" s). simpl.
    by rewrite !parent_id_app, !parent_id_str_of_int.
Qed.
End DecodeFacts.

Section LinkFacts.
Import Spec.
Variable str_to_int : string -> option Z.
Variable str_to_float : string -> option float.
Variable iteritems : forall V : Type, gmap string V -> list (string * V).
Hypothesis iteritems_perm :
  forall (V : Type) (d : gmap string V), iteritems V d ≡ₚ map_to_list d.

(** The lines of a scaffold pair each window id with its successor. *)
Lemma link_lines_zip (windows : list string) :
  link_lines windows = zip_with link_line windows (tail windows).
Proof.
  induction windows as [|a [|b t] IH]; [done..|].
  unfold link_lines in *.
  replace (length (a :: b :: t) - 1)%nat with (S (length (b :: t) - 1)) by (simpl; lia).
  cbn [seq]. rewrite bind_cons, <- fmap_S_seq, list_fmap_bind.
  cbn [tail] in *.
  change (zip_with link_line (a :: b :: t) (b :: t))
    with (link_line a b :: zip_with link_line (b :: t) t).
  rewrite <- IH. reflexivity.
Qed.

Lemma link_lines_lookup (windows : list string) (i : nat) :
  link_lines windows !! i
  = (a ← windows !! i; b ← windows !! S i; Some (link_line a b)).
Proof.
  rewrite link_lines_zip, lookup_zip_with, lookup_tail. reflexivity.
Qed.

Lemma length_link_lines (windows : list string) :
  length (link_lines windows) = (length windows - 1)%nat.
Proof.
  rewrite link_lines_zip, length_zip_with.
  destruct windows; cbn [tail length]; lia.
Qed.

Lemma elem_of_link_lines (windows : list string) (line : string) :
  line ∈ link_lines windows <->
  exists i a b, windows !! i = Some a /\ windows !! S i = Some b
                /\ line = link_line a b.
Proof.
  rewrite list_elem_of_lookup. setoid_rewrite link_lines_lookup. split.
  - intros (i & Hi). exists i.
    destruct (windows !! i) as [a|]; [|done].
    destruct (windows !! S i) as [b|]; [|done].
    simpl in Hi. exists a, b. by simplify_eq.
  - intros (i & a & b & Ha & Hb & ->). exists i. by rewrite Ha, Hb.
Qed.

(** The ids [make_windows] returns decode to the scaffold. *)
Lemma make_windows_parent seq_id sequence ws wg out ids wins :
  make_windows str_to_int str_to_float (seq_id, sequence) ws wg
  = (out, Ok (ids, wins)) ->
  Forall (fun w => parent_id w = Some seq_id) ids.
Proof.
  unfold make_windows.
  destruct (check_arg _ _ ws) as [ws'|]; [|done].
  destruct (check_arg _ _ wg) as [wg'|]; [|done].
  unfold try_windows.
  destruct (absolute_lengths _ _ _) as [[size gap]|[]]; simpl; try done.
  destruct (range _ _ _) as [offsets|[]]; simpl; try done.
  rewrite window_loop. simpl. intros [= _ <- _].
  apply Forall_fmap, Forall_forall. intros i _. apply parent_id_window_id.
Qed.

(** Each entry of the dictionary [write_windows] fills maps a scaffold
    to window ids that decode to it. *)
Lemma read_windows_parent seqs ws wg seq_win_id window_dict out d wd :
  map_Forall (fun k ids => Forall (fun w => parent_id w = Some k) ids) seq_win_id ->
  read_windows str_to_int str_to_float seqs ws wg seq_win_id window_dict
  = (out, Ok (d, wd)) ->
  map_Forall (fun k ids => Forall (fun w => parent_id w = Some k) ids) d.
Proof.
  revert seq_win_id window_dict out.
  induction seqs as [|[seq_id sequence] seqs IH]; intros swi wdict out Hinv.
  - simpl. by intros [= _ <- _].
  - cbn [read_windows].
    destruct (make_windows _ _ _ ws wg) as [o [[ids wins]|e]] eqn:Hmw; [|done].
    destruct (read_windows _ _ seqs _ _ _ _) as [o' r] eqn:Hrest.
    intros [= _ ->]. eapply IH; [|exact Hrest].
    apply map_Forall_insert_2; [|done]. simpl.
    by eapply make_windows_parent.
Qed.

Lemma elem_of_iteritems {V} (d : gmap string V) (k : string) (v : V) :
  (k, v) ∈ iteritems V d <-> d !! k = Some v.
Proof. by rewrite iteritems_perm, elem_of_map_to_list. Qed.
End LinkFacts.

Section LinkTheorems.
Import Spec.
Variable str_to_int : string -> option Z.
Variable str_to_float : string -> option float.
Variable iteritems : forall V : Type, gmap string V -> list (string * V).

(** C7.  [write_links] appends, scaffold after scaffold, one line per
    pair of consecutive window ids of that scaffold's list, in the order
    of the list: line [i] of a scaffold holds its window ids [i] and
    [i + 1], tab-separated; a line never pairs ids of two scaffolds.  In
    the links written by [write_windows] the two window ids of every
    line decode to the same parent scaffold. *)
Theorem write_links_consecutive :
  (forall (V : Type) (d : gmap string V), iteritems V d ≡ₚ map_to_list d) ->
  (forall (Windows : gmap string (list string)) links_file,
     (write_links iteritems Windows links_file).2
     = default [] links_file
         ++ (iteritems _ Windows ≫= fun sw => link_lines sw.2))
  /\ (forall windows i,
        link_lines windows !! i
        = (a ← windows !! i; b ← windows !! S i; Some (link_line a b)))
  /\ (forall (Windows : gmap string (list string)) line,
        line ∈ (iteritems _ Windows ≫= fun sw => link_lines sw.2) <->
        exists scaffold windows i a b,
          Windows !! scaffold = Some windows
          /\ windows !! i = Some a /\ windows !! S i = Some b
          /\ line = link_line a b)
  /\ (forall seqs ws wg links_file out wd links,
        write_windows str_to_int str_to_float iteritems seqs ws wg links_file
        = (out, Ok (wd, links)) ->
        exists emitted,
          links = default [] links_file ++ emitted
          /\ forall line, line ∈ emitted ->
               exists seq_id a b,
                 line = link_line a b
                 /\ parent_id a = Some seq_id /\ parent_id b = Some seq_id).
Proof.
  intros Hperm.
  assert (Hlines : forall (Windows : gmap string (list string)) line,
            line ∈ (iteritems _ Windows ≫= fun sw => link_lines sw.2) <->
            exists scaffold windows i a b,
              Windows !! scaffold = Some windows
              /\ windows !! i = Some a /\ windows !! S i = Some b
              /\ line = link_line a b).
  { intros Windows line. rewrite list_elem_of_bind. split.
    - intros ([scaffold windows] & Hline & Hin). simpl in Hline.
      apply elem_of_link_lines in Hline as (i & a & b & ? & ? & ?).
      apply (elem_of_iteritems _ Hperm) in Hin. by exists scaffold, windows, i, a, b.
    - intros (scaffold & windows & i & a & b & Hin & Ha & Hb & ->).
      exists (scaffold, windows). split.
      + apply elem_of_link_lines. by exists i, a, b.
      + by apply (elem_of_iteritems _ Hperm). }
  split; [|split; [|split]].
  - intros Windows [content|]; reflexivity.
  - apply link_lines_lookup.
  - exact Hlines.
  - intros seqs ws wg links_file out wd links. unfold write_windows.
    destruct (read_windows _ _ seqs ws wg ∅ ∅) as [o [[d wd']|e]] eqn:Hread; [|done].
    destruct (write_links iteritems d links_file) as [o' l] eqn:Hw.
    intros [= _ _ <-].
    exists (iteritems _ d ≫= fun sw => link_lines sw.2). split.
    + destruct links_file; unfold write_links in Hw; simpl in Hw; by simplify_eq.
    + intros line (scaffold & windows & i & a & b & Hin & Ha & Hb & ->)%Hlines.
      eapply read_windows_parent in Hread; [|apply map_Forall_empty].
      specialize (Hread scaffold windows Hin). simpl in Hread.
      rewrite Forall_lookup in Hread.
      exists scaffold, a, b. eauto.
Qed.
End LinkTheorems.

(** The links of two scaffolds of 350 and 250 bases, cut into windows of
    100 bases. *)
Lemma write_links_consecutive_witness :
  exists emitted,
    ["s:0to100" +:+ TAB +:+ "s:100to200" +:+ NL;
     "s:100to200" +:+ TAB +:+ "s:200to300" +:+ NL;
     "t:0to100" +:+ TAB +:+ "t:100to200" +:+ NL]
    = default [] None ++ emitted
    /\ forall line, line ∈ emitted ->
         exists seq_id a b,
           line = link_line a b
           /\ Spec.parent_id a = Some seq_id /\ Spec.parent_id b = Some seq_id.
Proof.
  eapply (write_links_consecutive Ref.str_to_int Ref.str_to_float Ref.iteritems
            (fun V d => reflexivity (map_to_list d)))
    with (seqs := [("s", replicate 350 "A"%char); ("t", replicate 250 "A"%char)])
         (ws := PInt 100) (wg := PInt 0) (links_file := None) (out := ["5"]).
  vm_compute. reflexivity.
Defined.

(** ** Outliers: the decision for one scaffold *)
Section IdentifyFacts.
Import Outliers Spec.
Variable manhattan : list float -> list float -> float.
Variable pearsonr : list float -> list float -> float * float.
Variable np_mean : list float -> float.

(** The outlying distributions, signal by signal. *)
Lemma identify_dists_flags gs stats lo hi tdb cov_corr cov_perc :
  (identify_dists manhattan pearsonr np_mean gs stats lo hi tdb cov_corr cov_perc).1.1
  = flag ((delta_gc stats gs <? lo) || (hi <? delta_gc stats gs))%float "GC"
    ++ flag (tdb <? delta_td manhattan stats gs)%float "TD"
    ++ flag ((1 <? len (mean_coverage gs))
             && ((pearsonr (mean_coverage gs) (coverage stats)).1 <? cov_corr)%float)
         "COV_CORR"
    ++ flag ((len (identify_cp gs stats) =? 0)
             || (cov_perc <? np_mean (identify_cp gs stats))%float)
         "COV_PERC".
Proof.
  unfold identify_dists.
  destruct (_ || _); destruct (tdb <? _)%float;
    destruct (1 <? _); destruct (_ <? cov_corr)%float;
    destruct (_ =? 0); destruct (cov_perc <? _)%float; reflexivity.
Qed.

Lemma compatible_dists_flags gs ss lo hi tdb cov_corr cov_perc :
  (compatible_dists manhattan pearsonr np_mean gs ss lo hi tdb cov_corr cov_perc).1.1
  = flag ((lo <=? delta_gc ss gs) && (delta_gc ss gs <=? hi))%float "GC"
    ++ flag (delta_td manhattan ss gs <=? tdb)%float "TD"
    ++ flag ((1 <? len (mean_coverage gs))
             && (cov_corr <=? (pearsonr (mean_coverage gs) (coverage ss)).1)%float)
         "COV_CORR"
    ++ flag (np_mean (compatible_cp gs ss) <=? cov_perc)%float "COV_PERC".
Proof.
  unfold compatible_dists.
  destruct (_ && _); destruct (_ <=? tdb)%float;
    destruct (1 <? _); destruct (cov_corr <=? _)%float;
    destruct (_ <=? cov_perc)%float; reflexivity.
Qed.

(** A list put together from the four flags names as many signals as
    there are flags set, each once. *)
Lemma flagged_count_flags (b1 b2 b3 b4 : bool) :
  let dists := flag b1 "GC" ++ flag b2 "TD" ++ flag b3 "COV_CORR"
                 ++ flag b4 "COV_PERC" in
  flagged_count dists = len dists
  /\ NoDup dists
  /\ ("GC" ∈ dists <-> b1 = true) /\ ("TD" ∈ dists <-> b2 = true)
  /\ ("COV_CORR" ∈ dists <-> b3 = true) /\ ("COV_PERC" ∈ dists <-> b4 = true).
Proof.
  assert (forall (P : Prop) (dec : Decision P) (b : bool),
            bool_decide P = b -> P <-> b = true) as by_compute.
  { intros P dec b <-. symmetry. apply bool_decide_eq_true. }
  destruct b1, b2, b3, b4; simpl;
    (split; [vm_compute; reflexivity|]);
    (split; [refine (bool_decide_unpack _ _); vm_compute; exact I|]);
    repeat split; apply (by_compute _ _); vm_compute; reflexivity.
Qed.

Lemma reported_iff report_type dists :
  reported report_type dists = true <->
  (report_type = "any" /\ 1 <= len dists)
  \/ (report_type = "all" /\ 3 <= len dists).
Proof.
  unfold reported.
  rewrite orb_true_iff, !andb_true_iff, !bool_decide_eq_true, !Z.leb_le.
  reflexivity.
Qed.
End IdentifyFacts.

(** ** Outliers: the loops of [identify] *)
Section LoopFacts.
Context {A B : Type} (body : A -> list B -> list B * res ()).
Hypothesis body_appends :
  forall a s, body a s = (s ++ (body a []).1, (body a []).2).

(** A loop whose body only appends only appends. *)
Lemma for_each_appends (l : list A) (s : list B) :
  for_each body l s
  = (s ++ (for_each body l []).1, (for_each body l []).2).
Proof.
  revert s. induction l as [|a l IH]; intros s; simpl.
  - by rewrite app_nil_r.
  - rewrite (body_appends a s).
    destruct (body a []) as [o [[]|e]]; simpl; [|done].
    rewrite (IH (s ++ o)), (IH o). simpl. by rewrite app_assoc.
Qed.

(** A loop that ends has run its body on every item, in order. *)
Lemma for_each_ok (l : list A) (s s' : list B) :
  for_each body l s = (s', Ok ()) ->
  s' = s ++ concat ((fun a => (body a []).1) <$> l)
  /\ Forall (fun a => (body a []).2 = Ok ()) l.
Proof.
  revert s s'. induction l as [|a l IH]; intros s s'; simpl.
  - intros [= <-]. by rewrite app_nil_r.
  - rewrite (body_appends a s).
    destruct (body a []) as [o [[]|e]] eqn:Hb; simpl; [|done].
    intros [-> Hl]%IH. split.
    + by rewrite <- app_assoc.
    + constructor; [by rewrite Hb|done].
Qed.
End LoopFacts.

Lemma elem_of_concat {A} (x : A) (ls : list (list A)) :
  x ∈ concat ls <-> exists l, x ∈ l /\ l ∈ ls.
Proof.
  rewrite list_elem_of_In, in_concat. split.
  - intros (l & Hl & Hx). exists l. by rewrite !list_elem_of_In.
  - intros (l & Hx & Hl). exists l. by rewrite <- !list_elem_of_In.
Qed.

Section IdentifyLoop.
Import Outliers Spec.
Variable manhattan : list float -> list float -> float.
Variable pearsonr : list float -> list float -> float * float.
Variable np_mean : list float -> float.
Variable find_nearest : list float -> float -> res float.
Variable gc_dist : list (float * list (float * list (float * float))).
Variable td_dist : list (float * list (float * float)).
Variable iteritems : forall V : Type, gmap string V -> list (string * V).
Hypothesis iteritems_perm :
  forall (V : Type) (d : gmap string V), iteritems V d ≡ₚ map_to_list d.

Local Abbreviation identify_body :=
  (identify_body manhattan pearsonr np_mean find_nearest gc_dist td_dist).
Local Abbreviation identify_genome :=
  (identify_genome manhattan pearsonr np_mean find_nearest gc_dist td_dist).
Local Abbreviation identify :=
  (identify manhattan pearsonr np_mean find_nearest gc_dist td_dist iteritems).
Local Abbreviation identify_scaffold := (identify_scaffold manhattan pearsonr np_mean).
Local Abbreviation genome_keys := (genome_keys find_nearest gc_dist td_dist).
Local Abbreviation scaffold_bounds := (scaffold_bounds find_nearest gc_dist td_dist).

Lemma identify_body_appends stats_of g gs k cov_corr cov_perc report_type s fout :
  identify_body stats_of g gs k cov_corr cov_perc report_type s fout
  = (fout ++ (identify_body stats_of g gs k cov_corr cov_perc report_type s []).1,
     (identify_body stats_of g gs k cov_corr cov_perc report_type s []).2).
Proof.
  unfold Outliers.identify_body.
  destruct (_ ≫= _) as [[stats [[lo hi] tdb]]|e]; simpl; [|by rewrite app_nil_r].
  destruct (identify_scaffold _ _ _ _ _ _ _ _ _ _);
    simpl; by rewrite ?app_nil_r.
Qed.

Lemma identify_genome_appends stats_of genome_stats gc_per td_per
    cov_corr cov_perc report_type g fout :
  identify_genome stats_of genome_stats gc_per td_per cov_corr cov_perc report_type g fout
  = (fout ++ (identify_genome stats_of genome_stats gc_per td_per
                cov_corr cov_perc report_type g []).1,
     (identify_genome stats_of genome_stats gc_per td_per
        cov_corr cov_perc report_type g []).2).
Proof.
  unfold Outliers.identify_genome.
  destruct (_ ≫= _) as [[gs k]|e]; simpl; [|by rewrite app_nil_r].
  apply for_each_appends. intros; apply identify_body_appends.
Qed.

(** The body of the inner loop ends exactly when it finds the
    statistics and the bounds of the scaffold, and then writes what
    [identify_scaffold] says. *)
Lemma identify_body_ok stats_of g gs k cov_corr cov_perc report_type s :
  (identify_body stats_of g gs k cov_corr cov_perc report_type s []).2 = Ok () ->
  exists stats lo hi tdb,
    stats_of !! s = Some stats
    /\ scaffold_bounds k (length stats) = Ok (lo, hi, tdb)
    /\ (identify_body stats_of g gs k cov_corr cov_perc report_type s []).1
       = option_list (identify_scaffold s g gs stats lo hi tdb
                        cov_corr cov_perc report_type).
Proof.
  unfold Outliers.identify_body, lookup_key.
  destruct (stats_of !! s) as [stats|]; cbn [mbind res_bind]; [|done].
  destruct (scaffold_bounds k (length stats)) as [[[lo hi] tdb]|e] eqn:Hb;
    cbn [mbind res_bind]; [|done].
  intros _. exists stats, lo, hi, tdb. split; [done|]. split; [done|].
  by destruct (identify_scaffold _ _ _ _ _ _ _ _ _ _).
Qed.

(** The rows of a run of [identify] that ends: every scaffold listed
    for a genome has statistics and bounds, and the rows written are
    the rows [identify_scaffold] gives for these scaffolds. *)
Lemma identify_ok scaffolds_in_genome stats_of genome_stats
    gc_per td_per cov_corr cov_perc report_type rows :
  identify scaffolds_in_genome stats_of genome_stats
    gc_per td_per cov_corr cov_perc report_type = (rows, Ok ()) ->
  (forall g sids s,
     scaffolds_in_genome !! g = Some sids -> s ∈ sids ->
     exists gs k stats lo hi tdb,
       genome_stats !! g = Some gs
       /\ genome_keys gs gc_per td_per = Ok k
       /\ stats_of !! s = Some stats
       /\ scaffold_bounds k (length stats) = Ok (lo, hi, tdb)
       /\ forall row,
            identify_scaffold s g gs stats lo hi tdb cov_corr cov_perc report_type
            = Some row -> row ∈ rows)
  /\ (forall row, row ∈ rows ->
        exists g sids s gs k stats lo hi tdb,
          scaffolds_in_genome !! g = Some sids /\ s ∈ sids
          /\ genome_stats !! g = Some gs
          /\ genome_keys gs gc_per td_per = Ok k
          /\ stats_of !! s = Some stats
          /\ scaffold_bounds k (length stats) = Ok (lo, hi, tdb)
          /\ identify_scaffold s g gs stats lo hi tdb cov_corr cov_perc report_type
             = Some row).
Proof.
  unfold Outliers.identify. intros Hrun.
  apply for_each_ok in Hrun as [-> Hall];
    [|intros; apply identify_genome_appends].
  simpl. rewrite Forall_forall in Hall.
  assert (Hgenome : forall g sids,
    scaffolds_in_genome !! g = Some sids ->
    exists gs k,
      genome_stats !! g = Some gs /\ genome_keys gs gc_per td_per = Ok k
      /\ (identify_genome stats_of genome_stats gc_per td_per
            cov_corr cov_perc report_type (g, sids) []).1
         = concat ((fun s => (identify_body stats_of g gs k cov_corr cov_perc
                                report_type s []).1) <$> sids)
      /\ Forall (fun s => (identify_body stats_of g gs k cov_corr cov_perc
                             report_type s []).2 = Ok ()) sids).
  { intros g sids Hg.
    specialize (Hall (g, sids)). rewrite (elem_of_iteritems _ iteritems_perm) in Hall.
    specialize (Hall Hg). revert Hall.
    unfold Outliers.identify_genome, lookup_key. cbn [fst snd].
    destruct (genome_stats !! g) as [gs|]; cbn [mbind res_bind]; [|done].
    destruct (genome_keys gs gc_per td_per) as [k|e] eqn:Hk;
      cbn [mbind res_bind]; [|done].
    destruct (for_each _ sids []) as [o r] eqn:Hloop. cbn [fst snd]. intros ->.
    apply for_each_ok in Hloop as [-> Hs]; [|intros; apply identify_body_appends].
    by exists gs, k. }
  split.
  - intros g sids s Hg Hs.
    destruct (Hgenome g sids Hg) as (gs & k & Hgs & Hk & Hrows & Hok).
    rewrite Forall_forall in Hok.
    destruct (identify_body_ok _ _ _ _ _ _ _ _ (Hok s Hs))
      as (stats & lo & hi & tdb & Hstats & Hb & Hout).
    exists gs, k, stats, lo, hi, tdb. repeat (split; [done|]).
    intros row Hrow. apply elem_of_concat.
    exists ((identify_genome stats_of genome_stats gc_per td_per
               cov_corr cov_perc report_type (g, sids) []).1).
    split.
    + rewrite Hrows. apply elem_of_concat.
      exists ((identify_body stats_of g gs k cov_corr cov_perc report_type s []).1).
      split.
      * rewrite Hout, Hrow. by left.
      * apply list_elem_of_fmap. exists s. split; [reflexivity|done].
    + apply list_elem_of_fmap. exists (g, sids).
      split; [done|]. by apply (elem_of_iteritems _ iteritems_perm).
  - intros row Hrow. apply elem_of_concat in Hrow as (o & Hrow & Ho).
    apply list_elem_of_fmap in Ho as ([g sids] & -> & Hg).
    apply (elem_of_iteritems _ iteritems_perm) in Hg.
    destruct (Hgenome g sids Hg) as (gs & k & Hgs & Hk & Hrows & Hok).
    rewrite Hrows in Hrow. apply elem_of_concat in Hrow as (o & Hrow & Ho).
    apply list_elem_of_fmap in Ho as (s & -> & Hs).
    rewrite Forall_forall in Hok.
    destruct (identify_body_ok _ _ _ _ _ _ _ _ (Hok s Hs))
      as (stats & lo & hi & tdb & Hstats & Hb & Hout).
    rewrite Hout in Hrow.
    exists g, sids, s, gs, k, stats, lo, hi, tdb. repeat (split; [done|]).
    destruct (identify_scaffold _ _ _ _ _ _ _ _ _ _); simpl in Hrow.
    + by apply list_elem_of_singleton in Hrow as ->.
    + by apply not_elem_of_nil in Hrow.
Qed.
End IdentifyLoop.

Section CompatibleLoop.
Import Outliers Spec.
Variable manhattan : list float -> list float -> float.
Variable pearsonr : list float -> list float -> float * float.
Variable np_mean : list float -> float.
Variable find_nearest : list float -> float -> res float.
Variable gc_dist : list (float * list (float * list (float * float))).
Variable td_dist : list (float * list (float * float)).
Variable iteritems : forall V : Type, gmap string V -> list (string * V).
Hypothesis iteritems_perm :
  forall (V : Type) (d : gmap string V), iteritems V d ≡ₚ map_to_list d.

Local Abbreviation compatible_body :=
  (compatible_body manhattan pearsonr np_mean find_nearest gc_dist td_dist).
Local Abbreviation compatible :=
  (compatible manhattan pearsonr np_mean find_nearest gc_dist td_dist iteritems).
Local Abbreviation compatible_pair := (compatible_pair manhattan pearsonr np_mean).
Local Abbreviation identify :=
  (identify manhattan pearsonr np_mean find_nearest gc_dist td_dist iteritems).
Local Abbreviation identify_scaffold := (identify_scaffold manhattan pearsonr np_mean).
Local Abbreviation identify_dists := (identify_dists manhattan pearsonr np_mean).
Local Abbreviation compatible_dists := (compatible_dists manhattan pearsonr np_mean).
Local Abbreviation genome_keys := (genome_keys find_nearest gc_dist td_dist).
Local Abbreviation scaffold_bounds := (scaffold_bounds find_nearest gc_dist td_dist).

Lemma compatible_body_appends s ss genes gc_per td_per cov_corr cov_perc
    report_type g fout :
  compatible_body s ss genes gc_per td_per cov_corr cov_perc report_type g fout
  = (fout ++ (compatible_body s ss genes gc_per td_per cov_corr cov_perc
                report_type g []).1,
     (compatible_body s ss genes gc_per td_per cov_corr cov_perc
        report_type g []).2).
Proof.
  unfold Outliers.compatible_body.
  destruct (_ ≫= _) as [[[lo hi] tdb]|e]; simpl; [|by rewrite app_nil_r].
  destruct (compatible_pair _ _ _ _ _ _ _ _ _ _ _);
    simpl; by rewrite ?app_nil_r.
Qed.

Lemma compatible_body_ok s ss genes gc_per td_per cov_corr cov_perc report_type g :
  (compatible_body s ss genes gc_per td_per cov_corr cov_perc report_type g []).2
  = Ok () ->
  exists k lo hi tdb,
    genome_keys g.2 gc_per td_per = Ok k
    /\ scaffold_bounds k (length ss) = Ok (lo, hi, tdb)
    /\ (compatible_body s ss genes gc_per td_per cov_corr cov_perc report_type g []).1
       = option_list (compatible_pair s g.1 g.2 ss genes lo hi tdb
                        cov_corr cov_perc report_type).
Proof.
  unfold Outliers.compatible_body.
  destruct (genome_keys g.2 gc_per td_per) as [k|e] eqn:Hk;
    cbn [mbind res_bind]; [|done].
  destruct (scaffold_bounds k (length ss)) as [[[lo hi] tdb]|e] eqn:Hb; [|done].
  intros _. exists k, lo, hi, tdb. split; [done|]. split; [done|].
  by destruct (compatible_pair _ _ _ _ _ _ _ _ _ _ _).
Qed.

(** The rows of a run of [compatible] that ends are the rows
    [compatible_pair] gives for the scaffolds of interest and the
    genomes. *)
Lemma compatible_ok scaffolds_of_interest stats_of genome_stats
    gc_per td_per cov_corr cov_perc report_type rows row :
  compatible scaffolds_of_interest stats_of genome_stats
    gc_per td_per cov_corr cov_perc report_type = (rows, Ok ()) ->
  row ∈ rows ->
  exists s ss genes g gs k lo hi tdb,
    stats_of !! s = Some ss /\ scaffolds_of_interest !! s = Some genes
    /\ genome_stats !! g = Some gs
    /\ genome_keys gs gc_per td_per = Ok k
    /\ scaffold_bounds k (length ss) = Ok (lo, hi, tdb)
    /\ compatible_pair s g gs ss genes lo hi tdb cov_corr cov_perc report_type
       = Some row.
Proof.
  unfold Outliers.compatible. intros Hrun Hrow.
  apply for_each_ok in Hrun as [-> Hall].
  2:{ intros [s ss] fout. cbn [fst snd].
      destruct (scaffolds_of_interest !! s) as [genes|]; [|by rewrite app_nil_r].
      apply for_each_appends. intros; apply compatible_body_appends. }
  simpl in Hrow. rewrite Forall_forall in Hall.
  apply elem_of_concat in Hrow as (o & Hrow & Ho).
  apply list_elem_of_fmap in Ho as ([s ss] & -> & Hs).
  specialize (Hall (s, ss) Hs). cbn [fst snd] in Hall, Hrow.
  apply (elem_of_iteritems _ iteritems_perm) in Hs.
  destruct (scaffolds_of_interest !! s) as [genes|] eqn:Hgenes;
    [|by apply not_elem_of_nil in Hrow].
  destruct (for_each _ (iteritems _ genome_stats) []) as [o r] eqn:Hloop.
  cbn [fst snd] in Hall, Hrow. subst r.
  apply for_each_ok in Hloop as [-> Hg]; [|intros; apply compatible_body_appends].
  simpl in Hrow. rewrite Forall_forall in Hg.
  apply elem_of_concat in Hrow as (o & Hrow & Ho).
  apply list_elem_of_fmap in Ho as ([g gs] & -> & Hin).
  destruct (compatible_body_ok _ _ _ _ _ _ _ _ _ (Hg (g, gs) Hin))
    as (k & lo & hi & tdb & Hk & Hb & Hout).
  apply (elem_of_iteritems _ iteritems_perm) in Hin.
  rewrite Hout in Hrow. cbn [fst snd] in *.
  exists s, ss, genes, g, gs, k, lo, hi, tdb. repeat (split; [done|]).
  destruct (compatible_pair _ _ _ _ _ _ _ _ _ _ _); simpl in Hrow.
  - by apply list_elem_of_singleton in Hrow as ->.
  - by apply not_elem_of_nil in Hrow.
Qed.
End CompatibleLoop.

Section ReportPolicy.
Import Outliers Spec.
Variable manhattan : list float -> list float -> float.
Variable pearsonr : list float -> list float -> float * float.
Variable np_mean : list float -> float.
Variable find_nearest : list float -> float -> res float.
Variable gc_dist : list (float * list (float * list (float * float))).
Variable td_dist : list (float * list (float * float)).
Variable iteritems : forall V : Type, gmap string V -> list (string * V).

Local Abbreviation identify :=
  (identify manhattan pearsonr np_mean find_nearest gc_dist td_dist iteritems).
Local Abbreviation identify_scaffold := (identify_scaffold manhattan pearsonr np_mean).
Local Abbreviation identify_dists := (identify_dists manhattan pearsonr np_mean).
Local Abbreviation genome_keys := (genome_keys find_nearest gc_dist td_dist).
Local Abbreviation scaffold_bounds := (scaffold_bounds find_nearest gc_dist td_dist).

(** The report condition of [identify] in terms of the signals flagged. *)
Lemma identify_scaffold_policy sid gid gs stats lo hi tdb cov_corr cov_perc report_type :
  let dists := (identify_dists gs stats lo hi tdb cov_corr cov_perc).1.1 in
  (is_Some (identify_scaffold sid gid gs stats lo hi tdb cov_corr cov_perc report_type)
   <-> (report_type = "any" /\ 1 <= flagged_count dists)
       \/ (report_type = "all" /\ 3 <= flagged_count dists))
  /\ (forall row,
        identify_scaffold sid gid gs stats lo hi tdb cov_corr cov_perc report_type
        = Some row ->
        row_scaffold row = sid /\ row_genome row = gid /\ row_dists row = dists).
Proof.
  intros dists.
  assert (flagged_count dists = len dists) as ->.
  { subst dists. rewrite identify_dists_flags. apply flagged_count_flags. }
  unfold Outliers.identify_scaffold. fold dists.
  rewrite <- reported_iff.
  destruct (reported report_type dists); split.
  - split; [done|]. by eexists.
  - by intros row [= <-].
  - split; [by intros [? ?]|done].
  - done.
Qed.

(** C1.  [identify] writes a scaffold to the report exactly when the
    report type is "any" and at least one of the four signals GC, TD,
    COV_CORR, COV_PERC is flagged, or the report type is "all" and at
    least three of them are; with "all" and exactly two signals flagged
    nothing is written.  This holds for the decision on one scaffold
    and for the rows of a whole run. *)
Theorem identify_report_policy :
  (forall (V : Type) (d : gmap string V), iteritems V d ≡ₚ map_to_list d) ->
  (forall sid gid gs stats lo hi tdb cov_corr cov_perc report_type,
     let dists := (identify_dists gs stats lo hi tdb cov_corr cov_perc).1.1 in
     (is_Some (identify_scaffold sid gid gs stats lo hi tdb
                 cov_corr cov_perc report_type)
      <-> (report_type = "any" /\ 1 <= flagged_count dists)
          \/ (report_type = "all" /\ 3 <= flagged_count dists))
     /\ (report_type = "all" -> flagged_count dists = 2 ->
         identify_scaffold sid gid gs stats lo hi tdb
           cov_corr cov_perc report_type = None)
     /\ (flagged_count dists = 0 ->
         identify_scaffold sid gid gs stats lo hi tdb
           cov_corr cov_perc report_type = None))
  /\ (forall scaffolds_in_genome stats_of genome_stats
             gc_per td_per cov_corr cov_perc report_type rows,
        identify scaffolds_in_genome stats_of genome_stats
          gc_per td_per cov_corr cov_perc report_type = (rows, Ok ()) ->
        forall g sids s,
          scaffolds_in_genome !! g = Some sids -> s ∈ sids ->
          exists gs k stats lo hi tdb,
            genome_stats !! g = Some gs
            /\ genome_keys gs gc_per td_per = Ok k
            /\ stats_of !! s = Some stats
            /\ scaffold_bounds k (length stats) = Ok (lo, hi, tdb)
            /\ let dists := (identify_dists gs stats lo hi tdb cov_corr cov_perc).1.1 in
               ((exists row, row ∈ rows /\ row_scaffold row = s /\ row_genome row = g)
                <-> (report_type = "any" /\ 1 <= flagged_count dists)
                    \/ (report_type = "all" /\ 3 <= flagged_count dists))).
Proof.
  intros Hperm. split.
  - intros sid gid gs stats lo hi tdb cov_corr cov_perc report_type dists.
    destruct (identify_scaffold_policy sid gid gs stats lo hi tdb
                cov_corr cov_perc report_type) as [Hiff _].
    fold dists in Hiff. split; [exact Hiff|]. split.
    + intros Hall Htwo.
      destruct (identify_scaffold _ _ _ _ _ _ _ _ _ _) as [row|] eqn:Hrow; [|done].
      assert (is_Some (Some row)) as Hs by by eexists.
      apply Hiff in Hs as [[-> _]|[_ Hge]]; [done|lia].
    + intros Hzero.
      destruct (identify_scaffold _ _ _ _ _ _ _ _ _ _) as [row|] eqn:Hrow; [|done].
      assert (is_Some (Some row)) as Hs by by eexists.
      apply Hiff in Hs as [[_ Hge]|[_ Hge]]; lia.
  - intros sig stats_of genome_stats gc_per td_per cov_corr cov_perc report_type
      rows Hrun g sids s Hg Hs.
    destruct (identify_ok _ _ _ _ _ _ _ Hperm _ _ _ _ _ _ _ _ _ Hrun) as [Hin Hout].
    destruct (Hin g sids s Hg Hs)
      as (gs & k & stats & lo & hi & tdb & Hgs & Hk & Hstats & Hb & Hrows).
    exists gs, k, stats, lo, hi, tdb. repeat (split; [done|]).
    intros dists.
    destruct (identify_scaffold_policy s g gs stats lo hi tdb
                cov_corr cov_perc report_type) as [Hiff Hrow].
    fold dists in Hiff. rewrite <- Hiff. split.
    + intros (row & Hrow' & Hrs & Hrg).
      destruct (Hout row Hrow')
        as (g' & sids' & s' & gs' & k' & stats' & lo' & hi' & tdb'
            & Hg' & Hs' & Hgs' & Hk' & Hstats' & Hb' & Hsome).
      destruct (identify_scaffold_policy s' g' gs' stats' lo' hi' tdb'
                  cov_corr cov_perc report_type) as [_ Hids].
      destruct (Hids row Hsome) as (Hrs' & Hrg' & _).
      assert (s' = s) as -> by congruence.
      assert (g' = g) as -> by congruence.
      simplify_eq.
      rewrite Hk in Hk'. injection Hk' as <-.
      rewrite Hb in Hb'. injection Hb' as <- <- <-.
      by eexists.
    + intros [row Hsome]. exists row. split; [by apply Hrows|].
      by destruct (Hrow row Hsome) as (? & ? & _).
Qed.
End ReportPolicy.

(** A run of [identify] on one genome with two scaffolds: both are
    reported under "any". *)
Lemma identify_report_policy_witness :
  let rows :=
    (Outliers.identify Ref.manhattan Ref.pearsonr Ref.np_mean Ref.find_nearest
       Ref.gc_dist Ref.td_dist Ref.iteritems
       {["g1" := ["a"; "b"]]} {["a" := Ref.scaffold_a; "b" := Ref.scaffold_b]}
       {["g1" := Ref.genome]} 90 95 0.8 50 "any").1 in
  exists gs k stats lo hi tdb,
    ({["g1" := Ref.genome]} : gmap string Outliers.GenomeStat) !! "g1" = Some gs
    /\ Outliers.genome_keys Ref.find_nearest Ref.gc_dist Ref.td_dist gs 90 95 = Ok k
    /\ ({["a" := Ref.scaffold_a; "b" := Ref.scaffold_b]}
          : gmap string Outliers.ScaffoldStat) !! "a" = Some stats
    /\ Outliers.scaffold_bounds Ref.find_nearest Ref.gc_dist Ref.td_dist k
         (Outliers.length stats) = Ok (lo, hi, tdb)
    /\ let dists :=
         (Outliers.identify_dists Ref.manhattan Ref.pearsonr Ref.np_mean
            gs stats lo hi tdb 0.8 50).1.1 in
       ((exists row, row ∈ rows /\ Outliers.row_scaffold row = "a"
                     /\ Outliers.row_genome row = "g1")
        <-> ("any" = "any" /\ 1 <= Spec.flagged_count dists)
            \/ ("any" = "all" /\ 3 <= Spec.flagged_count dists)).
Proof.
  intros rows.
  eapply (proj2 (identify_report_policy Ref.manhattan Ref.pearsonr Ref.np_mean
                   Ref.find_nearest Ref.gc_dist Ref.td_dist Ref.iteritems
                   (fun V d => reflexivity (map_to_list d))))
    with (scaffolds_in_genome := {["g1" := ["a"; "b"]]}) (sids := ["a"; "b"]).
  - vm_compute. reflexivity.
  - vm_compute. reflexivity.
  - apply list_elem_of_here.
Defined.

Section CoverageFacts.
Import Outliers Spec.
Variable manhattan : list float -> list float -> float.
Variable pearsonr : list float -> list float -> float * float.
Variable np_mean : list float -> float.

Local Abbreviation identify_dists := (identify_dists manhattan pearsonr np_mean).
Local Abbreviation compatible_dists := (compatible_dists manhattan pearsonr np_mean).

(** The two classifiers average the same percent errors. *)
Lemma compatible_cp_identify_cp gs ss : compatible_cp gs ss = identify_cp gs ss.
Proof.
  unfold compatible_cp, identify_cp. apply list_bind_ext; [|done].
  intros [cov_genome cov_scaffold]. by rewrite abs_sub_comm.
Qed.

(** Without a qualifying dimension there is no percent error. *)
Lemma identify_cp_nil gs stats :
  Forall (fun c => ~ qualifies c) (mean_coverage gs) -> identify_cp gs stats = [].
Proof.
  unfold identify_cp. intros Hgs. generalize (coverage stats).
  induction Hgs as [|c l Hc _ IH]; intros [|d cov]; try done.
  cbn [zip zip_with]. rewrite bind_cons, IH.
  unfold qualifies in Hc. by destruct (_ <=? c)%float.
Qed.

(** With one, over vectors of the same dimension, there is. *)
Lemma identify_cp_cons gs stats :
  List.length (coverage stats) = List.length (mean_coverage gs) ->
  Exists qualifies (mean_coverage gs) ->
  identify_cp gs stats <> [].
Proof.
  unfold identify_cp. generalize (coverage stats).
  intros cov Hlen Hex. revert cov Hlen.
  induction Hex as [c l Hc|c l _ IH]; intros [|d cov] Hlen; try done.
  - cbn [zip zip_with]. rewrite bind_cons.
    unfold qualifies in Hc. by rewrite Hc.
  - cbn [zip zip_with]. rewrite bind_cons.
    intros [_ Hnil]%app_eq_nil. revert Hnil. apply IH. simpl in Hlen. lia.
Qed.

Lemma identify_dists_corr gs stats lo hi tdb cov_corr cov_perc :
  (identify_dists gs stats lo hi tdb cov_corr cov_perc).1.2
  = if 1 <? len (mean_coverage gs)
    then (pearsonr (mean_coverage gs) (coverage stats)).1 else 1%float.
Proof.
  unfold Outliers.identify_dists.
  destruct (1 <? _); destruct (_ =? 0); reflexivity.
Qed.

Lemma identify_dists_mean_cp gs stats lo hi tdb cov_corr cov_perc :
  (identify_dists gs stats lo hi tdb cov_corr cov_perc).2
  = if len (identify_cp gs stats) =? 0 then PInt (-1)
    else PFloat (np_mean (identify_cp gs stats)).
Proof.
  unfold Outliers.identify_dists.
  destruct (1 <? _); destruct (_ =? 0); reflexivity.
Qed.

Lemma compatible_dists_mean_cp gs ss lo hi tdb cov_corr cov_perc :
  (compatible_dists gs ss lo hi tdb cov_corr cov_perc).2
  = PFloat (np_mean (compatible_cp gs ss)).
Proof.
  unfold Outliers.compatible_dists. destruct (1 <? _); reflexivity.
Qed.

(** Membership in a list put together from the four flags. *)
Lemma elem_of_flags (b1 b2 b3 b4 : bool) :
  let dists := flag b1 "GC" ++ flag b2 "TD" ++ flag b3 "COV_CORR"
                 ++ flag b4 "COV_PERC" in
  ("GC" ∈ dists <-> b1 = true) /\ ("TD" ∈ dists <-> b2 = true)
  /\ ("COV_CORR" ∈ dists <-> b3 = true) /\ ("COV_PERC" ∈ dists <-> b4 = true).
Proof. apply flagged_count_flags. Qed.

(** Without a qualifying dimension [identify] reports -1 and flags
    COV_PERC. *)
Lemma identify_dists_no_coverage gs stats lo hi tdb cov_corr cov_perc :
  Forall (fun c => ~ qualifies c) (mean_coverage gs) ->
  (identify_dists gs stats lo hi tdb cov_corr cov_perc).2 = PInt (-1)
  /\ "COV_PERC" ∈ (identify_dists gs stats lo hi tdb cov_corr cov_perc).1.1.
Proof.
  intros Hgs. pose proof (identify_cp_nil gs stats Hgs) as Hnil. split.
  - by rewrite identify_dists_mean_cp, Hnil.
  - rewrite identify_dists_flags, Hnil. apply elem_of_flags. reflexivity.
Qed.
End CoverageFacts.

Section CoverageTheorems.
Import Outliers Spec.
Variable manhattan : list float -> list float -> float.
Variable pearsonr : list float -> list float -> float * float.
Variable np_mean : list float -> float.
Variable find_nearest : list float -> float -> res float.
Variable gc_dist : list (float * list (float * list (float * float))).
Variable td_dist : list (float * list (float * float)).
Variable iteritems : forall V : Type, gmap string V -> list (string * V).

Local Abbreviation identify_dists := (identify_dists manhattan pearsonr np_mean).
Local Abbreviation compatible_dists := (compatible_dists manhattan pearsonr np_mean).
Local Abbreviation identify_scaffold := (identify_scaffold manhattan pearsonr np_mean).
Local Abbreviation compatible_pair := (compatible_pair manhattan pearsonr np_mean).
Local Abbreviation identify :=
  (identify manhattan pearsonr np_mean find_nearest gc_dist td_dist iteritems).
Local Abbreviation compatible :=
  (compatible manhattan pearsonr np_mean find_nearest gc_dist td_dist iteritems).

(** A row of [identify] carries the decision it was written for. *)
Lemma identify_row rows row scaffolds_in_genome stats_of genome_stats
    gc_per td_per cov_corr cov_perc report_type :
  (forall (V : Type) (d : gmap string V), iteritems V d ≡ₚ map_to_list d) ->
  identify scaffolds_in_genome stats_of genome_stats
    gc_per td_per cov_corr cov_perc report_type = (rows, Ok ()) ->
  row ∈ rows ->
  exists gs stats lo hi tdb,
    genome_stats !! row_genome row = Some gs
    /\ stats_of !! row_scaffold row = Some stats
    /\ row_dists row = (identify_dists gs stats lo hi tdb cov_corr cov_perc).1.1
    /\ row_corr row = (identify_dists gs stats lo hi tdb cov_corr cov_perc).1.2
    /\ row_mean_cp row = (identify_dists gs stats lo hi tdb cov_corr cov_perc).2.
Proof.
  intros Hperm Hrun Hrow.
  destruct (identify_ok _ _ _ _ _ _ _ Hperm _ _ _ _ _ _ _ _ _ Hrun) as [_ Hout].
  destruct (Hout row Hrow)
    as (g & sids & s & gs & k & stats & lo & hi & tdb
        & _ & _ & Hgs & _ & Hstats & _ & Hsome).
  unfold Outliers.identify_scaffold in Hsome.
  destruct (reported _ _); [|done]. injection Hsome as <-.
  by exists gs, stats, lo, hi, tdb.
Qed.

(** A row of [compatible] carries the decision it was written for. *)
Lemma compatible_row rows row scaffolds_of_interest stats_of genome_stats
    gc_per td_per cov_corr cov_perc report_type :
  (forall (V : Type) (d : gmap string V), iteritems V d ≡ₚ map_to_list d) ->
  compatible scaffolds_of_interest stats_of genome_stats
    gc_per td_per cov_corr cov_perc report_type = (rows, Ok ()) ->
  row ∈ rows ->
  exists gs ss lo hi tdb,
    genome_stats !! row_genome row = Some gs
    /\ stats_of !! row_scaffold row = Some ss
    /\ row_dists row = (compatible_dists gs ss lo hi tdb cov_corr cov_perc).1.1
    /\ row_corr row = (compatible_dists gs ss lo hi tdb cov_corr cov_perc).1.2
    /\ row_mean_cp row = (compatible_dists gs ss lo hi tdb cov_corr cov_perc).2.
Proof.
  intros Hperm Hrun Hrow.
  destruct (compatible_ok _ _ _ _ _ _ _ Hperm _ _ _ _ _ _ _ _ _ _ Hrun Hrow)
    as (s & ss & genes & g & gs & k & lo & hi & tdb
        & Hss & _ & Hgs & _ & _ & Hsome).
  unfold Outliers.compatible_pair in Hsome.
  destruct (reported _ _); [|done]. injection Hsome as <-.
  by exists gs, ss, lo, hi, tdb.
Qed.

(** C2.  When no dimension of the genome's mean coverage reaches the
    minimum of 0.01, [identify] sets the mean coverage error to -1,
    whatever [numpy.mean] would return, and flags COV_PERC; under "any"
    the scaffold is reported with this value, and every row a run
    writes for such a genome carries -1 and COV_PERC. *)
Theorem identify_no_coverage sid gid gs stats lo hi tdb cov_corr cov_perc :
  Forall (fun c => ~ qualifies c) (mean_coverage gs) ->
  let r := identify_dists gs stats lo hi tdb cov_corr cov_perc in
  r.2 = PInt (-1)
  /\ "COV_PERC" ∈ r.1.1
  /\ (forall mean' : list float -> float,
        Outliers.identify_dists manhattan pearsonr mean'
          gs stats lo hi tdb cov_corr cov_perc = r)
  /\ (exists row,
        identify_scaffold sid gid gs stats lo hi tdb cov_corr cov_perc "any"
        = Some row
        /\ row_mean_cp row = PInt (-1) /\ "COV_PERC" ∈ row_dists row)
  /\ (forall scaffolds_in_genome stats_of genome_stats gc_per td_per
             report_type rows row,
        (forall (V : Type) (d : gmap string V), iteritems V d ≡ₚ map_to_list d) ->
        identify scaffolds_in_genome stats_of genome_stats
          gc_per td_per cov_corr cov_perc report_type = (rows, Ok ()) ->
        row ∈ rows -> genome_stats !! row_genome row = Some gs ->
        row_mean_cp row = PInt (-1) /\ "COV_PERC" ∈ row_dists row).
Proof.
  intros Hgs r.
  pose proof (identify_cp_nil gs stats Hgs) as Hnil.
  destruct (identify_dists_no_coverage manhattan pearsonr np_mean
              gs stats lo hi tdb cov_corr cov_perc Hgs) as [Hcp Hflag].
  fold r in Hcp, Hflag.
  split; [done|]. split; [done|]. split; [|split].
  - intros mean'. subst r. unfold Outliers.identify_dists. by rewrite Hnil.
  - unfold Outliers.identify_scaffold. fold r.
    assert (reported "any" r.1.1 = true) as ->.
    { apply reported_iff. left. split; [done|].
      destruct (r.1.1) as [|d l]; [by apply not_elem_of_nil in Hflag|].
      unfold len. simpl. lia. }
    eexists. split; [reflexivity|]. by split.
  - intros sig stats_of genome_stats gc_per td_per report_type rows row
      Hperm Hrun Hrow Hgenome.
    destruct (identify_row _ _ _ _ _ _ _ _ _ _ Hperm Hrun Hrow)
      as (gs' & stats' & lo' & hi' & tdb' & Hgs' & _ & -> & _ & ->).
    rewrite Hgenome in Hgs'. injection Hgs' as <-.
    by apply identify_dists_no_coverage.
Qed.

(** C8.  With at most one dimension in the genome's mean coverage the
    correlation is 1.0, COV_CORR is not flagged and [pearsonr] plays no
    part; with more than one dimension the correlation is the one
    [pearsonr] returns and COV_CORR is flagged exactly when it is below
    the threshold.  The rows of a run carry these values. *)
Theorem identify_correlation gs stats lo hi tdb cov_corr cov_perc :
  let r := identify_dists gs stats lo hi tdb cov_corr cov_perc in
  (len (mean_coverage gs) <= 1 ->
     r.1.2 = 1%float
     /\ ("COV_CORR" ∉ r.1.1)
     /\ forall pearsonr' : list float -> list float -> float * float,
          Outliers.identify_dists manhattan pearsonr' np_mean
            gs stats lo hi tdb cov_corr cov_perc = r)
  /\ (1 < len (mean_coverage gs) ->
      r.1.2 = (pearsonr (mean_coverage gs) (coverage stats)).1
      /\ ("COV_CORR" ∈ r.1.1
          <-> ((pearsonr (mean_coverage gs) (coverage stats)).1 <? cov_corr)%float
              = true))
  /\ (forall scaffolds_in_genome stats_of genome_stats gc_per td_per
             report_type rows row,
        (forall (V : Type) (d : gmap string V), iteritems V d ≡ₚ map_to_list d) ->
        identify scaffolds_in_genome stats_of genome_stats
          gc_per td_per cov_corr cov_perc report_type = (rows, Ok ()) ->
        row ∈ rows -> genome_stats !! row_genome row = Some gs ->
        len (mean_coverage gs) <= 1 ->
        row_corr row = 1%float /\ "COV_CORR" ∉ row_dists row).
Proof.
  intros r.
  assert (Hsingle : forall stats' lo' hi' tdb',
            len (mean_coverage gs) <= 1 ->
            (identify_dists gs stats' lo' hi' tdb' cov_corr cov_perc).1.2 = 1%float
            /\ "COV_CORR" ∉ (identify_dists gs stats' lo' hi' tdb' cov_corr cov_perc).1.1).
  { intros stats' lo' hi' tdb' Hone.
    assert ((1 <? len (mean_coverage gs)) = false) as Hlt by (apply Z.ltb_ge; lia).
    split.
    - by rewrite identify_dists_corr, Hlt.
    - rewrite identify_dists_flags, Hlt. intros Hin%elem_of_flags. done. }
  split; [|split].
  - intros Hone. destruct (Hsingle stats lo hi tdb Hone) as [Hcorr Hflag].
    split; [done|]. split; [done|].
    intros pearsonr'. subst r. unfold Outliers.identify_dists.
    assert ((1 <? len (mean_coverage gs)) = false) as -> by (apply Z.ltb_ge; lia).
    done.
  - intros Hmore.
    assert ((1 <? len (mean_coverage gs)) = true) as Hlt by (apply Z.ltb_lt; lia).
    split.
    + subst r. by rewrite identify_dists_corr, Hlt.
    + subst r. rewrite identify_dists_flags, Hlt. apply elem_of_flags.
  - intros sig stats_of genome_stats gc_per td_per report_type rows row
      Hperm Hrun Hrow Hgenome Hone.
    destruct (identify_row _ _ _ _ _ _ _ _ _ _ Hperm Hrun Hrow)
      as (gs' & stats' & lo' & hi' & tdb' & Hgs' & _ & -> & -> & _).
    rewrite Hgenome in Hgs'. injection Hgs' as <-.
    by apply Hsingle.
Qed.

(** C10.  When no dimension of the genome's mean coverage reaches the
    minimum, [compatible] averages an empty list: the mean coverage
    error is the NaN [numpy.mean] returns for it, the comparison with
    the threshold fails, COV_PERC is not marked compatible and no -1 is
    reported, in the decision for one scaffold and in the rows of a
    run, where [identify] reports -1 and flags COV_PERC. *)
Theorem compatible_no_coverage sid gid genes gs ss lo hi tdb cov_corr cov_perc
    report_type :
  np_mean [] = nan ->
  Forall (fun c => ~ qualifies c) (mean_coverage gs) ->
  let r := compatible_dists gs ss lo hi tdb cov_corr cov_perc in
  r.2 = PFloat nan
  /\ ((nan <=? cov_perc)%float = false)
  /\ ("COV_PERC" ∉ r.1.1)
  /\ (forall row,
        compatible_pair sid gid gs ss genes lo hi tdb cov_corr cov_perc report_type
        = Some row ->
        row_mean_cp row = PFloat nan /\ "COV_PERC" ∉ row_dists row)
  /\ (forall scaffolds_of_interest stats_of genome_stats gc_per td_per rows row,
        (forall (V : Type) (d : gmap string V), iteritems V d ≡ₚ map_to_list d) ->
        compatible scaffolds_of_interest stats_of genome_stats
          gc_per td_per cov_corr cov_perc report_type = (rows, Ok ()) ->
        row ∈ rows -> genome_stats !! row_genome row = Some gs ->
        row_mean_cp row = PFloat nan /\ "COV_PERC" ∉ row_dists row)
  /\ (identify_dists gs ss lo hi tdb cov_corr cov_perc).2 = PInt (-1)
  /\ "COV_PERC" ∈ (identify_dists gs ss lo hi tdb cov_corr cov_perc).1.1.
Proof.
  intros Hmean Hgs r.
  assert ((nan <=? cov_perc)%float = false) as Hnan by by apply leb_nan_l.
  assert (Hnone : forall ss' lo' hi' tdb',
            (compatible_dists gs ss' lo' hi' tdb' cov_corr cov_perc).2 = PFloat nan
            /\ "COV_PERC" ∉ (compatible_dists gs ss' lo' hi' tdb' cov_corr cov_perc).1.1).
  { intros ss' lo' hi' tdb'.
    pose proof (identify_cp_nil gs ss' Hgs) as Hnil. split.
    - by rewrite compatible_dists_mean_cp, compatible_cp_identify_cp, Hnil, Hmean.
    - rewrite compatible_dists_flags, compatible_cp_identify_cp, Hnil, Hmean, Hnan.
      intros Hin%elem_of_flags. done. }
  destruct (Hnone ss lo hi tdb) as [Hcp Hflag]. fold r in Hcp, Hflag.
  split; [done|]. split; [done|]. split; [done|]. split; [|split].
  - unfold Outliers.compatible_pair. fold r.
    destruct (reported report_type r.1.1); [|done].
    by intros row [= <-].
  - intros soi stats_of genome_stats gc_per td_per rows row Hperm Hrun Hrow Hgenome.
    destruct (compatible_row _ _ _ _ _ _ _ _ _ _ Hperm Hrun Hrow)
      as (gs' & ss' & lo' & hi' & tdb' & Hgs' & _ & -> & _ & ->).
    rewrite Hgenome in Hgs'. injection Hgs' as <-.
    by apply Hnone.
  - by apply identify_dists_no_coverage.
Qed.
End CoverageTheorems.

Lemma identify_no_coverage_witness :
  let r := Outliers.identify_dists Ref.manhattan Ref.pearsonr Ref.np_mean
             Ref.uncovered Ref.scaffold_b (-0.04) 0.04 0.3 0.8 50 in
  r.2 = PInt (-1)
  /\ "COV_PERC" ∈ r.1.1
  /\ (forall mean' : list float -> float,
        Outliers.identify_dists Ref.manhattan Ref.pearsonr mean'
          Ref.uncovered Ref.scaffold_b (-0.04) 0.04 0.3 0.8 50 = r)
  /\ (exists row,
        Outliers.identify_scaffold Ref.manhattan Ref.pearsonr Ref.np_mean
          "b" "g1" Ref.uncovered Ref.scaffold_b (-0.04) 0.04 0.3 0.8 50 "any"
        = Some row
        /\ Outliers.row_mean_cp row = PInt (-1)
        /\ "COV_PERC" ∈ Outliers.row_dists row)
  /\ (forall scaffolds_in_genome stats_of genome_stats gc_per td_per
             report_type rows row,
        (forall (V : Type) (d : gmap string V), Ref.iteritems V d ≡ₚ map_to_list d) ->
        Outliers.identify Ref.manhattan Ref.pearsonr Ref.np_mean Ref.find_nearest
          Ref.gc_dist Ref.td_dist Ref.iteritems
          scaffolds_in_genome stats_of genome_stats
          gc_per td_per 0.8 50 report_type = (rows, Ok ()) ->
        row ∈ rows -> genome_stats !! Outliers.row_genome row = Some Ref.uncovered ->
        Outliers.row_mean_cp row = PInt (-1)
        /\ "COV_PERC" ∈ Outliers.row_dists row).
Proof.
  apply (identify_no_coverage Ref.manhattan Ref.pearsonr Ref.np_mean
           Ref.find_nearest Ref.gc_dist Ref.td_dist Ref.iteritems
           "b" "g1" Ref.uncovered Ref.scaffold_b (-0.04) 0.04 0.3 0.8 50).
  repeat constructor; unfold Spec.qualifies; vm_compute; discriminate.
Defined.

Lemma compatible_no_coverage_witness :
  let r := Outliers.compatible_dists Ref.manhattan Ref.pearsonr Ref.np_mean
             Ref.uncovered Ref.scaffold_b (-0.04) 0.04 0.3 0.8 50 in
  r.2 = PFloat nan
  /\ ((nan <=? 50)%float = false)
  /\ ("COV_PERC" ∉ r.1.1)
  /\ (forall row,
        Outliers.compatible_pair Ref.manhattan Ref.pearsonr Ref.np_mean
          "b" "g1" Ref.uncovered Ref.scaffold_b (12, 50%float)
          (-0.04) 0.04 0.3 0.8 50 "any" = Some row ->
        Outliers.row_mean_cp row = PFloat nan
        /\ "COV_PERC" ∉ Outliers.row_dists row)
  /\ (forall scaffolds_of_interest stats_of genome_stats gc_per td_per rows row,
        (forall (V : Type) (d : gmap string V), Ref.iteritems V d ≡ₚ map_to_list d) ->
        Outliers.compatible Ref.manhattan Ref.pearsonr Ref.np_mean Ref.find_nearest
          Ref.gc_dist Ref.td_dist Ref.iteritems
          scaffolds_of_interest stats_of genome_stats
          gc_per td_per 0.8 50 "any" = (rows, Ok ()) ->
        row ∈ rows -> genome_stats !! Outliers.row_genome row = Some Ref.uncovered ->
        Outliers.row_mean_cp row = PFloat nan
        /\ "COV_PERC" ∉ Outliers.row_dists row)
  /\ (Outliers.identify_dists Ref.manhattan Ref.pearsonr Ref.np_mean
        Ref.uncovered Ref.scaffold_b (-0.04) 0.04 0.3 0.8 50).2 = PInt (-1)
  /\ "COV_PERC" ∈ (Outliers.identify_dists Ref.manhattan Ref.pearsonr Ref.np_mean
                     Ref.uncovered Ref.scaffold_b (-0.04) 0.04 0.3 0.8 50).1.1.
Proof.
  apply (compatible_no_coverage Ref.manhattan Ref.pearsonr Ref.np_mean
           Ref.find_nearest Ref.gc_dist Ref.td_dist Ref.iteritems
           "b" "g1" (12, 50%float) Ref.uncovered Ref.scaffold_b
           (-0.04) 0.04 0.3 0.8 50 "any").
  - vm_compute. reflexivity.
  - repeat constructor; unfold Spec.qualifies; vm_compute; discriminate.
Defined.

Section Mirror.
Import Outliers Spec.
Variable manhattan : list float -> list float -> float.
Variable pearsonr : list float -> list float -> float * float.
Variable np_mean : list float -> float.

Local Abbreviation identify_dists := (identify_dists manhattan pearsonr np_mean).
Local Abbreviation compatible_dists := (compatible_dists manhattan pearsonr np_mean).

(** C6, as the code has it.  For a scaffold and a genome with the same
    bounds and thresholds, coverage vectors of the same dimension, more
    than one, of which one at least qualifies, and no NaN among the
    values compared, [compatible] marks a signal compatible exactly
    when [identify] does not flag it: GC inside the bounds, TD at most
    the bound, correlation at least the threshold, mean percent error
    at most the threshold. *)
Theorem compatible_mirrors_identify gs ss lo hi tdb cov_corr cov_perc :
  1 < len (mean_coverage gs) ->
  List.length (coverage ss) = List.length (mean_coverage gs) ->
  Exists qualifies (mean_coverage gs) ->
  is_nan (delta_gc ss gs) = false -> is_nan lo = false -> is_nan hi = false ->
  is_nan (delta_td manhattan ss gs) = false -> is_nan tdb = false ->
  is_nan (pearsonr (mean_coverage gs) (coverage ss)).1 = false ->
  is_nan cov_corr = false ->
  is_nan (np_mean (identify_cp gs ss)) = false -> is_nan cov_perc = false ->
  let compatible := (compatible_dists gs ss lo hi tdb cov_corr cov_perc).1.1 in
  let outlying := (identify_dists gs ss lo hi tdb cov_corr cov_perc).1.1 in
  (forall s, s ∈ signals -> s ∈ compatible <-> s ∉ outlying)
  /\ ("GC" ∈ compatible
      <-> (lo <=? delta_gc ss gs)%float = true
          /\ (delta_gc ss gs <=? hi)%float = true)
  /\ ("TD" ∈ compatible <-> (delta_td manhattan ss gs <=? tdb)%float = true)
  /\ ("COV_CORR" ∈ compatible
      <-> (cov_corr <=? (pearsonr (mean_coverage gs) (coverage ss)).1)%float = true)
  /\ ("COV_PERC" ∈ compatible
      <-> (np_mean (compatible_cp gs ss) <=? cov_perc)%float = true).
Proof.
  intros Hdim Hlen Hq Hd Hlo Hhi Htd Htdb Hr Hcorr Hm Hperc compatible outlying.
  assert ((1 <? len (mean_coverage gs)) = true) as Hlt by (apply Z.ltb_lt; lia).
  assert ((len (identify_cp gs ss) =? 0) = false) as Hcp.
  { apply Z.eqb_neq. pose proof (identify_cp_cons gs ss Hlen Hq).
    destruct (identify_cp gs ss); [done|]. unfold len. simpl. lia. }
  pose proof (compatible_dists_flags manhattan pearsonr np_mean
                gs ss lo hi tdb cov_corr cov_perc) as Hc.
  pose proof (identify_dists_flags manhattan pearsonr np_mean
                gs ss lo hi tdb cov_corr cov_perc) as Ho.
  fold compatible in Hc. fold outlying in Ho.
  rewrite Hlt in Hc, Ho. rewrite Hcp in Ho.
  rewrite compatible_cp_identify_cp in *.
  rewrite (ltb_negb_leb _ lo), (ltb_negb_leb hi), (ltb_negb_leb tdb),
    (ltb_negb_leb _ cov_corr), (ltb_negb_leb cov_perc) in Ho by done.
  simpl in Hc, Ho.
  destruct (elem_of_flags
              ((lo <=? delta_gc ss gs) && (delta_gc ss gs <=? hi))%float
              (delta_td manhattan ss gs <=? tdb)%float
              (cov_corr <=? (pearsonr (mean_coverage gs) (coverage ss)).1)%float
              (np_mean (identify_cp gs ss) <=? cov_perc)%float)
    as (Hc1 & Hc2 & Hc3 & Hc4).
  destruct (elem_of_flags
              (negb (lo <=? delta_gc ss gs) || negb (delta_gc ss gs <=? hi))%float
              (negb (delta_td manhattan ss gs <=? tdb))%float
              (negb (cov_corr <=? (pearsonr (mean_coverage gs) (coverage ss)).1))%float
              (negb (np_mean (identify_cp gs ss) <=? cov_perc))%float)
    as (Ho1 & Ho2 & Ho3 & Ho4).
  rewrite <- Hc in Hc1, Hc2, Hc3, Hc4. rewrite <- Ho in Ho1, Ho2, Ho3, Ho4.
  split; [|by rewrite Hc1, Hc2, Hc3, Hc4, andb_true_iff].
  intros s Hs. unfold signals in Hs.
  repeat (apply elem_of_cons in Hs as [->|Hs]);
    [ rewrite Hc1, Ho1 | rewrite Hc2, Ho2 | rewrite Hc3, Ho3 | rewrite Hc4, Ho4
    | by apply not_elem_of_nil in Hs ];
    repeat match goal with |- context [(?a <=? ?b)%float] =>
                             destruct (a <=? b)%float end;
    simpl; split; try done; intros H; by destruct H.
Qed.
End Mirror.

Lemma compatible_mirrors_identify_witness :
  let compatible :=
    (Outliers.compatible_dists Ref.manhattan Ref.pearsonr Ref.np_mean
       Ref.genome Ref.scaffold_b (-0.04) 0.04 0.3 0.8 50).1.1 in
  let outlying :=
    (Outliers.identify_dists Ref.manhattan Ref.pearsonr Ref.np_mean
       Ref.genome Ref.scaffold_b (-0.04) 0.04 0.3 0.8 50).1.1 in
  (forall s, s ∈ Spec.signals -> s ∈ compatible <-> s ∉ outlying)
  /\ ("GC" ∈ compatible
      <-> (-0.04 <=? Outliers.delta_gc Ref.scaffold_b Ref.genome)%float = true
          /\ (Outliers.delta_gc Ref.scaffold_b Ref.genome <=? 0.04)%float = true)
  /\ ("TD" ∈ compatible
      <-> (Outliers.delta_td Ref.manhattan Ref.scaffold_b Ref.genome <=? 0.3)%float
          = true)
  /\ ("COV_CORR" ∈ compatible
      <-> (0.8 <=? (Ref.pearsonr (Outliers.mean_coverage Ref.genome)
                      (Outliers.coverage Ref.scaffold_b)).1)%float = true)
  /\ ("COV_PERC" ∈ compatible
      <-> (Ref.np_mean (Outliers.compatible_cp Ref.genome Ref.scaffold_b) <=? 50)%float
          = true).
Proof.
  apply (compatible_mirrors_identify Ref.manhattan Ref.pearsonr Ref.np_mean
           Ref.genome Ref.scaffold_b (-0.04) 0.04 0.3 0.8 50);
    try (vm_compute; reflexivity).
  apply Exists_cons_hd. vm_compute. reflexivity.
Defined.

(** C6 as stated fails: a scaffold with the same coverage in both samples
    has no correlation with the genome ([pearsonr] returns NaN), so that
    COV_CORR is neither flagged by [identify] nor marked compatible by
    [compatible], although the coverage vectors have two dimensions and
    both qualify. *)
Lemma compatible_not_mirror_on_nan :
  let compatible :=
    (Outliers.compatible_dists Ref.manhattan Ref.pearsonr Ref.np_mean
       Ref.genome Ref.scaffold_a (-0.04) 0.04 0.3 0.8 50).1.1 in
  let outlying :=
    (Outliers.identify_dists Ref.manhattan Ref.pearsonr Ref.np_mean
       Ref.genome Ref.scaffold_a (-0.04) 0.04 0.3 0.8 50).1.1 in
  1 < len (Outliers.mean_coverage Ref.genome)
  /\ Forall Spec.qualifies (Outliers.mean_coverage Ref.genome)
  /\ (Ref.pearsonr (Outliers.mean_coverage Ref.genome)
        (Outliers.coverage Ref.scaffold_a)).1 = nan
  /\ outlying = ["GC"; "COV_PERC"]
  /\ compatible = ["TD"]
  /\ ~ ("COV_CORR" ∈ compatible <-> "COV_CORR" ∉ outlying)
  /\ (forall pearsonr : list float -> list float -> float * float,
        (pearsonr (Outliers.mean_coverage Ref.genome)
           (Outliers.coverage Ref.scaffold_a)).1 = nan ->
        ~ ("COV_CORR" ∈ (Outliers.compatible_dists Ref.manhattan pearsonr Ref.np_mean
                           Ref.genome Ref.scaffold_a (-0.04) 0.04 0.3 0.8 50).1.1
           <-> "COV_CORR" ∉ (Outliers.identify_dists Ref.manhattan pearsonr Ref.np_mean
                               Ref.genome Ref.scaffold_a (-0.04) 0.04 0.3 0.8 50).1.1)).
Proof.
  assert ((Outliers.compatible_dists Ref.manhattan Ref.pearsonr Ref.np_mean
             Ref.genome Ref.scaffold_a (-0.04) 0.04 0.3 0.8 50).1.1 = ["TD"]) as Hc
    by (vm_compute; reflexivity).
  assert ((Outliers.identify_dists Ref.manhattan Ref.pearsonr Ref.np_mean
             Ref.genome Ref.scaffold_a (-0.04) 0.04 0.3 0.8 50).1.1
          = ["GC"; "COV_PERC"]) as Ho
    by (vm_compute; reflexivity).
  cbv zeta. rewrite Hc, Ho.
  split; [done|]. split; [repeat constructor|].
  split; [vm_compute; reflexivity|]. split; [done|]. split; [done|]. split.
  - intros [_ H].
    assert ("COV_CORR" ∈ ["TD"]) as Hin.
    { apply H. intros Hin. by repeat (apply elem_of_cons in Hin as [?|Hin]);
        try apply not_elem_of_nil in Hin. }
    by repeat (apply elem_of_cons in Hin as [?|Hin]); try apply not_elem_of_nil in Hin.
  - intros pearsonr Hnan.
    rewrite compatible_dists_flags, identify_dists_flags, Hnan.
    rewrite (ltb_nan_l nan), (leb_nan_r _ nan) by done.
    rewrite andb_false_r.
    intros [_ H].
    assert (forall b1 b2 b4, "COV_CORR" ∈ Spec.flag b1 "GC" ++ Spec.flag b2 "TD"
                               ++ Spec.flag false "COV_CORR" ++ Spec.flag b4 "COV_PERC"
                             -> False) as Hout.
    { intros b1 b2 b4 Hin. by apply elem_of_flags in Hin. }
    eapply Hout, H. intros Hin. by eapply Hout.
Qed.

(** ** The closest bin *)
Section ClosestFacts.
Import Outliers Spec.

(** The loop over the bins keeps three independent running minima. *)
Lemma best_step_columns (l : list (string * (float * float * float)))
    (bg bt bc : float * option string) :
  foldl best_step (bg, bt, bc) l
  = (foldl running_min bg (gc_column l),
     foldl running_min bt (td_column l),
     foldl running_min bc (cov_column l)).
Proof.
  revert bg bt bc.
  induction l as [|[bin_id [[gc td] cov]] l IH]; intros bg bt bc; [done|].
  cbn [foldl]. unfold best_step at 2. rewrite IH. reflexivity.
Qed.

Lemma running_min_settled (l : list (string * float)) :
  settled l (foldl running_min (1e9%float, None) l).
Proof.
  induction l as [|[C w] l IH] using rev_ind.
  - left. split; [done|]. intros j C w Hj. by rewrite lookup_nil in Hj.
  - rewrite foldl_snoc. destruct (foldl running_min _ l) as [v o].
    unfold running_min. cbn [fst snd].
    destruct (w <? v)%float eqn:Hwv.
    + (* the new bin is strictly closer *)
      right. exists C, (List.length l). cbn [fst snd].
      split; [done|]. split; [by rewrite lookup_app_r, Nat.sub_diag by lia|].
      assert ((w <? 1e9)%float = true) as Hw.
      { destruct IH as [[[= -> ->] _]|(B & i & _ & _ & Hv & _)]; [done|].
        by apply ltb_trans with v. }
      split; [done|]. split.
      * intros j C' w' Hj Hl. rewrite lookup_app_l in Hl by done.
        apply not_true_iff_false. intros Hle.
        pose proof (leb_ltb_trans _ _ _ Hle Hwv) as Hlt.
        destruct IH as [[[= -> ->] Hnone]|(B & i & _ & Hi & _ & Hbefore & Hafter)].
        -- rewrite (Hnone j C' w' Hl) in Hlt. done.
        -- cbn [fst snd] in *.
           destruct (Nat.lt_trichotomy j i) as [Hji|[->|Hji]].
           ++ apply ltb_leb in Hlt. by rewrite (Hbefore j C' w' Hji Hl) in Hlt.
           ++ rewrite Hl in Hi. injection Hi as -> ->.
              by rewrite ltb_irrefl in Hlt.
           ++ by rewrite (Hafter j C' w' Hji Hl) in Hlt.
      * intros j C' w' Hj Hl. apply lookup_lt_Some in Hl.
        rewrite length_app in Hl. simpl in Hl. lia.
    + (* the minimum stays *)
      destruct IH as [[[= -> ->] Hnone]|(B & i & Ho & Hi & Hv & Hbefore & Hafter)].
      * left. split; [done|]. intros j C' w' Hl.
        apply lookup_app_Some in Hl as [Hl|[_ Hl]]; [by eapply Hnone|].
        apply list_lookup_singleton_Some in Hl as [_ [= <- <-]]. done.
      * right. exists B, i. cbn [fst snd] in *.
        split; [done|]. split; [by apply lookup_app_l_Some|].
        split; [done|]. split.
        -- intros j C' w' Hj Hl. eapply Hbefore; [done|].
           rewrite lookup_app_l in Hl; [done|].
           apply lookup_lt_Some in Hi. lia.
        -- intros j C' w' Hj Hl.
           apply lookup_app_Some in Hl as [Hl|[_ Hl]]; [by eapply Hafter|].
           apply list_lookup_singleton_Some in Hl as [_ [= <- <-]]. done.
Qed.

(** The loop settles on [B] exactly when [B] is the closest bin of the
    column. *)
Lemma running_min_closest (l : list (string * float)) (B : string) :
  (foldl running_min (1e9%float, None) l).2 = Some B <-> closest l B.
Proof.
  pose proof (running_min_settled l) as Hs.
  destruct (foldl running_min _ l) as [v' o]. cbn [snd]. split.
  - intros ->.
    destruct Hs as [[[= _] _]|(B' & i & [= <-] & Hi & Hv & Hbefore & Hafter)].
    by exists i, v'.
  - intros (i & v & Hi & Hv & Hbefore & Hafter).
    destruct Hs as [[_ Hnone]|(B' & i' & Ho & Hi' & Hv' & Hbefore' & Hafter')].
    { rewrite (Hnone i B v Hi) in Hv. done. }
    cbn [fst snd] in *. subst o.
    destruct (ltb_not_nan _ _ Hv) as [Hnv _].
    destruct (ltb_not_nan _ _ Hv') as [Hnv' _].
    destruct (Nat.lt_trichotomy i i') as [Hii|[->|Hii]].
    + pose proof (Hbefore' i B v Hii Hi) as H1.
      pose proof (Hafter i' B' v' Hii Hi') as H2.
      rewrite (ltb_negb_leb v' v), H1 in H2 by done. done.
    + rewrite Hi in Hi'. by injection Hi' as -> _.
    + pose proof (Hbefore i' B' v' Hii Hi') as H1.
      pose proof (Hafter' i B v Hii Hi) as H2.
      rewrite (ltb_negb_leb v v'), H1 in H2 by done. done.
Qed.

Lemma closest_unique (l : list (string * float)) (B C : string) :
  closest l B -> closest l C -> B = C.
Proof. rewrite <- !running_min_closest. congruence. Qed.

(** Among distances that are numbers, the closest bin attains the
    least distance. *)
Lemma closest_least (l : list (string * float)) (B : string) :
  (forall C w, (C, w) ∈ l -> is_nan w = false) ->
  closest l B -> least l B.
Proof.
  intros Hnum (i & v & Hi & Hv & Hbefore & Hafter).
  exists v. split; [by eapply list_elem_of_lookup_2|].
  intros C w [j Hj]%list_elem_of_lookup.
  destruct (ltb_not_nan _ _ Hv) as [Hnv _].
  assert (is_nan w = false) as Hnw.
  { eapply Hnum. by eapply list_elem_of_lookup_2. }
  destruct (Nat.lt_trichotomy j i) as [Hji|[->|Hji]].
  - apply ltb_leb. rewrite ltb_negb_leb by done.
    by rewrite (Hbefore j C w Hji Hj).
  - rewrite Hi in Hj. injection Hj as _ <-. by apply leb_refl.
  - pose proof (Hafter j C w Hji Hj) as H.
    rewrite ltb_negb_leb in H by done. by apply negb_false_iff in H.
Qed.

(** Without ties and below 1e9 the order of the bins does not matter:
    the strictly closest bin is the one the loop settles on. *)
Lemma strictly_least_closest (l : list (string * float)) (B : string) :
  NoDup l.*1 -> strictly_least l B -> closest l B.
Proof.
  intros Hnd (v & [i Hi]%list_elem_of_lookup & Hv & Hothers).
  assert (Hother : forall (j : nat) C w, j <> i -> l !! j = Some (C, w) ->
            (v <? w)%float = true).
  { intros j C w Hji Hj. apply (Hothers C w); [by eapply list_elem_of_lookup_2|].
    intros ->. apply Hji.
    eapply (NoDup_lookup _ j i B); [exact Hnd|..];
      by rewrite list_lookup_fmap, ?Hj, ?Hi. }
  exists i, v. split; [done|]. split; [done|]. split.
  - intros j C w Hji Hj. apply not_true_iff_false. intros Hle.
    assert ((v <? w)%float = true) as Hlt by (apply (Hother j C w); [lia|done]).
    pose proof (leb_ltb_trans _ _ _ Hle Hlt) as H. by rewrite ltb_irrefl in H.
  - intros j C w Hji Hj. apply not_true_iff_false. intros Hlt'.
    assert ((v <? w)%float = true) as Hlt by (apply (Hother j C w); [lia|done]).
    pose proof (ltb_trans _ _ _ Hlt Hlt') as H. by rewrite ltb_irrefl in H.
Qed.
End ClosestFacts.

Section ClosestTheorems.
Import Outliers Spec.
Variable iteritems : forall V : Type, gmap string V -> list (string * V).

Local Abbreviation items := (iteritems (float * float * float)).

(** The check of the loop over the scaffolds, column by column. *)
Lemma closest_to_closest cur (bin_stats : gmap string (float * float * float)) :
  closest_to iteritems cur bin_stats = true <->
  closest (gc_column (items bin_stats)) cur
  /\ closest (td_column (items bin_stats)) cur
  /\ closest (cov_column (items bin_stats)) cur.
Proof.
  unfold closest_to, best_bins. rewrite best_step_columns.
  rewrite !andb_true_iff, !bool_decide_eq_true, <- !running_min_closest.
  split.
  - intros [[-> ->] H]. done.
  - intros (-> & -> & ->). done.
Qed.

Lemma elem_of_compatible_scaffolds_fold (cur s : string)
    (l : list (string * gmap string (float * float * float))) (acc : gset string) :
  s ∈ foldl (fun (acc : gset string) x =>
               if closest_to iteritems cur x.2 then acc ∪ {[ x.1 ]} else acc) acc l
  <-> s ∈ acc \/ exists bs, (s, bs) ∈ l /\ closest_to iteritems cur bs = true.
Proof.
  revert acc. induction l as [|[k bs] l IH]; intros acc; cbn [foldl fst snd].
  - split; [by left|]. intros [?|(bs & Hin & _)]; [done|].
    by apply not_elem_of_nil in Hin.
  - rewrite IH. split.
    + intros [Hacc|(bs' & Hin & Hc)].
      * destruct (closest_to iteritems cur bs) eqn:Hbs; [|by left].
        apply elem_of_union in Hacc as [?|Hk]; [by left|].
        apply elem_of_singleton in Hk as ->.
        right. exists bs. split; [left|done].
      * right. exists bs'. split; [by right|done].
    + intros [Hacc|(bs' & Hin & Hc)].
      * left. destruct (closest_to iteritems cur bs); [|done].
        apply elem_of_union. by left.
      * apply elem_of_cons in Hin as [[= -> ->]|Hin].
        -- left. rewrite Hc. apply elem_of_union. right. by apply elem_of_singleton.
        -- right. by exists bs'.
Qed.

(** The sequences of the bin afterwards: a scaffold of the file that is
    compatible is in the bin, and nothing else changes. *)
Lemma add_compatible_closest_lookup scaffolds genome_seqs lines cur k :
  (k ∉ compatible_scaffolds iteritems lines cur ->
     add_compatible_closest iteritems scaffolds genome_seqs lines cur !! k
     = genome_seqs !! k)
  /\ (k ∉ scaffolds.*1 ->
      add_compatible_closest iteritems scaffolds genome_seqs lines cur !! k
      = genome_seqs !! k)
  /\ (k ∈ compatible_scaffolds iteritems lines cur -> k ∈ scaffolds.*1 ->
      exists sq, (k, sq) ∈ scaffolds
                 /\ add_compatible_closest iteritems scaffolds genome_seqs lines cur !! k
                    = Some sq).
Proof.
  unfold add_compatible_closest. revert genome_seqs.
  induction scaffolds as [|[id sq] scaffolds IH]; intros genome_seqs; cbn [foldl fst snd].
  - split; [done|]. split; [done|]. intros _ Hin. by apply not_elem_of_nil in Hin.
  - destruct (IH (if bool_decide (id ∈ compatible_scaffolds iteritems lines cur)
                  then <[id := sq]> genome_seqs else genome_seqs))
      as (IH1 & IH2 & IH3).
    split; [|split].
    + intros Hk. rewrite IH1 by done. case_bool_decide; [|done].
      apply lookup_insert_ne. by intros ->.
    + intros Hk. rewrite fmap_cons in Hk. apply not_elem_of_cons in Hk as [Hk1 Hk2].
      rewrite IH2 by done. case_bool_decide; [|done].
      by apply lookup_insert_ne.
    + intros Hk Hin.
      destruct (decide (k ∈ scaffolds.*1)) as [Hrest|Hrest].
      * destruct (IH3 Hk Hrest) as (sq' & Hsq' & Hl). exists sq'.
        split; [by right|done].
      * rewrite fmap_cons in Hin. apply elem_of_cons in Hin as [Hid|Hin]; [|done].
        simpl in Hid. subst id. exists sq. split; [left|].
        rewrite IH2 by done. rewrite bool_decide_eq_true_2 by done.
        apply lookup_insert_eq.
Qed.

(** The scan, as the code has it.  [add_compatible_closest] admits a scaffold
    to the current bin exactly when, for each of the GC, TD and coverage
    distances, the current bin is the bin the scan of the scaffold's
    bins settles on: its distance is below 1e9, no bin met before it in
    the iteration order of the table is as close, and no bin met after
    it is closer.  Such a bin attains the least distance when the
    distances are numbers, and a bin strictly closer than all others in
    the three distances, below 1e9, is such a bin whatever the order.
    A scaffold whose GC and TD scans settle on
    [B] and whose coverage scan settles on another bin [C] is admitted
    to neither. *)
Theorem add_compatible_closest_accepts (lines : list CompatLine) (s : string) :
  (forall (V : Type) (d : gmap string V), iteritems V d ≡ₚ map_to_list d) ->
  (forall cur,
     s ∈ compatible_scaffolds iteritems lines cur
     <-> exists bin_stats,
           distance_table lines !! s = Some bin_stats
           /\ closest (gc_column (items bin_stats)) cur
           /\ closest (td_column (items bin_stats)) cur
           /\ closest (cov_column (items bin_stats)) cur)
  /\ (forall l B,
        (forall C w, (C, w) ∈ l -> is_nan w = false) -> closest l B -> least l B)
  /\ (forall bin_stats cur,
        distance_table lines !! s = Some bin_stats ->
        strictly_least (gc_column (items bin_stats)) cur ->
        strictly_least (td_column (items bin_stats)) cur ->
        strictly_least (cov_column (items bin_stats)) cur ->
        s ∈ compatible_scaffolds iteritems lines cur)
  /\ (forall bin_stats B C,
        distance_table lines !! s = Some bin_stats ->
        closest (gc_column (items bin_stats)) B ->
        closest (td_column (items bin_stats)) B ->
        closest (cov_column (items bin_stats)) C ->
        B <> C ->
        forall cur, s ∉ compatible_scaffolds iteritems lines cur)
  /\ (forall scaffolds genome_seqs cur,
        (s ∈ compatible_scaffolds iteritems lines cur -> s ∈ scaffolds.*1 ->
         exists sq, (s, sq) ∈ scaffolds
                    /\ add_compatible_closest iteritems scaffolds genome_seqs
                         lines cur !! s = Some sq)
        /\ (s ∉ compatible_scaffolds iteritems lines cur ->
            add_compatible_closest iteritems scaffolds genome_seqs lines cur !! s
            = genome_seqs !! s)).
Proof.
  intros Hperm.
  assert (Haccept : forall cur,
     s ∈ compatible_scaffolds iteritems lines cur
     <-> exists bin_stats,
           distance_table lines !! s = Some bin_stats
           /\ closest (gc_column (items bin_stats)) cur
           /\ closest (td_column (items bin_stats)) cur
           /\ closest (cov_column (items bin_stats)) cur).
  { intros cur. unfold compatible_scaffolds.
    rewrite elem_of_compatible_scaffolds_fold. split.
    - intros [Hin|(bs & Hin & Hc)]; [by apply not_elem_of_empty in Hin|].
      exists bs. split; [by apply (elem_of_iteritems _ Hperm)|].
      by apply closest_to_closest.
    - intros (bs & Hs & Hc). right. exists bs.
      split; [by apply (elem_of_iteritems _ Hperm)|].
      by apply closest_to_closest. }
  split; [exact Haccept|]. split; [apply closest_least|]. split; [|split].
  - intros bin_stats cur Hs Hgc Htd Hcov. apply Haccept. exists bin_stats.
    assert (NoDup (items bin_stats).*1) as Hnd.
    { rewrite (Hperm _ bin_stats). apply NoDup_fst_map_to_list. }
    split; [done|].
    split; [|split]; apply strictly_least_closest; try done;
      unfold gc_column, td_column, cov_column;
      by rewrite <- list_fmap_compose.
  - intros bin_stats B C Hs Hgc Htd Hcov Hne cur Hin.
    apply Haccept in Hin as (bs & Hs' & Hgc' & _ & Hcov').
    rewrite Hs in Hs'. injection Hs' as <-.
    apply Hne. rewrite (closest_unique _ B cur Hgc Hgc').
    by apply (closest_unique _ cur C Hcov' Hcov).
  - intros scaffolds genome_seqs cur.
    destruct (add_compatible_closest_lookup scaffolds genome_seqs lines cur s)
      as (H1 & _ & H3).
    by split.
Qed.
End ClosestTheorems.

Lemma least_intro (l : list (string * float)) (B : string) (v : float) :
  (B, v) ∈ l -> Forall (fun cw => (v <=? cw.2)%float = true) l -> Spec.least l B.
Proof.
  intros Hin Hall. exists v. split; [done|]. intros C w Hcw.
  rewrite Forall_forall in Hall. exact (Hall (C, w) Hcw).
Qed.

(** Two bins at the same GC distance of a scaffold, one of them closer
    in TD and coverage: whether the scaffold is admitted to that bin
    depends on the order in which the bins are met. *)
Lemma add_compatible_closest_accepts_witness :
  let lines :=
    [Ref.compat_line "s" "binB" 50 49 0.1 10 9;
     Ref.compat_line "s" "binC" 50 51 0.5 10 15]%float in
  "s" ∈ Outliers.compatible_scaffolds Ref.iteritems_rev lines "binB"
  <-> exists bin_stats,
        Outliers.distance_table lines !! "s" = Some bin_stats
        /\ Spec.closest (Spec.gc_column (Ref.iteritems_rev _ bin_stats)) "binB"
        /\ Spec.closest (Spec.td_column (Ref.iteritems_rev _ bin_stats)) "binB"
        /\ Spec.closest (Spec.cov_column (Ref.iteritems_rev _ bin_stats)) "binB".
Proof.
  intros lines.
  apply (proj1 (add_compatible_closest_accepts Ref.iteritems_rev lines "s"
                  (fun V d => reverse_Permutation (map_to_list d)))).
Defined.

(** C3.  The code fails the claim, and the description in its own
    docstring, by which a sequence is added to a bin if and only if it is
    closest to that bin in GC, tetranucleotide and coverage space.  A bin
    that attains the least GC, TD and coverage distance is not admitted
    when another bin at the same GC distance is met first, whichever way
    the table is iterated; and a single bin, least in every distance, is
    not admitted when one of its distances is 1e9 or more. *)
Lemma least_bin_not_added :
  let lines :=
    [Ref.compat_line "s" "binB" 50 49 0.1 10 9;
     Ref.compat_line "s" "binC" 50 51 0.5 10 15]%float in
  let table := [("binC", (1, 0.5, 5)); ("binB", (1, 0.1, 1))]%float in
  let mirrored :=
    [Ref.compat_line "s" "binC" 50 49 0.1 10 9;
     Ref.compat_line "s" "binB" 50 51 0.5 10 15]%float in
  let mirrored_table := [("binB", (1, 0.5, 5)); ("binC", (1, 0.1, 1))]%float in
  let far := [Ref.compat_line "s" "binB" 50 49 0.1 2e9 0]%float in
  let far_table := [("binB", (1, 0.1, 2e9))]%float in
  (Ref.iteritems _ <$> Outliers.distance_table lines !! "s" = Some table
   /\ Spec.least (Spec.gc_column table) "binB"
   /\ Spec.least (Spec.td_column table) "binB"
   /\ Spec.least (Spec.cov_column table) "binB"
   /\ ("s" ∉ Outliers.compatible_scaffolds Ref.iteritems lines "binB"))
  /\ (Ref.iteritems_rev _ <$> Outliers.distance_table mirrored !! "s"
      = Some mirrored_table
      /\ Spec.least (Spec.gc_column mirrored_table) "binC"
      /\ Spec.least (Spec.td_column mirrored_table) "binC"
      /\ Spec.least (Spec.cov_column mirrored_table) "binC"
      /\ ("s" ∉ Outliers.compatible_scaffolds Ref.iteritems_rev mirrored "binC"))
  /\ (Ref.iteritems _ <$> Outliers.distance_table far !! "s" = Some far_table
      /\ Ref.iteritems_rev _ <$> Outliers.distance_table far !! "s" = Some far_table
      /\ Spec.least (Spec.gc_column far_table) "binB"
      /\ Spec.least (Spec.td_column far_table) "binB"
      /\ Spec.least (Spec.cov_column far_table) "binB"
      /\ ("s" ∉ Outliers.compatible_scaffolds Ref.iteritems far "binB")
      /\ ("s" ∉ Outliers.compatible_scaffolds Ref.iteritems_rev far "binB")).
Proof.
  cbv zeta.
  assert (forall (X : gset string), bool_decide ("s" ∈ X) = false -> "s" ∉ X)
    as not_in by (intros X; apply bool_decide_eq_false).
  repeat split;
    first [ vm_compute; reflexivity
          | apply not_in; vm_compute; reflexivity
          | eapply least_intro;
            [ first [ apply list_elem_of_here
                    | apply list_elem_of_further, list_elem_of_here ]
            | repeat constructor ] ].
Qed.

(** ** Further properties of [WindowGen] *)

Section ArgumentFacts.
Variable str_to_int : string -> option Z.
Variable str_to_float : string -> option float.

Local Abbreviation make_windows := (make_windows str_to_int str_to_float).
Local Abbreviation check_arg := (check_arg str_to_int str_to_float).
Local Abbreviation type_convert := (type_convert str_to_int str_to_float).

(** [make_windows] sees an argument only through its check. *)
Lemma make_windows_check_size seq_info ws ws' wg :
  check_arg ws = Ok ws' -> check_arg ws' = Ok ws' ->
  make_windows seq_info ws wg = make_windows seq_info ws' wg.
Proof.
  intros H H'. destruct seq_info as [seq_id sequence].
  unfold make_windows, WindowGen.make_windows. by rewrite H, H'.
Qed.

Lemma make_windows_check_gap seq_info ws wg wg' :
  check_arg wg = Ok wg' -> check_arg wg' = Ok wg' ->
  make_windows seq_info ws wg = make_windows seq_info ws wg'.
Proof.
  intros H H'. destruct seq_info as [seq_id sequence].
  unfold make_windows, WindowGen.make_windows. by rewrite H, H'.
Qed.

Lemma int_or_long_int (n : Z) :
  - maxint - 1 <= n <= maxint -> int_or_long n = PInt n.
Proof.
  intros H. unfold int_or_long.
  destruct (Z.leb_spec (- maxint - 1) n), (Z.leb_spec n maxint); simpl; (done || lia).
Qed.

Lemma int_or_long_long (n : Z) :
  n < - maxint - 1 \/ maxint < n -> int_or_long n = PLong n.
Proof.
  intros H. unfold int_or_long.
  destruct (Z.leb_spec (- maxint - 1) n), (Z.leb_spec n maxint); simpl; (done || lia).
Qed.

(** X1.  A window size or gap given as a string is the number the string
    denotes.  [int] is tried first: a string that [int] accepts, within
    the machine word, is an absolute length in bases, and only a string
    that [int] refuses and [float] accepts is a proportion of the
    sequence. *)
Theorem make_windows_numeric_strings (seq_info : string * list ascii)
    (s : string) (other : pyval) :
  (forall n : Z,
     str_to_int s = Some n -> - maxint - 1 <= n <= maxint ->
     make_windows seq_info (PStr s) other = make_windows seq_info (PInt n) other
     /\ make_windows seq_info other (PStr s) = make_windows seq_info other (PInt n))
  /\ (forall f : float,
        str_to_int s = None -> str_to_float s = Some f ->
        make_windows seq_info (PStr s) other = make_windows seq_info (PFloat f) other
        /\ make_windows seq_info other (PStr s)
           = make_windows seq_info other (PFloat f)).
Proof.
  split.
  - intros n Hn Hr.
    assert (check_arg (PStr s) = Ok (PInt n)) as H.
    { simpl. unfold WindowGen.type_convert. by rewrite Hn, int_or_long_int. }
    split; [by apply make_windows_check_size | by apply make_windows_check_gap].
  - intros f Hn Hf.
    assert (check_arg (PStr s) = Ok (PFloat f)) as H.
    { simpl. unfold WindowGen.type_convert. by rewrite Hn, Hf. }
    split; [by apply make_windows_check_size | by apply make_windows_check_gap].
Qed.

(** X2.  A string that denotes an integer beyond the machine word is
    converted to a [long], which is neither an [int] nor a [float]:
    with the other argument an [int] or a [float], [make_windows]
    prints its message and raises a type error, for the window size as
    for the gap; and whatever the other argument is, no window is
    returned. *)
Theorem make_windows_long_string (seq_info : string * list ascii)
    (s : string) (n : Z) :
  str_to_int s = Some n ->
  n < - maxint - 1 \/ maxint < n ->
  type_convert s = Ok (PLong n)
  /\ (forall other,
        is_int other = true \/ is_float other = true ->
        make_windows seq_info (PStr s) other
        = ([type_error_message], Raise TypeError)
        /\ make_windows seq_info other (PStr s)
           = ([type_error_message], Raise TypeError))
  /\ (forall other,
        (exists out e, make_windows seq_info (PStr s) other = (out, Raise e))
        /\ (exists out e, make_windows seq_info other (PStr s) = (out, Raise e))).
Proof.
  intros Hn Hr.
  assert (type_convert s = Ok (PLong n)) as H.
  { unfold type_convert, WindowGen.type_convert. by rewrite Hn, int_or_long_long. }
  destruct seq_info as [seq_id sequence].
  split; [done|]. split.
  - intros other [Ho|Ho]; destruct other; try discriminate Ho;
      unfold make_windows, WindowGen.make_windows; simpl;
      fold type_convert; rewrite H; done.
  - intros other. split.
    + unfold make_windows, WindowGen.make_windows. simpl. fold type_convert.
      rewrite H. destruct (WindowGen.check_arg _ _ other) as [w|e]; [|by eauto].
      destruct w; simpl; eauto.
    + unfold make_windows, WindowGen.make_windows.
      destruct (WindowGen.check_arg _ _ other) as [w|e] eqn:Hw; [|by eauto].
      simpl. fold type_convert. rewrite H.
      destruct w; simpl; eauto.
Qed.

End ArgumentFacts.

Section WindowInvariants.
Import Spec.
Variable str_to_int : string -> option Z.
Variable str_to_float : string -> option float.

Local Abbreviation make_windows := (make_windows str_to_int str_to_float).
Local Abbreviation check_arg := (check_arg str_to_int str_to_float).

Lemma range_offsets (L stride : Z) (offsets : list Z) :
  0 <= L -> range 0 L stride = Ok offsets ->
  stride <> 0 /\ offsets = stride_offsets L stride.
Proof.
  intros HL H. unfold stride_offsets.
  destruct (Z.ltb_spec 0 stride) as [Hs|Hs].
  - rewrite range_positive in H by done. split; [lia | congruence].
  - destruct (decide (stride = 0)) as [->|Hne]; [discriminate H|].
    rewrite range_negative in H by lia. split; [done | congruence].
Qed.

Lemma elem_of_stride_offsets (L stride i : Z) :
  i ∈ stride_offsets L stride
  <-> 0 < stride /\ exists k, 0 <= k /\ i = k * stride /\ i < L.
Proof.
  unfold stride_offsets. destruct (Z.ltb_spec 0 stride) as [Hs|Hs].
  - rewrite elem_of_range_positive by done. split; [by auto|by intros [_ ?]].
  - split; [by intros ?%elem_of_nil | lia].
Qed.

Lemma NoDup_stride_offsets (L stride : Z) : NoDup (stride_offsets L stride).
Proof.
  unfold stride_offsets. destruct (Z.ltb_spec 0 stride) as [Hs|Hs].
  - apply NoDup_fmap_2; [|apply NoDup_seqZ]. intros a b Hab. nia.
  - constructor.
Qed.

Lemma elem_of_kept_offsets (sequence : list ascii) (size stride i : Z) :
  i ∈ kept_offsets sequence size stride
  <-> i ∈ stride_offsets (len sequence) stride
      /\ 100 <= len (slice sequence i (i + size)).
Proof. unfold kept_offsets. by rewrite list_elem_of_filter, (comm and). Qed.

Lemma NoDup_kept_offsets (sequence : list ascii) (size stride : Z) :
  NoDup (kept_offsets sequence size stride).
Proof. apply NoDup_filter, NoDup_stride_offsets. Qed.

Lemma filter_none {A} (P : A -> Prop) `{!forall x, Decision (P x)} (l : list A) :
  Forall (fun x => ~ P x) l -> filter P l = [].
Proof.
  induction 1 as [|x l Hx _ IH]; [done|].
  rewrite filter_cons. by destruct (decide (P x)).
Qed.

(** What a call of [make_windows] that returns has computed. *)
Lemma make_windows_ok seq_id sequence ws wg out ids wins :
  make_windows (seq_id, sequence) ws wg = (out, Ok (ids, wins)) ->
  out = []
  /\ exists ws' wg' size gap,
       check_arg ws = Ok ws' /\ check_arg wg = Ok wg'
       /\ absolute_lengths (len sequence) ws' wg' = Ok (size, gap)
       /\ size + gap <> 0
       /\ ids = (fun i => window_id seq_id i (Z.min (i + size) (len sequence)))
                  <$> kept_offsets sequence size (size + gap)
       /\ wins = (fun i => slice sequence i (i + size))
                   <$> kept_offsets sequence size (size + gap).
Proof.
  unfold make_windows, WindowGen.make_windows. fold check_arg.
  destruct (check_arg ws) as [ws'|] eqn:Hws; [|done].
  destruct (check_arg wg) as [wg'|] eqn:Hwg; [|done].
  unfold try_windows.
  destruct (absolute_lengths _ ws' wg') as [[size gap]|e] eqn:Habs;
    cbn [mbind res_bind]; [|by destruct e].
  destruct (range 0 _ (size + gap)) as [offsets|e] eqn:Hr;
    cbn [mbind res_bind]; [|by destruct e].
  apply range_offsets in Hr as [Hne ->]; [|apply len_nonneg].
  rewrite window_loop. cbn [fst snd app]. intros [= <- <- <-].
  split; [done|]. by exists ws', wg', size, gap.
Qed.

(** X3.  Whatever the arguments, a call of [make_windows] that returns
    has printed nothing and returns as many ids as windows, the window
    at each position being the slice its id was made for: a slice cut at
    an offset inside the sequence, of at least 100 bases and never
    longer than the sequence.  From a sequence of fewer than 100 bases
    no window is made. *)
Theorem make_windows_invariants seq_id sequence ws wg out ids wins :
  make_windows (seq_id, sequence) ws wg = (out, Ok (ids, wins)) ->
  out = []
  /\ List.length ids = List.length wins
  /\ (exists (size : Z) (offsets : list Z),
        ids = (fun i => window_id seq_id i (Z.min (i + size) (len sequence)))
                <$> offsets
        /\ wins = (fun i => slice sequence i (i + size)) <$> offsets
        /\ Forall (fun i => 0 <= i < len sequence) offsets)
  /\ Forall (fun w => 100 <= len w <= len sequence /\ sublist w sequence) wins
  /\ (len sequence < 100 -> ids = [] /\ wins = []).
Proof.
  intros H. apply make_windows_ok in H
    as (-> & ws' & wg' & size & gap & _ & _ & _ & Hne & -> & ->).
  pose proof (len_nonneg sequence) as HL.
  assert (Forall (fun w => 100 <= len w <= len sequence /\ sublist w sequence)
            ((fun i => slice sequence i (i + size))
               <$> kept_offsets sequence size (size + gap))) as Hw.
  { apply Forall_fmap, Forall_forall. intros i [Hi Hlen]%elem_of_kept_offsets.
    cbn. split; [|apply slice_sublist].
    split; [done|].
    pose proof (sublist_length _ _ (slice_sublist sequence i (i + size))) as Hl.
    unfold len. lia. }
  split; [done|]. split; [by rewrite !length_fmap|]. split; [|split; [done|]].
  - exists size, (kept_offsets sequence size (size + gap)).
    split; [done|]. split; [done|].
    apply Forall_forall. intros i [Hi _]%elem_of_kept_offsets.
    apply elem_of_stride_offsets in Hi as (Hs & k & Hk & -> & Hlt). nia.
  - intros Hshort.
    destruct (kept_offsets sequence size (size + gap)) as [|i l]; [done|].
    apply Forall_cons in Hw as [[Hw _] _]. lia.
Qed.

(** No slice of fewer than 100 bases is kept. *)
Lemma kept_offsets_small (sequence : list ascii) (size stride : Z) :
  0 <= size < 100 -> kept_offsets sequence size stride = [].
Proof.
  intros Hsize. unfold kept_offsets. apply filter_none, Forall_forall.
  intros i Hi. pose proof (len_nonneg sequence). slice_lia.
Qed.

(** X4.  An [int] window size of 0 to 99 bases yields no window at all,
    whatever the sequence and whatever is given for the gap: every slice
    is shorter than the 100 bases a window needs.  A call that returns
    has printed nothing and returns two empty lists.  With a gap that
    stands for an absolute length, an [int] or a proportion that
    converts, the call returns, unless size and gap add up to 0, which
    [range] refuses. *)
Theorem make_windows_small_size seq_id sequence (size : Z) (window_gap : pyval) :
  0 <= size < 100 ->
  (forall out ids wins,
     make_windows (seq_id, sequence) (PInt size) window_gap = (out, Ok (ids, wins)) ->
     out = [] /\ ids = [] /\ wins = [])
  /\ (forall gap : Z,
        absolute (len sequence) window_gap gap ->
        make_windows (seq_id, sequence) (PInt size) window_gap
        = ([], if size + gap =? 0 then Raise ValueError else Ok ([], []))).
Proof.
  intros Hsize. split.
  - intros out ids wins H. apply make_windows_ok in H
      as (-> & ws' & wg' & size' & gap & Hws & _ & Habs & _ & -> & ->).
    injection Hws as <-.
    assert (size' = size) as ->.
    { destruct wg' as [| g | | f |]; cbn in Habs; try done.
      - by injection Habs as <- _.
      - destruct (int_of_float _); cbn in Habs; [|done].
        by injection Habs as <- _. }
    by rewrite kept_offsets_small.
  - intros gap Hgap.
    assert (make_windows (seq_id, sequence) (PInt size) window_gap
            = make_windows (seq_id, sequence) (PInt size) (PInt gap)) as ->.
    { destruct window_gap as [| g | | f |]; cbn in Hgap; try done.
      - by subst.
      - by apply proportional_gap. }
    rewrite make_windows_kept. by rewrite kept_offsets_small.
Qed.

End WindowInvariants.

Section NotANumber.
Import Spec.
Variable str_to_int : string -> option Z.
Variable str_to_float : string -> option float.

Local Abbreviation make_windows := (make_windows str_to_int str_to_float).

Lemma Prim2SF_nan (f : float) : is_nan f = true -> Prim2SF f = S754_nan.
Proof.
  intros H%is_nan_key. unfold key in H.
  destruct (Prim2SF f) as [| [] | |[]]; by try discriminate H.
Qed.

Lemma int_of_float_nan (f x : float) :
  is_nan f = true ->
  int_of_float (f * x) = Raise ValueError
  /\ int_of_float (x * f) = Raise ValueError.
Proof.
  intros H%Prim2SF_nan. unfold int_of_float.
  rewrite !mul_spec, H. split; [done|].
  unfold SF64mul, SFmul. by destruct (Prim2SF x).
Qed.

(** X5.  A proportion that is not a number is not a type error: the
    conversion [int (nan * length)] raises [ValueError], which the
    handler of [make_windows] does not catch, so that nothing is
    printed.  This holds for a NaN window size beside any [int] or
    [float] gap, and for a NaN gap beside an [int] size or a [float]
    size that converts. *)
Theorem make_windows_nan (seq_info : string * list ascii) (f : float) :
  is_nan f = true ->
  (forall other,
     is_int other = true \/ is_float other = true ->
     make_windows seq_info (PFloat f) other = ([], Raise ValueError))
  /\ (forall n : Z,
        make_windows seq_info (PInt n) (PFloat f) = ([], Raise ValueError))
  /\ (forall (g : float) (n : Z),
        int_of_float (g * float_of_int (len seq_info.2)) = Ok n ->
        make_windows seq_info (PFloat g) (PFloat f) = ([], Raise ValueError)).
Proof.
  intros Hf. destruct seq_info as [seq_id sequence].
  pose proof (int_of_float_nan f (float_of_int (len sequence)) Hf) as [Hnan _].
  split; [|split].
  - intros other [Ho|Ho]; destruct other; try discriminate Ho;
      unfold make_windows, WindowGen.make_windows, try_windows; simpl;
      by rewrite Hnan.
  - intros n. unfold make_windows, WindowGen.make_windows, try_windows. simpl.
    by rewrite Hnan.
  - intros g n Hg. cbn [snd] in Hg.
    unfold make_windows, WindowGen.make_windows, try_windows. simpl.
    by rewrite Hg, Hnan.
Qed.

End NotANumber.

Lemma make_windows_nan_witness :
  (forall other,
     is_int other = true \/ is_float other = true ->
     WindowGen.make_windows Ref.str_to_int Ref.str_to_float
       ("s", replicate 250 "A"%char) (PFloat nan) other = ([], Raise ValueError))
  /\ (forall n : Z,
        WindowGen.make_windows Ref.str_to_int Ref.str_to_float
          ("s", replicate 250 "A"%char) (PInt n) (PFloat nan)
        = ([], Raise ValueError))
  /\ (forall (g : float) (n : Z),
        int_of_float (g * float_of_int (len (replicate 250 "A"%char))) = Ok n ->
        WindowGen.make_windows Ref.str_to_int Ref.str_to_float
          ("s", replicate 250 "A"%char) (PFloat g) (PFloat nan)
        = ([], Raise ValueError)).
Proof.
  apply (make_windows_nan Ref.str_to_int Ref.str_to_float
           ("s", replicate 250 "A"%char) nan).
  reflexivity.
Defined.

Section WindowIds.
Import Spec.
Variable str_to_int : string -> option Z.
Variable str_to_float : string -> option float.

Local Abbreviation make_windows := (make_windows str_to_int str_to_float).

Lemma append_inj_l (s a b : string) : s +:+ a = s +:+ b -> a = b.
Proof.
  induction s as [|c s IH]; [by rewrite !append_nil_l|].
  rewrite !append_cons. intros [= H]. by apply IH.
Qed.

(** Two texts free of a character that are followed by it are equal
    when the whole strings are. *)
Lemma append_cut (c : ascii) (a a' r r' : string) :
  occurs c a = false -> occurs c a' = false ->
  a +:+ String c r = a' +:+ String c r' -> a = a' /\ r = r'.
Proof.
  revert a'. induction a as [|x a IH]; intros [|x' a'] Ha Ha';
    rewrite ?append_nil_l, ?append_cons.
  - by intros [= ->].
  - intros [= <- _]. simpl in Ha'. by rewrite Ascii.eqb_refl in Ha'.
  - intros [= -> _]. simpl in Ha. by rewrite Ascii.eqb_refl in Ha.
  - intros [= -> H]. simpl in Ha, Ha'.
    apply orb_false_iff in Ha as [_ Ha]. apply orb_false_iff in Ha' as [_ Ha'].
    destruct (IH a' Ha Ha' H) as [-> ->]. done.
Qed.

Lemma occurs_t_uint (d : Decimal.uint) :
  occurs "t" (NilEmpty.string_of_uint d) = false.
Proof. induction d; simpl; auto. Qed.

Lemma occurs_t_str_of_int (n : Z) : occurs "t" (str_of_int n) = false.
Proof.
  unfold str_of_int, NilZero.string_of_int, NilZero.string_of_uint.
  destruct (Z.to_int n) as [d|d]; destruct d; simpl; auto using occurs_t_uint.
Qed.

Lemma to_int_nonnil (n : Z) :
  Z.to_int n <> Decimal.Pos Decimal.Nil /\ Z.to_int n <> Decimal.Neg Decimal.Nil.
Proof.
  pose proof (DecimalZ.to_of (Z.to_int n)) as H. rewrite DecimalZ.of_to in H.
  split; intros E; rewrite E in H; discriminate H.
Qed.

Lemma str_of_int_inj (n m : Z) : str_of_int n = str_of_int m -> n = m.
Proof.
  unfold str_of_int. intros H.
  apply DecimalZ.to_int_inj.
  destruct (to_int_nonnil n) as [Hn1 Hn2], (to_int_nonnil m) as [Hm1 Hm2].
  pose proof (NilZero.isi _ Hn1 Hn2) as En.
  pose proof (NilZero.isi _ Hm1 Hm2) as Em.
  rewrite H in En. congruence.
Qed.

Lemma window_id_eq (seq_id seq_id' : string) (i j i' j' : Z) :
  window_id seq_id i j = window_id seq_id' i' j' ->
  seq_id = seq_id' /\ i = i' /\ j = j'.
Proof.
  intros H.
  assert (seq_id = seq_id') as <-.
  { apply (f_equal parent_id) in H. rewrite !parent_id_window_id in H.
    congruence. }
  split; [done|]. unfold window_id in H.
  apply append_inj_l, append_inj_l in H.
  change ("to" +:+ str_of_int j)
    with (String "t" (String "o" (str_of_int j))) in H.
  change ("to" +:+ str_of_int j')
    with (String "t" (String "o" (str_of_int j'))) in H.
  apply append_cut in H as [Hi [= Hj]]; auto using occurs_t_str_of_int.
  split; by apply str_of_int_inj.
Qed.

Lemma make_windows_ids_NoDup seq_id sequence ws wg out ids wins :
  make_windows (seq_id, sequence) ws wg = (out, Ok (ids, wins)) -> NoDup ids.
Proof.
  intros H.
  apply make_windows_ok in H
    as (_ & ws' & wg' & size & gap & _ & _ & _ & _ & -> & _).
  apply NoDup_fmap_2_strong; [|apply NoDup_kept_offsets].
  intros a b _ _ Hab. by apply window_id_eq in Hab as (_ & ? & _).
Qed.

(** X6.  A window id determines the scaffold, the offset and the end it
    was made from: two ids are equal only when all three are.  The ids
    one call of [make_windows] returns are therefore pairwise distinct,
    and the ids made from two different scaffolds never collide. *)
Theorem window_id_inj (seq_id seq_id' : string) (i j i' j' : Z) :
  (window_id seq_id i j = window_id seq_id' i' j'
   <-> seq_id = seq_id' /\ i = i' /\ j = j')
  /\ (forall sequence ws wg out ids wins,
        make_windows (seq_id, sequence) ws wg = (out, Ok (ids, wins)) ->
        NoDup ids
        /\ forall sequence' ws' wg' out' ids' wins' id,
             seq_id <> seq_id' ->
             make_windows (seq_id', sequence') ws' wg' = (out', Ok (ids', wins')) ->
             id ∈ ids -> id ∉ ids').
Proof.
  split.
  - split; [apply window_id_eq | by intros (-> & -> & ->)].
  - intros sequence ws wg out ids wins H.
    split; [by eapply make_windows_ids_NoDup|].
    intros sequence' ws' wg' out' ids' wins' id Hne H' Hin Hin'.
    apply make_windows_parent in H, H'. rewrite Forall_forall in H, H'.
    specialize (H _ Hin). specialize (H' _ Hin'). congruence.
Qed.

End WindowIds.

Section StoredWindows.
Import Spec.
Variable str_to_int : string -> option Z.
Variable str_to_float : string -> option float.
Variable iteritems : forall V : Type, gmap string V -> list (string * V).

Local Abbreviation make_windows := (make_windows str_to_int str_to_float).
Local Abbreviation read_windows := (read_windows str_to_int str_to_float).
Local Abbreviation write_windows := (write_windows str_to_int str_to_float iteritems).

(** Distinct ids are stored side by side. *)
Lemma store_windows_union (d : gmap string (list ascii)) ids wins :
  List.length ids = List.length wins -> NoDup ids ->
  store_windows d (ids, wins) = list_to_map (zip ids wins) ∪ d.
Proof.
  intros Hlen Hnd. unfold store_windows. cbn [fst snd].
  assert (forall n, (n <= List.length ids)%nat ->
            foldl (fun d i =>
                     match ids !! i, wins !! i with
                     | Some k, Some w => <[k := w]> d
                     | _, _ => d
                     end) d (seq 0 n)
            = list_to_map (zip (take n ids) (take n wins)) ∪ d) as H.
  { induction n as [|n IH]; intros Hn.
    - rewrite !take_0. change (d = ∅ ∪ d). by rewrite (left_id_L ∅ (∪)).
    - rewrite seq_S, foldl_app, IH by lia. cbn [foldl Nat.add].
      destruct (lookup_lt_is_Some_2 ids n) as [k Hk]; [lia|].
      destruct (lookup_lt_is_Some_2 wins n) as [w Hw]; [lia|].
      rewrite Hk, Hw, (take_S_r ids n k), (take_S_r wins n w) by done.
      rewrite zip_with_app by (rewrite !length_take; lia).
      cbn [zip_with]. rewrite list_to_map_snoc, insert_union_l; [done|].
      rewrite fst_zip by (rewrite !length_take; lia).
      intros (j & Hj)%list_elem_of_lookup.
      apply lookup_take_Some in Hj as [Hj Hlt].
      pose proof (NoDup_lookup _ _ _ _ Hnd Hj Hk). lia. }
  rewrite H by done. by rewrite (firstn_all ids), Hlen, (firstn_all wins).
Qed.

Lemma lookup_zip_Some {A B} (l : list A) (k : list B) (a : A) (b : B) :
  (a, b) ∈ zip l k <-> exists i, l !! i = Some a /\ k !! i = Some b.
Proof.
  rewrite list_elem_of_lookup. split; intros [i Hi]; exists i.
  - apply lookup_zip_with_Some in Hi as (x & y & [= -> ->] & ? & ?). done.
  - apply lookup_zip_with_Some. exists a, b. by destruct Hi.
Qed.

(** The windows of the calls of [make_windows] that [read_windows]
    makes, scaffold by scaffold. *)
Lemma read_windows_ok seqs ws wg seq_win_id window_dict out d wd :
  read_windows seqs ws wg seq_win_id window_dict = (out, Ok (d, wd)) ->
  out = []
  /\ exists Ws : list Windows,
       Forall2 (fun sq W => make_windows sq ws wg = ([], Ok W)) seqs Ws
       /\ d = foldl (fun m (x : (string * list ascii) * Windows) =>
                       <[x.1.1 := x.2.1]> m) seq_win_id (zip seqs Ws)
       /\ wd = foldl store_windows window_dict Ws.
Proof.
  revert seq_win_id window_dict out.
  induction seqs as [|[seq_id sequence] rest IH]; intros swi wdict out.
  - intros [= <- <- <-]. split; [done|]. exists []. by repeat split.
  - change (read_windows ((seq_id, sequence) :: rest) ws wg swi wdict)
      with (match make_windows (seq_id, sequence) ws wg with
            | (out, Raise e) => (out, Raise e)
            | (out, Ok W) =>
                let '(out', r) :=
                  read_windows rest ws wg (<[seq_id := W.1]> swi)
                    (store_windows wdict W) in
                (out ++ out', r)
            end).
    destruct (make_windows (seq_id, sequence) ws wg) as [o [W|e]] eqn:HW; [|done].
    destruct (read_windows rest ws wg _ _) as [o' r] eqn:Hr.
    intros [= <- ->]. apply IH in Hr as (-> & Ws & HF & -> & ->).
    destruct W as [ids wins]. pose proof HW as (-> & _)%make_windows_ok.
    split; [done|]. exists ((ids, wins) :: Ws). split; [by constructor|done].
Qed.

Lemma stored_lookup (sw : list (string * Windows)) :
  NoDup sw.*1 ->
  Forall (fun x : string * Windows =>
            List.length x.2.1 = List.length x.2.2 /\ NoDup x.2.1
            /\ Forall (fun id => parent_id id = Some x.1) x.2.1) sw ->
  forall (d : gmap string (list ascii)) id w,
    foldl store_windows d sw.*2 !! id = Some w
    <-> (exists x k, x ∈ sw /\ x.2.1 !! k = Some id /\ x.2.2 !! k = Some w)
        \/ (d !! id = Some w /\ forall x, x ∈ sw -> id ∉ x.2.1).
Proof.
  induction sw as [|[s [ids wins]] sw IH]; intros Hnd HF d id w;
    rewrite ?fmap_cons; cbn [foldl snd fmap list_fmap].
  - split; [intros ?; right; split; [done|by intros ? ?%elem_of_nil]|].
    intros [(x & k & ?%elem_of_nil & _)|[? _]]; done.
  - rewrite fmap_cons in Hnd. apply NoDup_cons in Hnd as [Hs Hnd]. cbn [fst] in Hs.
    apply Forall_cons in HF as [(Hlen & Hids & Hpar) HF]. cbn in Hlen, Hids, Hpar.
    rewrite IH, store_windows_union by done.
    assert (forall x, x ∈ sw -> id ∈ ids -> id ∈ x.2.1 -> False) as Hfresh.
    { intros [s' W'] Hx Hin Hin'.
      rewrite Forall_forall in HF. destruct (HF _ Hx) as (_ & _ & Hp').
      rewrite Forall_forall in Hpar, Hp'. cbn in Hin', Hp'.
      specialize (Hpar _ Hin). specialize (Hp' _ Hin').
      assert (s = s') as -> by congruence.
      apply Hs, list_elem_of_fmap. by exists (s', W'). }
    split.
    + intros [(x & k & Hx & Hk)|[Hl Hno]].
      * left. exists x, k. split; [by right|done].
      * apply lookup_union_Some_raw in Hl as [Hl|[Hnone Hl]].
        -- left. apply elem_of_list_to_map_2, lookup_zip_Some in Hl as [k Hk].
           exists (s, (ids, wins)), k. split; [by left|done].
        -- right. split; [done|]. intros x [->|Hx]%elem_of_cons; [|by auto].
           cbn. apply not_elem_of_list_to_map_2 in Hnone.
           by rewrite fst_zip in Hnone by lia.
    + intros [(x & k & [->|Hx]%elem_of_cons & Hk1 & Hk2)|[Hl Hno]].
      * right. cbn in Hk1, Hk2. split.
        -- apply lookup_union_Some_raw. left.
           apply elem_of_list_to_map_1; [by rewrite fst_zip by lia|].
           apply lookup_zip_Some. eauto.
        -- intros x Hx Hin. apply (Hfresh x Hx); [|done].
           by eapply list_elem_of_lookup_2.
      * left. by exists x, k.
      * right. split.
        -- apply lookup_union_Some_raw. right. split; [|done].
           apply not_elem_of_list_to_map_1. rewrite fst_zip by lia.
           apply (Hno (s, (ids, wins))). by left.
        -- intros x Hx. apply Hno. by right.
Qed.

Lemma stored_size (sw : list (string * Windows)) :
  NoDup sw.*1 ->
  Forall (fun x : string * Windows =>
            List.length x.2.1 = List.length x.2.2 /\ NoDup x.2.1
            /\ Forall (fun id => parent_id id = Some x.1) x.2.1) sw ->
  forall d : gmap string (list ascii),
    (forall x id, x ∈ sw -> id ∈ x.2.1 -> d !! id = None) ->
    size (foldl store_windows d sw.*2)
    = (size d + List.length (sw ≫= fun x => x.2.1))%nat.
Proof.
  induction sw as [|[s [ids wins]] sw IH]; intros Hnd HF d Hd;
    rewrite ?fmap_cons; cbn [foldl snd fmap list_fmap mbind list_bind].
  - cbn. lia.
  - rewrite fmap_cons in Hnd. apply NoDup_cons in Hnd as [Hs Hnd]. cbn [fst] in Hs.
    apply Forall_cons in HF as [(Hlen & Hids & Hpar) HF]. cbn in Hlen, Hids, Hpar.
    rewrite store_windows_union by done.
    rewrite IH; [|done|done|].
    + rewrite map_size_disj_union, map_size_list_to_map, length_zip_with, length_app.
      * cbn [fst]. lia.
      * by rewrite fst_zip by lia.
      * apply map_disjoint_list_to_map_zip_l_2; [done|].
        apply Forall_forall. intros id Hid.
        apply (Hd (s, (ids, wins))); [by left|done].
    + intros [s' W'] id Hx Hin. apply lookup_union_None. split.
      * apply not_elem_of_list_to_map_1. rewrite fst_zip by lia. intros Hin'.
        rewrite Forall_forall in HF. destruct (HF _ Hx) as (_ & _ & Hp').
        rewrite Forall_forall in Hpar, Hp'. cbn in Hin, Hp'.
        specialize (Hpar _ Hin'). specialize (Hp' _ Hin).
        assert (s = s') as -> by congruence.
        apply Hs, list_elem_of_fmap. by exists (s', W').
      * apply (Hd (s', W')); [by right|done].
Qed.

Lemma seq_win_id_map (seqs : list (string * list ascii)) (Ws : list Windows)
    (m : gmap string (list string)) :
  NoDup seqs.*1 ->
  foldl (fun m (x : (string * list ascii) * Windows) => <[x.1.1 := x.2.1]> m)
    m (zip seqs Ws)
  = list_to_map (zip seqs.*1 Ws.*1) ∪ m.
Proof.
  revert Ws m. induction seqs as [|[s sequence] seqs IH]; intros Ws m Hnd.
  - change (m = ∅ ∪ m). by rewrite (left_id_L ∅ (∪)).
  - destruct Ws as [|W Ws]; [change (m = ∅ ∪ m); by rewrite (left_id_L ∅ (∪))|].
    rewrite fmap_cons in Hnd. apply NoDup_cons in Hnd as [Hs Hnd].
    cbn [zip_with foldl fst snd fmap list_fmap]. rewrite IH by done.
    change (list_to_map ((s, W.1) :: zip seqs.*1 Ws.*1))
      with (<[s := W.1]> (list_to_map (zip seqs.*1 Ws.*1)
                            : gmap string (list string))).
    rewrite <- insert_union_l, <- insert_union_r; [done|].
    apply not_elem_of_list_to_map_1.
    intros ([a b] & -> & Hin%elem_of_zip_l)%list_elem_of_fmap. done.
Qed.

(** X7.  On a scaffold file whose records have distinct ids,
    [write_windows] stores every window that [make_windows] makes, under
    its id and unchanged, and nothing else: no window overwrites
    another.  The number it prints is the number of windows made, and
    the links file receives the lines of a dictionary that maps each
    scaffold to the ids of its windows. *)
Theorem write_windows_stores seqs ws wg links_file out window_dict links :
  NoDup seqs.*1 ->
  write_windows seqs ws wg links_file = (out, Ok (window_dict, links)) ->
  (forall id w,
     window_dict !! id = Some w
     <-> exists seq_id sequence ids wins (k : nat),
           (seq_id, sequence) ∈ seqs
           /\ make_windows (seq_id, sequence) ws wg = ([], Ok (ids, wins))
           /\ ids !! k = Some id /\ wins !! k = Some w)
  /\ (exists Ws : list Windows,
        Forall2 (fun sq W => make_windows sq ws wg = ([], Ok W)) seqs Ws
        /\ size window_dict = List.length (Ws ≫= fst)
        /\ out = str_of_int (Z.of_nat (List.length (Ws ≫= fst)))
                   :: match links_file with
                      | Some _ => [append_message]
                      | None => []
                      end
        /\ links = default [] links_file
                     ++ (iteritems _ (list_to_map (zip seqs.*1 Ws.*1)
                                        : gmap string (list string))
                           ≫= fun sw => link_lines sw.2)).
Proof.
  intros Hnd. unfold write_windows, WindowGen.write_windows.
  fold read_windows.
  destruct (read_windows seqs ws wg ∅ ∅) as [o [[swi wd]|e]] eqn:Hr; [|done].
  apply read_windows_ok in Hr as (-> & Ws & HF & -> & ->).
  pose proof (Forall2_length _ _ _ HF) as Hlen.
  set (sw := zip seqs.*1 Ws).
  assert (sw.*1 = seqs.*1) as Hsw1
    by (unfold sw; rewrite fst_zip; [done | rewrite length_fmap; lia]).
  assert (sw.*2 = Ws) as Hsw2
    by (unfold sw; rewrite snd_zip; [done | rewrite length_fmap; lia]).
  assert (forall x, x ∈ sw ->
            exists sequence, (x.1, sequence) ∈ seqs
              /\ make_windows (x.1, sequence) ws wg = ([], Ok x.2)) as Hsw.
  { intros [s W] (i & Hi)%list_elem_of_lookup.
    apply lookup_zip_with_Some in Hi as (s' & W' & [= <- <-] & Hs & HW).
    apply list_lookup_fmap_Some in Hs as ([s'' sequence] & -> & Hs).
    pose proof (Forall2_lookup_lr _ _ _ _ _ _ HF Hs HW) as HW'. cbv beta in HW'.
    cbn [fst snd].
    exists sequence. split; [by eapply list_elem_of_lookup_2|done]. }
  assert (Forall (fun x : string * Windows =>
            List.length x.2.1 = List.length x.2.2 /\ NoDup x.2.1
            /\ Forall (fun id => parent_id id = Some x.1) x.2.1) sw) as Hinv.
  { apply Forall_forall. intros [s [ids wins]] Hx.
    destruct (Hsw _ Hx) as (sequence & _ & HW). cbn in *.
    split; [|split].
    - apply make_windows_ok in HW as (_ & ? & ? & ? & ? & _ & _ & _ & _ & -> & ->).
      by rewrite !length_fmap.
    - by eapply make_windows_ids_NoDup.
    - by eapply make_windows_parent. }
  destruct (WindowGen.write_links _ _ links_file) as [o' l'] eqn:Hl.
  intros [= <- <- <-]. split; [|exists Ws].
  - intros id w. rewrite <- Hsw2, stored_lookup by (done || by rewrite Hsw1).
    split.
    + intros [(x & k & Hx & Hk1 & Hk2)|[Hl' _]]; [|by rewrite lookup_empty in Hl'].
      destruct (Hsw _ Hx) as (sequence & Hin & HW).
      exists x.1, sequence, x.2.1, x.2.2, k. by destruct x as [? []].
    + intros (seq_id & sequence & ids & wins & k & Hin & HW & Hk1 & Hk2).
      left. exists (seq_id, (ids, wins)), k. split; [|done].
      apply list_elem_of_lookup in Hin as [i Hi].
      destruct (Forall2_lookup_l _ _ _ _ _ HF Hi) as (W & HWi & HW').
      cbv beta in HW'. rewrite HW in HW'. injection HW' as <-.
      apply list_elem_of_lookup. exists i. unfold sw.
      apply lookup_zip_with_Some. exists seq_id, (ids, wins).
      split; [done|]. split; [|done]. by rewrite list_lookup_fmap, Hi.
  - split; [done|].
    assert (size (foldl store_windows ∅ Ws) = List.length (Ws ≫= fst)) as Hsize.
    { rewrite <- Hsw2 at 1. rewrite stored_size; [| by rewrite Hsw1 | done |].
      - rewrite map_size_empty, <- Hsw2. cbn. clear.
        induction sw as [|x l IH]; [done|]. cbn. by rewrite !length_app, IH.
      - intros. apply lookup_empty. }
    split; [done|].
    unfold WindowGen.write_links in Hl.
    destruct links_file as [content|]; cbn in Hl; injection Hl as <- <-.
    + rewrite Hsize, seq_win_id_map, (right_id_L ∅ (∪)) by done. done.
    + rewrite Hsize, seq_win_id_map, (right_id_L ∅ (∪)) by done. done.
Qed.

End StoredWindows.

Section LinksFile.
Variable iteritems : forall V : Type, gmap string V -> list (string * V).

Variable str_to_int : string -> option Z.
Variable str_to_float : string -> option float.

Local Abbreviation write_links := (write_links iteritems).
Local Abbreviation write_windows := (write_windows str_to_int str_to_float iteritems).

Lemma length_bind_sum {A B} (f : A -> list B) (l : list A) :
  List.length (l ≫= f) = sum_list_with (fun a => List.length (f a)) l.
Proof.
  induction l as [|a l IH]; [done|].
  cbn [mbind list_bind sum_list_with]. by rewrite length_app, IH.
Qed.

(** X8.  The links file is only ever appended to.  A run of
    [write_windows] keeps what the file held and adds its lines behind
    it; a second run on the same scaffolds stores the same windows again
    but adds the same lines once more, so that every link is then in the
    file twice, and it announces that the file existed. *)
Theorem write_windows_twice seqs ws wg links_file out window_dict links :
  write_windows seqs ws wg links_file = (out, Ok (window_dict, links)) ->
  exists new count,
    links = default [] links_file ++ new
    /\ out = count :: match links_file with
                      | Some _ => [append_message]
                      | None => []
                      end
    /\ write_windows seqs ws wg (Some links)
       = ([count; append_message], Ok (window_dict, links ++ new)).
Proof.
  unfold write_windows, WindowGen.write_windows, WindowGen.write_links.
  destruct (WindowGen.read_windows _ _ seqs ws wg ∅ ∅) as [o [[swi wd]|e]] eqn:Hr;
    [|done].
  apply read_windows_ok in Hr as (-> & _).
  destruct links_file as [content|]; cbn [tryopen default fst snd app];
    intros [= <- <- <-]; eexists _, _; done.
Qed.

(** X9.  The number of lines [write_links] adds does not depend on the
    order in which the dictionary hands out its scaffolds: a scaffold
    with [n] windows adds [n - 1] lines, and a scaffold with one window
    or none adds no line. *)
Theorem write_links_count (Windows : gmap string (list string))
    (links_file : option (list string)) :
  (forall (V : Type) (d : gmap string V), iteritems V d ≡ₚ map_to_list d) ->
  List.length (write_links Windows links_file).2
  = (List.length (default [] links_file)
     + sum_list_with (fun sw : string * list string => List.length sw.2 - 1)
         (map_to_list Windows))%nat
  /\ (forall windows, (List.length windows <= 1)%nat -> link_lines windows = []).
Proof.
  intros Hperm. split.
  - unfold write_links, WindowGen.write_links.
    destruct (tryopen links_file) as [out content] eqn:Ht.
    assert (content = default [] links_file) as ->
      by (destruct links_file; by injection Ht as <- <-).
    cbn [snd]. rewrite length_app, length_bind_sum. f_equal.
    rewrite (sum_list_with_Permutation_proper _ _ _ (Hperm _ Windows)).
    induction (map_to_list Windows) as [|sw l IH]; [done|].
    cbn [sum_list_with]. by rewrite IH, length_link_lines.
  - intros windows Hlen. apply nil_length_inv.
    rewrite length_link_lines. lia.
Qed.

End LinksFile.

Section FileNames.
Import Spec.

Lemma append_nil_r (s : string) : s +:+ "" = s.
Proof. induction s as [|c s IH]; [done|]. by rewrite append_cons, IH. Qed.

Lemma append_assoc (a b c : string) : (a +:+ b) +:+ c = a +:+ b +:+ c.
Proof. induction a as [|x a IH]; [done|]. by rewrite !append_cons, IH. Qed.

Lemma length_append (a b : string) :
  String.length (a +:+ b) = (String.length a + String.length b)%nat.
Proof. induction a as [|x a IH]; [done|]. rewrite append_cons. cbn. by rewrite IH. Qed.

Lemma append_inj_r (a b s : string) : a +:+ s = b +:+ s -> a = b.
Proof.
  revert b. induction a as [|x a IH]; intros [|y b] H.
  - done.
  - apply (f_equal String.length) in H. rewrite append_nil_l, append_cons in H.
    cbn in H. rewrite length_append in H. lia.
  - apply (f_equal String.length) in H. rewrite append_nil_l, append_cons in H.
    cbn in H. rewrite length_append in H. lia.
  - rewrite !append_cons in H. injection H as -> H. f_equal. by apply IH.
Qed.

Lemma occurs_append (c : ascii) (a b : string) :
  occurs c (a +:+ b) = occurs c a || occurs c b.
Proof.
  induction a as [|x a IH]; [done|].
  rewrite append_cons. cbn. by rewrite IH, orb_assoc.
Qed.

Lemma remove_char_append (c : ascii) (a b : string) :
  remove_char c (a +:+ b) = remove_char c a +:+ remove_char c b.
Proof.
  induction a as [|x a IH]; [done|].
  rewrite append_cons. cbn. destruct (Ascii.eqb x c); [done|].
  by rewrite append_cons, IH.
Qed.

Lemma remove_char_absent (c : ascii) (s : string) :
  occurs c s = false -> remove_char c s = s.
Proof.
  induction s as [|x s IH]; [done|]. cbn.
  destruct (Ascii.eqb x c); [done|]. intros H. by rewrite IH.
Qed.

Lemma occurs_remove_char (c : ascii) (s : string) :
  occurs c (remove_char c s) = false.
Proof.
  induction s as [|x s IH]; [done|]. cbn.
  destruct (Ascii.eqb x c) eqn:E; [done|]. cbn. by rewrite E.
Qed.

Lemma occurs_remove_other (c d : ascii) (s : string) :
  occurs c s = false -> occurs c (remove_char d s) = false.
Proof.
  induction s as [|x s IH]; [done|]. cbn. intros [Hx Hs]%orb_false_iff.
  destruct (Ascii.eqb x d); [by apply IH|]. cbn. by rewrite Hx, IH.
Qed.

(** A string splits at its last occurrence of a character. *)
Lemma last_occurrence (c : ascii) (s : string) :
  occurs c s = false
  \/ exists stem ext, s = stem +:+ String c ext /\ occurs c ext = false.
Proof.
  induction s as [|x s IH]; [by left|].
  destruct IH as [Hno|(stem & ext & -> & Hext)].
  - cbn. destruct (Ascii.eqb_spec x c) as [->|Hne]; [|by left].
    right. exists "", s. by rewrite append_nil_l.
  - right. exists (String x stem), ext. by rewrite append_cons.
Qed.

Lemma str_split_nonempty (c : ascii) (s : string) : str_split c s <> [].
Proof.
  induction s as [|x s IH]; [done|]. cbn.
  destruct (Ascii.eqb x c); [done|]. by destruct (str_split c s).
Qed.

Lemma str_split_absent (c : ascii) (s : string) :
  occurs c s = false -> str_split c s = [s].
Proof.
  induction s as [|x s IH]; [done|]. cbn.
  destruct (Ascii.eqb x c); [done|]. intros H. by rewrite IH.
Qed.

Lemma str_split_append (c : ascii) (a b : string) :
  str_split c (a +:+ String c b) = str_split c a ++ str_split c b.
Proof.
  induction a as [|x a IH].
  - rewrite append_nil_l. cbn. by rewrite Ascii.eqb_refl.
  - rewrite append_cons. cbn. rewrite IH.
    destruct (Ascii.eqb x c); [done|].
    pose proof (str_split_nonempty c a). by destruct (str_split c a).
Qed.

(** The pieces of a string, put together again, are the string
    without the separator. *)
Lemma str_join_split (c : ascii) (s : string) :
  str_join "" (str_split c s) = remove_char c s.
Proof.
  induction s as [|x s IH]; [done|]. cbn.
  pose proof (str_split_nonempty c s) as Hne.
  destruct (Ascii.eqb x c).
  - destruct (str_split c s) as [|w ws]; [done|].
    by rewrite <- IH.
  - destruct (str_split c s) as [|w ws]; [done|]. rewrite <- IH.
    destruct ws; [done|]. cbn [str_join]. by rewrite append_cons.
Qed.

Lemma slice_init {A} (l : list A) (x : A) : slice (l ++ [x]) 0 (-1) = l.
Proof.
  unfold slice.
  assert (slice_index (len (l ++ [x])) 0 = 0) as ->.
  { unfold slice_index. pose proof (len_nonneg (l ++ [x])). cbn. lia. }
  assert (slice_index (len (l ++ [x])) (-1) = len l) as ->.
  { unfold slice_index, len. rewrite length_app. cbn. lia. }
  unfold len. rewrite Z.sub_0_r, Nat2Z.id. change (Z.to_nat 0) with 0%nat. rewrite drop_0.
  by rewrite take_app_length.
Qed.

Lemma list_getitem_last {A} (l : list A) (x : A) :
  list_getitem (l ++ [x]) (-1) = Ok x.
Proof.
  unfold list_getitem, len. rewrite length_app. cbn [List.length].
  assert ((-1 <? 0) = true) as -> by done.
  destruct (Z.leb_spec 0 (-1 + Z.of_nat (List.length l + 1))); [|lia].
  destruct (Z.ltb_spec (-1 + Z.of_nat (List.length l + 1))
              (Z.of_nat (List.length l + 1))); [|lia].
  cbn [andb].
  replace (Z.to_nat (-1 + Z.of_nat (List.length l + 1))) with (List.length l) by lia.
  by rewrite list_lookup_middle.
Qed.

(** The name [write_windows] gives to the window file. *)
Lemma window_file_split (scaffold_file output_dir : string) :
  let filename := (path_split scaffold_file).2 in
  (occurs "." filename = false ->
   window_file scaffold_file output_dir
   = Ok (path_join output_dir ("windows." +:+ filename)))
  /\ (forall stem ext,
        filename = stem +:+ String "." ext -> occurs "." ext = false ->
        window_file scaffold_file output_dir
        = Ok (path_join output_dir
                (remove_char "." stem +:+ "windows." +:+ ext))).
Proof.
  cbv zeta. unfold window_file. split.
  - intros H. rewrite (str_split_absent _ _ H).
    pose proof (slice_init [] (path_split scaffold_file).2) as E1.
    pose proof (list_getitem_last [] (path_split scaffold_file).2) as E2.
    cbn [app] in E1, E2. by rewrite E1, E2.
  - intros stem ext -> Hext.
    rewrite str_split_append, (str_split_absent _ _ Hext).
    by rewrite slice_init, list_getitem_last, str_join_split.
Qed.

(** The last component of a path. *)
Lemma cut_last_absent (c : ascii) (p : string) :
  occurs c p = false -> cut_last c p = ("", p).
Proof.
  induction p as [|x p IH]; [done|]. intros H. cbn in H.
  destruct (Ascii.eqb x c) eqn:E; [done|]. cbn. by rewrite (IH H), E.
Qed.

Lemma cut_last_append (c : ascii) (a b : string) :
  occurs c b = false -> cut_last c (a +:+ String c b) = (a +:+ String c "", b).
Proof.
  intros Hb. induction a as [|x a IH].
  - rewrite !append_nil_l. cbn. by rewrite (cut_last_absent _ _ Hb), Ascii.eqb_refl.
  - rewrite !append_cons. cbn. rewrite IH.
    destruct a; by rewrite ?append_nil_l, ?append_cons.
Qed.

Lemma path_split_tail (p : string) :
  (occurs "/" p = false -> (path_split p).2 = p)
  /\ (forall dir name,
        p = dir +:+ String "/" name -> occurs "/" name = false ->
        (path_split p).2 = name)
  /\ occurs "/" (path_split p).2 = false.
Proof.
  unfold path_split. split; [|split].
  - intros H. by rewrite (cut_last_absent _ _ H).
  - intros dir name -> H. by rewrite (cut_last_append _ _ _ H).
  - destruct (last_occurrence "/" p) as [H|(dir & name & -> & H)].
    + by rewrite (cut_last_absent _ _ H).
    + by rewrite (cut_last_append _ _ _ H).
Qed.

Lemma endswith_append (a : string) (c : ascii) :
  endswith a c = true -> exists a', a = a' +:+ String c "".
Proof.
  induction a as [|x a IH]; [done|]. cbn. destruct a as [|y a].
  - intros ->%Ascii.eqb_eq. by exists "".
  - intros [a' ->]%IH. exists (String x a'). by rewrite append_cons.
Qed.

Lemma path_join_tail (a b : string) :
  occurs "/" b = false -> (path_split (path_join a b)).2 = b.
Proof.
  intros Hb. unfold path_join.
  assert (startswith b "/" = false) as ->.
  { destruct b as [|x b]; [done|]. cbn in *. by destruct (Ascii.eqb x "/"). }
  destruct (String.eqb_spec a "") as [->|Hne].
  - cbn [orb]. rewrite append_nil_l. by apply path_split_tail.
  - cbn [orb]. destruct (endswith a "/") eqn:He.
    + apply endswith_append in He as [a' ->]. rewrite append_assoc.
      change (String "/" "" +:+ b) with (String "/" b).
      by eapply path_split_tail.
    + change ("/" +:+ b) with (String "/" b). by eapply path_split_tail.
Qed.

Lemma window_name_fresh (filename : string) :
  (occurs "." filename = false -> "windows." +:+ filename <> filename)
  /\ (forall stem ext,
        remove_char "." stem +:+ "windows." +:+ ext <> stem +:+ String "." ext).
Proof.
  split.
  - intros _ H%(f_equal String.length). rewrite length_append in H. cbn in H. lia.
  - intros stem ext H.
    change ("windows." +:+ ext) with ("windows" +:+ String "." ext) in H.
    rewrite <- append_assoc in H. apply append_inj_r in H.
    pose proof (f_equal (remove_char ".") H) as H'.
    rewrite remove_char_append in H'.
    rewrite (remove_char_absent _ _ (occurs_remove_char "." stem)) in H'.
    change (remove_char "." "windows") with "windows" in H'.
    apply (f_equal String.length) in H'. rewrite length_append in H'.
    cbn in H'. lia.
Qed.

(** X10.  The window file is named after the scaffold file: its name is
    what stands before the last dot of the scaffold file's name with all
    dots taken out, then [windows.], then what stands after the last
    dot; a name without a dot is taken as the extension.  It lies in the
    output directory, and the computation of the name never fails. *)
Theorem window_file_name (scaffold_file output_dir : string) :
  let filename := (path_split scaffold_file).2 in
  (occurs "." filename = false ->
   window_file scaffold_file output_dir
   = Ok (path_join output_dir ("windows." +:+ filename)))
  /\ (forall stem ext,
        filename = stem +:+ String "." ext -> occurs "." ext = false ->
        window_file scaffold_file output_dir
        = Ok (path_join output_dir
                (remove_char "." stem +:+ "windows." +:+ ext)))
  /\ (occurs "/" scaffold_file = false -> filename = scaffold_file)
  /\ (forall dir name,
        scaffold_file = dir +:+ String "/" name -> occurs "/" name = false ->
        filename = name)
  /\ (exists name,
        window_file scaffold_file output_dir = Ok (path_join output_dir name)
        /\ occurs "/" name = false
        /\ (path_split (path_join output_dir name)).2 = name).
Proof.
  cbv zeta. pose proof (window_file_split scaffold_file output_dir) as [H1 H2].
  pose proof (path_split_tail scaffold_file) as (H3 & H4 & H5).
  do 4 (split; [done|]).
  destruct (last_occurrence "." (path_split scaffold_file).2)
    as [H|(stem & ext & Hf & H)].
  - exists ("windows." +:+ (path_split scaffold_file).2).
    split; [by apply H1|].
    assert (occurs "/" ("windows." +:+ (path_split scaffold_file).2) = false) as Hn
      by (by rewrite occurs_append, H5).
    split; [done|]. by apply path_join_tail.
  - exists (remove_char "." stem +:+ "windows." +:+ ext).
    split; [by apply H2|].
    rewrite Hf, occurs_append in H5. apply orb_false_iff in H5 as [Hs He].
    cbn in He.
    assert (occurs "/" (remove_char "." stem +:+ "windows." +:+ ext) = false) as Hn.
    { by rewrite !occurs_append, He, (occurs_remove_other _ _ _ Hs). }
    split; [done|]. by apply path_join_tail.
Qed.

(** X11.  [write_windows] never writes its windows over its input or
    over its links: the name of the window file differs from the name of
    the scaffold file and from [links_file.tsv], whatever the scaffold
    file is called. *)
Theorem window_file_fresh (scaffold_file output_dir : string) :
  exists path,
    window_file scaffold_file output_dir = Ok path
    /\ (path_split path).2 <> (path_split scaffold_file).2
    /\ (path_split path).2 <> "links_file.tsv"
    /\ (path_split (links_file output_dir)).2 = "links_file.tsv"
    /\ path <> links_file output_dir.
Proof.
  pose proof (window_file_split scaffold_file output_dir) as [H1 H2].
  pose proof (path_split_tail scaffold_file) as (_ & _ & H5).
  pose proof (window_name_fresh (path_split scaffold_file).2) as [F1 F2].
  assert ((path_split (links_file output_dir)).2 = "links_file.tsv") as Hl
    by (by apply path_join_tail).
  destruct (last_occurrence "." (path_split scaffold_file).2)
    as [H|(stem & ext & Hf & H)].
  - eexists. split; [by apply H1|].
    assert ((path_split (path_join output_dir
               ("windows." +:+ (path_split scaffold_file).2))).2
            = "windows." +:+ (path_split scaffold_file).2) as Ht.
    { apply path_join_tail. by rewrite occurs_append, H5. }
    rewrite Ht.
    assert ("windows." +:+ (path_split scaffold_file).2 <> "links_file.tsv") as Hne.
    { intros E. rewrite !append_cons in E. discriminate E. }
    split; [by apply F1|]. split; [done|]. split; [done|].
    intros E. apply Hne. by rewrite <- Ht, E.
  - eexists. split; [by apply H2|].
    rewrite Hf, occurs_append in H5. apply orb_false_iff in H5 as [Hs He].
    cbn in He.
    assert (occurs "/" (remove_char "." stem +:+ "windows." +:+ ext) = false) as Hn.
    { by rewrite !occurs_append, He, (occurs_remove_other _ _ _ Hs). }
    rewrite (path_join_tail _ _ Hn), Hf.
    assert (remove_char "." stem +:+ "windows." +:+ ext <> "links_file.tsv") as Hne.
    { change ("windows." +:+ ext) with ("windows" +:+ String "." ext).
      change "links_file.tsv" with ("links_file" +:+ String "." "tsv").
      rewrite <- append_assoc.
      intros [E _]%append_cut; [| |done].
      - destruct (remove_char "." stem) as [|c1 [|c2 [|c3 [|c4 r]]]];
          rewrite ?append_nil_l, ?append_cons in E; try discriminate E.
        apply (f_equal String.length) in E. cbn in E.
        rewrite length_append in E. cbn in E. lia.
      - by rewrite occurs_append, occurs_remove_char. }
    split; [by apply F2|]. split; [done|]. split; [done|].
    intros E. apply Hne. by rewrite <- (path_join_tail output_dir _ Hn), E.
Qed.

End FileNames.

Section Tiling.
Variable str_to_int : string -> option Z.
Variable str_to_float : string -> option float.

Local Abbreviation make_windows := (make_windows str_to_int str_to_float).

Lemma concat_windows (sequence : list ascii) (size : Z) (n : nat) :
  0 <= size -> Z.of_nat n * size <= len sequence ->
  concat ((fun k => slice sequence (k * size) (k * size + size))
            <$> seqZ 0 (Z.of_nat n))
  = take (Z.to_nat (Z.of_nat n * size)) sequence.
Proof.
  intros Hsize. induction n as [|n IH]; intros Hn.
  - by rewrite Z.mul_0_l, take_0.
  - rewrite seqZ_S, fmap_app, concat_app, IH by nia. simpl.
    rewrite app_nil_r, slice_inside by nia.
    rewrite take_take_drop. f_equal. nia.
Qed.

Lemma kept_no_gap (sequence : list ascii) (size : Z) :
  100 <= size ->
  filter (fun i => 100 <= len (slice sequence i (i + size)))
    ((fun k => k * size) <$> seqZ 0 ((len sequence + size - 1) / size))
  = ((fun k => k * size) <$> seqZ 0 (len sequence / size))
    ++ (if 100 <=? len sequence mod size
        then [len sequence / size * size] else []).
Proof.
  intros Hsize.
  pose proof (len_nonneg sequence) as HL.
  pose proof (Z.div_mod (len sequence) size ltac:(lia)) as Hdm.
  pose proof (Z.mod_pos_bound (len sequence) size ltac:(lia)) as Hm.
  pose proof (Z.div_pos (len sequence) size ltac:(lia) ltac:(lia)) as Hq.
  set (q := len sequence / size) in *. set (r := len sequence mod size) in *.
  assert (Hfull : forall k, 0 <= k < q ->
            len (slice sequence (k * size) (k * size + size)) = size).
  { intros k Hk. assert (0 <= k * size) by nia.
    assert (k * size + size <= len sequence) by nia. slice_lia. }
  assert (Hlast : len (slice sequence (q * size) (q * size + size)) = r).
  { assert (0 <= q * size) by nia.
    assert (q * size + r = len sequence) by lia. slice_lia. }
  destruct (Z.eq_dec r 0) as [Hz|Hnz].
  - replace ((len sequence + size - 1) / size) with q.
    2:{ apply Z.div_unique with (r := size - 1); lia. }
    rewrite Hz. cbn. rewrite app_nil_r.
    apply filter_all, Forall_forall. intros i (k & -> & Hk)%list_elem_of_fmap.
    apply elem_of_seqZ in Hk. rewrite Hfull; lia.
  - replace ((len sequence + size - 1) / size) with (q + 1).
    2:{ apply Z.div_unique with (r := r - 1); lia. }
    rewrite seqZ_app by lia.
    rewrite fmap_app, filter_app. f_equal.
    + apply filter_all, Forall_forall. intros i (k & -> & Hk)%list_elem_of_fmap.
      apply elem_of_seqZ in Hk. rewrite Hfull; lia.
    + assert (seqZ (0 + q) 1 = [q]) as -> by (unfold seqZ; cbn; f_equal; lia).
      cbn [fmap list_fmap].
      destruct (Z.leb_spec 100 r).
      * rewrite filter_cons_True; [done|]. cbn. lia.
      * rewrite filter_cons_False; [done|]. cbn. lia.
Qed.

(** X12.  With no gap and a window size of at least 100 bases the
    windows are consecutive pieces of the sequence: put end to end they
    give the sequence back, except for a remainder of fewer than 100
    bases at its end.  Every window has the full size except the last,
    which is the rest of the sequence when that rest has at least 100
    bases. *)
Theorem make_windows_tiling (seq_id : string) (sequence : list ascii) (size : Z) :
  100 <= size ->
  exists ids wins rest,
    make_windows (seq_id, sequence) (PInt size) (PInt 0) = ([], Ok (ids, wins))
    /\ sequence = concat wins ++ rest
    /\ len rest < 100
    /\ len wins = len sequence / size
                  + (if 100 <=? len sequence mod size then 1 else 0)
    /\ (forall (k : nat) w,
          wins !! k = Some w ->
          if Z.of_nat k <? len sequence / size then len w = size
          else len w = len sequence mod size /\ rest = []).
Proof.
  intros Hsize.
  pose proof (len_nonneg sequence) as HL.
  pose proof (Z.div_mod (len sequence) size ltac:(lia)) as Hdm.
  pose proof (Z.mod_pos_bound (len sequence) size ltac:(lia)) as Hm.
  pose proof (Z.div_pos (len sequence) size ltac:(lia) ltac:(lia)) as Hq.
  rewrite make_windows_int, Z.add_0_r, range_positive by lia.
  cbn [mbind res_bind]. rewrite window_loop. cbn zeta. cbn [fst snd app].
  rewrite kept_no_gap by done.
  set (q := len sequence / size) in *. set (r := len sequence mod size) in *.
  assert (Hfull : forall k, 0 <= k < q ->
            len (slice sequence (k * size) (k * size + size)) = size).
  { intros k Hk. assert (0 <= k * size) by nia.
    assert (k * size + size <= len sequence) by nia. slice_lia. }
  assert (Hlast : slice sequence (q * size) (q * size + size)
                  = drop (Z.to_nat (q * size)) sequence).
  { apply slice_clipped; nia. }
  assert (Hdrop : len (drop (Z.to_nat (q * size)) sequence) = r).
  { unfold len in *. rewrite length_drop. nia. }
  assert (Hcat : concat ((fun i => slice sequence i (i + size))
                           <$> ((fun k => k * size) <$> seqZ 0 q))
                 = take (Z.to_nat (q * size)) sequence).
  { rewrite <- list_fmap_compose.
    replace q with (Z.of_nat (Z.to_nat q)) at 1 by lia.
    erewrite list_fmap_ext; [rewrite concat_windows|].
    - by rewrite Z2Nat.id by lia.
    - lia.
    - rewrite Z2Nat.id by lia. nia.
    - intros j k _. reflexivity. }
  eexists _, _, (if 100 <=? r then [] else drop (Z.to_nat (q * size)) sequence).
  split; [reflexivity|]. rewrite !fmap_app, concat_app, Hcat.
  split; [|split; [|split]].
  - destruct (100 <=? r); cbn [fmap list_fmap concat].
    + by rewrite Hlast, !app_nil_r, take_drop.
    + by rewrite app_nil_r, take_drop.
  - destruct (Z.leb_spec 100 r); [done|]. lia.
  - unfold len at 1. rewrite length_app, !length_fmap, length_seqZ.
    destruct (100 <=? r); cbn; lia.
  - intros k w Hk.
    destruct (Z.ltb_spec (Z.of_nat k) q) as [Hlt|Hge].
    + rewrite lookup_app_l in Hk by (rewrite !length_fmap, length_seqZ; lia).
      rewrite <- list_fmap_compose in Hk.
      apply list_lookup_fmap_Some in Hk as (j & -> & Hj).
      apply lookup_seqZ in Hj as [-> _]. cbn. apply Hfull. lia.
    + rewrite lookup_app_r in Hk by (rewrite !length_fmap, length_seqZ; lia).
      destruct (Z.leb_spec 100 r); cbn [fmap list_fmap] in Hk;
        [|by rewrite lookup_nil in Hk].
      apply list_lookup_singleton_Some in Hk as [_ <-].
      by rewrite Hlast, Hdrop.
Qed.

End Tiling.

Section WindowSpan.
Import Spec.
Variable str_to_int : string -> option Z.
Variable str_to_float : string -> option float.

Local Abbreviation make_windows := (make_windows str_to_int str_to_float).

(** X13.  A window id says where its window lies.  Whatever the
    arguments, the id at a position names the scaffold, an offset inside
    the sequence and an end no later than the end of the sequence, and,
    the end not lying before the offset, the window at that position is
    the sequence between the two, bounds as in a slice.  With a window
    size that is a non-negative [int] the end never lies before the
    offset. *)
Theorem window_span seq_id sequence ws wg out ids wins :
  make_windows (seq_id, sequence) ws wg = (out, Ok (ids, wins)) ->
  forall (k : nat) id w,
    ids !! k = Some id -> wins !! k = Some w ->
    exists i j,
      id = window_id seq_id i j
      /\ 0 <= i < len sequence /\ j <= len sequence
      /\ (i <= j ->
          w = slice sequence i j
          /\ w = take (Z.to_nat (j - i)) (drop (Z.to_nat i) sequence)
          /\ len w = j - i)
      /\ (forall size, ws = PInt size -> 0 <= size -> i <= j).
Proof.
  intros H k id w Hid Hw.
  apply make_windows_ok in H
    as (_ & ws' & wg' & size & gap & Hws & _ & Habs & _ & -> & ->).
  apply list_lookup_fmap_Some in Hid as (i & -> & Hi).
  rewrite list_lookup_fmap, Hi in Hw. injection Hw as <-.
  apply list_elem_of_lookup_2, elem_of_kept_offsets in Hi as [Hi Hlen].
  apply elem_of_stride_offsets in Hi as (Hs & n & Hn & -> & Hlt).
  pose proof (len_nonneg sequence) as HL.
  assert (0 <= n * (size + gap)) as H0 by nia.
  set (i := n * (size + gap)) in *.
  exists i, (Z.min (i + size) (len sequence)).
  split; [done|]. split; [lia|]. split; [lia|]. split.
  - intros Hij. assert (0 <= size) by lia.
    assert (slice sequence i (i + size)
            = slice sequence i (Z.min (i + size) (len sequence))) as ->.
    { assert (slice_index (len sequence) (i + size)
              = slice_index (len sequence) (Z.min (i + size) (len sequence))) as E.
      { unfold slice_index.
        destruct (Z.ltb_spec (i + size) 0),
          (Z.ltb_spec (Z.min (i + size) (len sequence)) 0); lia. }
      unfold slice. by rewrite E. }
    split; [done|]. split; [apply slice_inside; lia|]. slice_lia.
  - intros size' -> Hsize'.
    assert (size = size') as <-; [|lia].
    cbn in Hws. injection Hws as <-.
    destruct wg'; cbn in Habs; try discriminate Habs.
    + by injection Habs as <- _.
    + destruct (int_of_float _); cbn in Habs; [|done]. by injection Habs as <- _.
Qed.

End WindowSpan.

(** ** The further properties on concrete inputs *)

(** A window size of 2 ^ 63, one more than the largest [int]. *)
Lemma make_windows_long_string_witness :
  WindowGen.type_convert Ref.str_to_int Ref.str_to_float "9223372036854775808"
  = Ok (PLong 9223372036854775808)
  /\ WindowGen.make_windows Ref.str_to_int Ref.str_to_float Ref.scaffold_s
       (PStr "9223372036854775808") (PInt 0)
     = ([type_error_message], Raise TypeError).
Proof.
  pose proof (make_windows_long_string Ref.str_to_int Ref.str_to_float
                Ref.scaffold_s "9223372036854775808" 9223372036854775808
                ltac:(reflexivity) ltac:(right; reflexivity)) as (H1 & H2 & _).
  split; [exact H1|]. apply (H2 (PInt 0)). left. reflexivity.
Defined.

(** A scaffold of 250 bases cut into windows of 100 bases. *)
Lemma make_windows_invariants_witness :
  List.length ["s:0to100"; "s:100to200"]
  = List.length [replicate 100 "A"%char; replicate 100 "A"%char]
  /\ Forall (fun w => 100 <= len w <= len Ref.scaffold_s.2
                      /\ sublist w Ref.scaffold_s.2)
       [replicate 100 "A"%char; replicate 100 "A"%char].
Proof.
  pose proof (make_windows_invariants Ref.str_to_int Ref.str_to_float
                "s" Ref.scaffold_s.2 (PInt 100) (PInt 0) []
                ["s:0to100"; "s:100to200"]
                [replicate 100 "A"%char; replicate 100 "A"%char]
                ltac:(vm_compute; reflexivity)) as (_ & H1 & _ & H2 & _).
  split; [exact H1 | exact H2].
Defined.

(** Windows of 50 bases with a gap of a tenth of the sequence. *)
Lemma make_windows_small_size_witness :
  WindowGen.make_windows Ref.str_to_int Ref.str_to_float Ref.scaffold_s
    (PInt 50) (PFloat 0.1) = ([], Ok ([], [])).
Proof.
  apply (proj2 (make_windows_small_size Ref.str_to_int Ref.str_to_float
                  "s" Ref.scaffold_s.2 50 (PFloat 0.1) ltac:(lia)) 25).
  vm_compute. reflexivity.
Defined.

(** Windows of 120 bases from 250 bases: two, and 10 bases left over. *)
Lemma make_windows_tiling_witness :
  exists ids wins rest,
    WindowGen.make_windows Ref.str_to_int Ref.str_to_float Ref.scaffold_s
      (PInt 120) (PInt 0) = ([], Ok (ids, wins))
    /\ Ref.scaffold_s.2 = concat wins ++ rest
    /\ len rest < 100
    /\ len wins = len Ref.scaffold_s.2 / 120
                  + (if 100 <=? len Ref.scaffold_s.2 mod 120 then 1 else 0)
    /\ (forall (k : nat) w,
          wins !! k = Some w ->
          if Z.of_nat k <? len Ref.scaffold_s.2 / 120 then len w = 120
          else len w = len Ref.scaffold_s.2 mod 120 /\ rest = []).
Proof.
  apply (make_windows_tiling Ref.str_to_int Ref.str_to_float
           "s" Ref.scaffold_s.2 120).
  lia.
Defined.

Lemma window_span_witness :
  exists i j,
    "s:100to200" = window_id "s" i j
    /\ 0 <= i < len Ref.scaffold_s.2 /\ j <= len Ref.scaffold_s.2
    /\ (i <= j ->
        replicate 100 "A"%char = slice Ref.scaffold_s.2 i j
        /\ replicate 100 "A"%char
           = take (Z.to_nat (j - i)) (drop (Z.to_nat i) Ref.scaffold_s.2)
        /\ len (replicate 100 "A"%char) = j - i)
    /\ (forall size, PInt 100 = PInt size -> 0 <= size -> i <= j).
Proof.
  apply (window_span Ref.str_to_int Ref.str_to_float
           "s" Ref.scaffold_s.2 (PInt 100) (PInt 0) []
           ["s:0to100"; "s:100to200"]
           [replicate 100 "A"%char; replicate 100 "A"%char]
           ltac:(vm_compute; reflexivity) 1%nat);
    reflexivity.
Defined.

(** The windows of the two scaffolds, written to a new links file. *)
Lemma write_windows_stores_witness :
  ({["s:0to100" := replicate 100 "A"%char;
     "s:100to200" := replicate 100 "A"%char;
     "t:0to100" := replicate 100 "C"%char]} : gmap string (list ascii))
    !! "s:100to200" = Some (replicate 100 "A"%char)
  <-> exists seq_id sequence ids wins (k : nat),
        (seq_id, sequence) ∈ [Ref.scaffold_s; Ref.scaffold_t]
        /\ WindowGen.make_windows Ref.str_to_int Ref.str_to_float
             (seq_id, sequence) (PInt 100) (PInt 0)
           = ([], Ok (ids, wins))
        /\ ids !! k = Some "s:100to200"
        /\ wins !! k = Some (replicate 100 "A"%char).
Proof.
  apply (proj1 (write_windows_stores Ref.str_to_int Ref.str_to_float Ref.iteritems
                  [Ref.scaffold_s; Ref.scaffold_t] (PInt 100) (PInt 0) None
                  ["3"] _ ["s:0to100" +:+ TAB +:+ "s:100to200" +:+ NL]
                  ltac:(apply (bool_decide_unpack (NoDup ["s"; "t"]));
                        vm_compute; reflexivity)
                  ltac:(vm_compute; reflexivity))
           "s:100to200" (replicate 100 "A"%char)).
Defined.

Lemma write_windows_twice_witness :
  exists new count,
    ["s:0to100" +:+ TAB +:+ "s:100to200" +:+ NL]
    = default [] None ++ new
    /\ ["3"] = count :: []
    /\ WindowGen.write_windows Ref.str_to_int Ref.str_to_float Ref.iteritems
         [Ref.scaffold_s; Ref.scaffold_t] (PInt 100) (PInt 0)
         (Some ["s:0to100" +:+ TAB +:+ "s:100to200" +:+ NL])
       = ([count; append_message],
          Ok ({["s:0to100" := replicate 100 "A"%char;
                "s:100to200" := replicate 100 "A"%char;
                "t:0to100" := replicate 100 "C"%char]},
              ["s:0to100" +:+ TAB +:+ "s:100to200" +:+ NL] ++ new)).
Proof.
  apply (write_windows_twice Ref.iteritems Ref.str_to_int Ref.str_to_float
           [Ref.scaffold_s; Ref.scaffold_t] (PInt 100) (PInt 0) None ["3"]).
  vm_compute. reflexivity.
Defined.

Lemma write_links_count_witness :
  List.length
    (WindowGen.write_links Ref.iteritems
       {["s" := ["s:0to100"; "s:100to200"; "s:200to300"]; "t" := ["t:0to100"]]}
       None).2
  = (List.length (default [] (None : option (list string)))
     + sum_list_with (fun sw : string * list string => List.length sw.2 - 1)
         (map_to_list
            ({["s" := ["s:0to100"; "s:100to200"; "s:200to300"];
               "t" := ["t:0to100"]]} : gmap string (list string))))%nat.
Proof.
  apply (proj1 (write_links_count Ref.iteritems _ None
                  (fun V d => reflexivity (map_to_list d)))).
Defined.

(** ** Further properties of [Outliers]: modifying a bin *)

Section TableLines.
Import Spec.

Lemma str_split_first (c : ascii) (s : string) :
  str_split c s
  = before c s :: (if occurs c s then str_split c (after c s) else []).
Proof.
  induction s as [|x s IH]; [done|]. cbn.
  destruct (Ascii.eqb x c); [done|]. cbn. rewrite IH.
  by destruct (occurs c s).
Qed.

Lemma list_getitem_0 {A} (a : A) (l : list A) : list_getitem (a :: l) 0 = Ok a.
Proof.
  unfold list_getitem, len. cbn [List.length].
  assert ((0 <? 0) = false) as -> by done. assert ((0 <=? 0) = true) as -> by done.
  destruct (Z.ltb_spec 0 (Z.of_nat (S (List.length l)))); [done|lia].
Qed.

Lemma list_getitem_1 {A} (a : A) (l : list A) :
  list_getitem (a :: l) 1
  = match l with b :: _ => Ok b | [] => Raise IndexError end.
Proof.
  unfold list_getitem, len.
  assert ((1 <? 0) = false) as -> by done. assert ((0 <=? 1) = true) as -> by done.
  destruct l as [|b l]; [done|]. cbn [List.length].
  destruct (Z.ltb_spec 1 (Z.of_nat (S (S (List.length l))))); [done|lia].
Qed.

(** The first two fields of a line. *)
Lemma getitem_scaffold (line : string) :
  list_getitem (str_split tab line) 0 = Ok (column_scaffold line).
Proof. by rewrite str_split_first, list_getitem_0. Qed.

Lemma getitem_bin (line : string) :
  list_getitem (str_split tab line) 1
  = if occurs tab line then Ok (before tab (after tab line)) else Raise IndexError.
Proof.
  rewrite str_split_first, list_getitem_1.
  destruct (occurs tab line); [|done]. by rewrite str_split_first.
Qed.

Lemma before_absent (c : ascii) (s : string) : occurs c s = false -> before c s = s.
Proof.
  induction s as [|x s IH]; [done|]. cbn.
  destruct (Ascii.eqb x c); [done|]. intros H. by rewrite IH.
Qed.

Lemma occurs_endswith (s : string) (c : ascii) :
  endswith s c = true -> occurs c s = true.
Proof.
  induction s as [|x s IH]; [done|]. cbn. destruct s as [|y s].
  - intros ->. done.
  - intros H. rewrite (IH H). by destruct (Ascii.eqb x c).
Qed.

End TableLines.

Section RemoveOutliers.
Import Outliers Spec.

Lemma remove_outliers_fold (genome_seqs : gmap string (list ascii))
    (rows : list string) :
  foldM (fun genome_seqs line =>
           let line_split := str_split tab line in
           scaffold_id ← list_getitem line_split 0;
           Ok (delete scaffold_id genome_seqs))
    genome_seqs rows
  = Ok (foldl (fun g line => delete (column_scaffold line) g) genome_seqs rows).
Proof.
  revert genome_seqs. induction rows as [|line rows IH]; intros g; [done|].
  cbn [foldM foldl]. rewrite getitem_scaffold. cbn [mbind res_bind]. apply IH.
Qed.

Lemma lookup_fold_delete (g : gmap string (list ascii)) (ids : list string)
    (s : string) :
  foldl (fun g id => delete id g) g ids !! s
  = if bool_decide (s ∈ ids) then None else g !! s.
Proof.
  revert g. induction ids as [|id ids IH]; intros g; [done|].
  cbn [foldl]. rewrite IH.
  destruct (decide (s = id)) as [->|Hne].
  - rewrite lookup_delete_eq. rewrite (bool_decide_eq_true_2 (id ∈ id :: ids)) by left.
    by destruct (bool_decide _).
  - rewrite lookup_delete_ne by done.
    destruct (decide (s ∈ ids)) as [Hin|Hnin].
    + by rewrite !bool_decide_eq_true_2 by (done || by right).
    + rewrite !bool_decide_eq_false_2; [done| |done].
      by intros [?|?]%elem_of_cons.
Qed.

(** X14.  [remove_outliers] never fails on the lines of the outlier
    file, and writes the genome without the scaffolds named in the first
    column of the lines below the first: a scaffold is written exactly
    when the genome had it and no such line names it.  The first line is
    a header and removes nothing, whatever it holds; nothing is added
    and no sequence is changed; removing with the same file again
    changes nothing more. *)
Theorem remove_outliers_lookup (genome_seqs : gmap string (list ascii))
    (outlier_file : list string) :
  exists out_genome,
    remove_outliers genome_seqs outlier_file = Ok out_genome
    /\ (forall s,
          out_genome !! s
          = if bool_decide (s ∈ column_scaffold <$> drop 1 outlier_file)
            then None else genome_seqs !! s)
    /\ out_genome ⊆ genome_seqs
    /\ (forall header header',
          remove_outliers genome_seqs (header :: drop 1 outlier_file)
          = remove_outliers genome_seqs (header' :: drop 1 outlier_file))
    /\ remove_outliers out_genome outlier_file = Ok out_genome.
Proof.
  unfold remove_outliers. rewrite !remove_outliers_fold.
  assert (forall g rows s,
            foldl (fun g line => delete (column_scaffold line) g) g rows !! s
            = if bool_decide (s ∈ column_scaffold <$> rows) then None
              else (g : gmap string (list ascii)) !! s) as Hlookup.
  { intros g rows s. rewrite <- lookup_fold_delete. f_equal.
    clear. revert g. induction rows as [|l rows IH]; intros g; [done|].
    cbn. apply IH. }
  eexists. split; [done|]. split; [by apply Hlookup|]. split; [|split].
  - apply map_subseteq_spec. intros s v. rewrite Hlookup.
    by destruct (bool_decide _).
  - done.
  - rewrite remove_outliers_fold. f_equal. apply map_eq. intros s.
    rewrite !Hlookup. by destruct (bool_decide _).
Qed.

(** A line that ends in a line feed is the id of no scaffold whose id
    is free of line feeds. *)
Lemma line_feed_no_key (genome_seqs : gmap string (list ascii)) (line : string) :
  (forall s, is_Some (genome_seqs !! s) -> occurs "010" s = false) ->
  endswith line "010" = true -> genome_seqs !! line = None.
Proof.
  intros Hids Hnl. destruct (genome_seqs !! line) eqn:E; [|done].
  pose proof (Hids line (mk_is_Some _ _ E)) as Hno.
  by rewrite (occurs_endswith _ _ Hnl) in Hno.
Qed.

(** X15.  In a line without a tab the whole line, its terminator
    included, is taken for the scaffold id.  Of an outlier file that
    names one scaffold per line and nothing else, a scaffold is removed
    exactly when a line below the first is its id character for
    character.  A line that ends in a line feed removes no scaffold whose
    id is free of line feeds, so that only a last line without a line
    feed removes the scaffold it names: when every line ends in a line
    feed the genome is written unchanged, and when all lines but the last
    do, the genome is written without the scaffold the last line names. *)
Theorem remove_outliers_bare_ids (genome_seqs : gmap string (list ascii))
    (outlier_file : list string) :
  Forall (fun line => occurs tab line = false) (drop 1 outlier_file) ->
  (forall s, is_Some (genome_seqs !! s) -> occurs "010" s = false) ->
  exists out_genome,
    remove_outliers genome_seqs outlier_file = Ok out_genome
    /\ (forall s,
          out_genome !! s
          = if bool_decide (s ∈ drop 1 outlier_file) then None
            else genome_seqs !! s)
    /\ (Forall (fun line => endswith line "010" = true) (drop 1 outlier_file) ->
        out_genome = genome_seqs)
    /\ (forall rows last,
          drop 1 outlier_file = rows ++ [last] ->
          Forall (fun line => endswith line "010" = true) rows ->
          out_genome = delete last genome_seqs).
Proof.
  intros Hlines Hids.
  assert (column_scaffold <$> drop 1 outlier_file = drop 1 outlier_file) as Hcol.
  { induction (drop 1 outlier_file) as [|line rows IH]; [done|].
    apply Forall_cons in Hlines as [Ht Hlines].
    rewrite fmap_cons, IH by done. f_equal. by apply before_absent. }
  assert (forall s,
            foldl (fun g line => delete (column_scaffold line) g) genome_seqs
              (drop 1 outlier_file) !! s
            = if bool_decide (s ∈ column_scaffold <$> drop 1 outlier_file)
              then None else genome_seqs !! s) as Hlookup.
  { intros s. rewrite <- lookup_fold_delete. f_equal.
    generalize genome_seqs. clear.
    induction (drop 1 outlier_file) as [|l rows IH]; intros g; [done|].
    cbn. apply IH. }
  rewrite Hcol in Hlookup.
  unfold remove_outliers. rewrite remove_outliers_fold.
  eexists. split; [done|]. split; [exact Hlookup|]. split.
  - intros Hnl. apply map_eq. intros s. rewrite Hlookup.
    case_bool_decide as Hin; [|done].
    rewrite Forall_forall in Hnl. symmetry.
    by apply line_feed_no_key, Hnl.
  - intros rows last Hrows Hnl. apply map_eq. intros s. rewrite Hlookup, Hrows.
    destruct (decide (s = last)) as [->|Hne].
    + rewrite lookup_delete_eq. rewrite bool_decide_eq_true_2; [done|].
      apply elem_of_app. right. left.
    + rewrite lookup_delete_ne by done.
      case_bool_decide as Hin; [|done].
      apply elem_of_app in Hin as [Hin|Hin].
      * rewrite Forall_forall in Hnl. symmetry.
        by apply line_feed_no_key, Hnl.
      * by apply list_elem_of_singleton in Hin.
Qed.

End RemoveOutliers.

Section AddUnique.
Import Outliers Spec.
Variable iteritems : forall V : Type, gmap string V -> list (string * V).

Local Abbreviation unique_scaffolds := (unique_scaffolds iteritems).
Local Abbreviation add_compatible_unique := (add_compatible_unique iteritems).

Local Abbreviation read_line :=
  (fun (st : list string * gmap string string) (line : string) =>
     let line_split := str_split tab line in
     scaffold_id ← list_getitem line_split 0;
     bin_field ← list_getitem line_split 1;
     let bin_id := str_strip bin_field in
     Ok (st.1 ++ [scaffold_id], <[scaffold_id := bin_id]> st.2)).

Lemma read_bins_fold (rows : list string) (st : list string * gmap string string) :
  Forall (fun line => occurs tab line = true) rows ->
  foldM read_line st rows
  = Ok (st.1 ++ (column_scaffold <$> rows),
        foldl (fun m line => <[column_scaffold line := column_bin line]> m)
          st.2 rows).
Proof.
  revert st. induction rows as [|line rows IH]; intros [ids bins] H.
  - cbn. by rewrite app_nil_r.
  - apply Forall_cons in H as [Ht H].
    cbn [foldM foldl]. rewrite getitem_scaffold, getitem_bin, Ht.
    cbn [mbind res_bind]. rewrite IH by done. cbn [fst snd fmap list_fmap].
    by rewrite <- app_assoc.
Qed.

Lemma read_bins_raise (rows : list string) (st : list string * gmap string string) :
  Exists (fun line => occurs tab line = false) rows ->
  foldM read_line st rows = Raise IndexError.
Proof.
  revert st. induction rows as [|line rows IH]; intros st H.
  - by apply Exists_nil in H.
  - cbn [foldM]. rewrite getitem_scaffold, getitem_bin.
    destruct (occurs tab line) eqn:Ht; [|done].
    cbn [mbind res_bind]. apply IH.
    apply Exists_cons in H as [H|H]; [congruence|done].
Qed.

(** The bin recorded for a scaffold is that of the last line naming it. *)
Lemma lookup_bins (rows : list string) (m : gmap string string) (s : string) :
  foldl (fun m line => <[column_scaffold line := column_bin line]> m) m rows !! s
  = match last (lines_of s rows) with
    | Some line => Some (column_bin line)
    | None => m !! s
    end.
Proof.
  revert m. induction rows as [|line rows IH]; intros m; [done|].
  cbn [foldl]. rewrite IH. unfold lines_of. rewrite filter_cons.
  destruct (decide (column_scaffold line = s)) as [<-|Hne].
  - rewrite last_cons. destruct (last _); [done|]. by rewrite lookup_insert_eq.
  - destruct (last _); [done|]. by rewrite lookup_insert_ne.
Qed.

Lemma list_count_lines (rows : list string) (s : string) :
  list_count (column_scaffold <$> rows) s = len (lines_of s rows).
Proof.
  unfold list_count, lines_of, len. f_equal.
  induction rows as [|line rows IH]; [done|].
  rewrite fmap_cons, !filter_cons.
  destruct (decide (column_scaffold line = s)); cbn; by rewrite IH.
Qed.

Lemma elem_of_unique_fold (ids : list string) (cur s : string)
    (l : list (string * string)) (acc : gset string) :
  s ∈ foldl (fun (acc : gset string) (sb : string * string) =>
               if (list_count ids sb.1 =? 1) && bool_decide (sb.2 = cur)
               then acc ∪ {[ sb.1 ]} else acc) acc l
  <-> s ∈ acc \/ (list_count ids s = 1 /\ (s, cur) ∈ l).
Proof.
  revert acc. induction l as [|[s' b] l IH]; intros acc; cbn [foldl fst snd].
  - split; [by left|]. intros [?|[_ ?%elem_of_nil]]; done.
  - rewrite IH. rewrite elem_of_cons.
    destruct (Z.eqb_spec (list_count ids s') 1) as [Hc|Hc]; cbn [andb].
    + destruct (bool_decide_reflect (b = cur)) as [->|Hb].
      * rewrite elem_of_union, elem_of_singleton. split.
        -- intros [[?| ->]|[? ?]]; auto.
        -- intros [?|[? [[= -> ]|?]]]; auto.
      * split; [intros [?|[? ?]]; auto|].
        intros [?|[? [[= -> ->]|?]]]; auto. done.
    + split; [intros [?|[? ?]]; auto|].
      intros [?|[? [[= -> ->]|?]]]; auto. done.
Qed.

(** The record the loop over the scaffold file leaves for an id. *)
Lemma lookup_add_sequences (C : gset string) (scaffolds : list (string * list ascii))
    (g : gmap string (list ascii)) (s : string) :
  add_sequences C scaffolds g !! s
  = match last (records_of s scaffolds) with
    | Some sq => if bool_decide (s ∈ C) then Some sq.2 else g !! s
    | None => g !! s
    end.
Proof.
  unfold add_sequences. revert g.
  induction scaffolds as [|[k v] l IH]; intros g; [done|].
  cbn [foldl fst snd]. rewrite IH. unfold records_of. rewrite filter_cons.
  cbn [fst]. destruct (decide (k = s)) as [->|Hne].
  - rewrite last_cons.
    destruct (bool_decide (s ∈ C)), (last _) as [sq|];
      by rewrite ?lookup_insert_eq.
  - destruct (bool_decide (s ∈ C)), (bool_decide (k ∈ C)), (last _) as [sq|];
      by rewrite ?lookup_insert_ne.
Qed.

(** X16.  [add_compatible_unique] adds a scaffold to the current bin
    exactly when one single line of the compatibility file, below its
    header, names the scaffold, that line names the current bin, and the
    scaffold file holds the scaffold; its sequence is then that of the
    last record with this id.  A scaffold named on two lines or more is
    never added, not even when every one of them names the current bin,
    and the sequences of the bin are otherwise written as they were. *)
Theorem add_compatible_unique_accepts (scaffolds : list (string * list ascii))
    (genome_seqs : gmap string (list ascii)) (compatible_file : list string)
    (cur_bin_id : string) :
  (forall (V : Type) (d : gmap string V), iteritems V d ≡ₚ map_to_list d) ->
  Forall (fun line => occurs tab line = true) (drop 1 compatible_file) ->
  exists out_genome,
    add_compatible_unique scaffolds genome_seqs compatible_file cur_bin_id
    = Ok out_genome
    /\ (forall s,
          out_genome !! s
          = match lines_of s (drop 1 compatible_file),
                  last (records_of s scaffolds) with
            | [line], Some sq =>
                if bool_decide (column_bin line = cur_bin_id)
                then Some sq.2 else genome_seqs !! s
            | _, _ => genome_seqs !! s
            end)
    /\ (forall s line1 line2 rest,
          lines_of s (drop 1 compatible_file) = line1 :: line2 :: rest ->
          out_genome !! s = genome_seqs !! s)
    /\ (forall s, is_Some (genome_seqs !! s) -> is_Some (out_genome !! s)).
Proof.
  intros Hperm Hrows.
  unfold add_compatible_unique, Outliers.add_compatible_unique, read_bins.
  rewrite read_bins_fold by done. cbn [mbind res_bind fst snd app].
  set (rows := drop 1 compatible_file) in *.
  set (bins := foldl _ ∅ rows).
  assert (forall s,
            s ∈ unique_scaffolds (column_scaffold <$> rows) bins cur_bin_id
            <-> exists line, lines_of s rows = [line]
                             /\ column_bin line = cur_bin_id) as Hin.
  { intros s. unfold unique_scaffolds, Outliers.unique_scaffolds.
    rewrite elem_of_unique_fold, elem_of_iteritems, list_count_lines by done.
    unfold bins. rewrite lookup_bins, lookup_empty.
    split.
    - intros [?%elem_of_empty|[Hc Hb]]; [done|].
      destruct (lines_of s rows) as [|line [|line' l]]; try done.
      + exists line. split; [done|]. cbn in Hb. congruence.
      + unfold len in Hc. cbn in Hc. lia.
    - intros (line & -> & <-). right. done. }
  assert (forall s,
            add_sequences
              (unique_scaffolds (column_scaffold <$> rows) bins cur_bin_id)
              scaffolds genome_seqs !! s
            = match lines_of s rows, last (records_of s scaffolds) with
              | [line], Some sq =>
                  if bool_decide (column_bin line = cur_bin_id)
                  then Some sq.2 else genome_seqs !! s
              | _, _ => genome_seqs !! s
              end) as Hlookup.
  { intros s. rewrite lookup_add_sequences.
    destruct (last (records_of s scaffolds)) as [sq|];
      [|by destruct (lines_of s rows) as [|? [|? ?]]].
    destruct (decide (s ∈ unique_scaffolds (column_scaffold <$> rows) bins
                        cur_bin_id)) as [Hs|Hs].
    - rewrite bool_decide_eq_true_2 by done.
      apply Hin in Hs as (line & -> & Hb). by rewrite bool_decide_eq_true_2.
    - rewrite bool_decide_eq_false_2 by done.
      destruct (lines_of s rows) as [|line [|line' l]] eqn:El; try done.
      destruct (bool_decide_reflect (column_bin line = cur_bin_id)) as [Hb|]; [|done].
      destruct Hs. apply Hin. by exists line. }
  eexists. split; [done|]. split; [done|]. split.
  - intros s line1 line2 rest El. rewrite Hlookup, El. done.
  - intros s Hs. rewrite Hlookup.
    destruct (lines_of s rows) as [|line [|line' l]]; try done.
    destruct (last _); [|done]. by destruct (bool_decide _).
Qed.

(** X17.  The bin is read from the second column: one line without a
    tab below the header makes [add_compatible_unique] fail with an
    index error before any sequence is read or written, whatever the
    other lines hold.  The header itself needs no tab. *)
Theorem add_compatible_unique_short_line (scaffolds : list (string * list ascii))
    (genome_seqs : gmap string (list ascii)) (compatible_file : list string)
    (cur_bin_id : string) :
  Exists (fun line => occurs tab line = false) (drop 1 compatible_file) ->
  add_compatible_unique scaffolds genome_seqs compatible_file cur_bin_id
  = Raise IndexError.
Proof.
  intros H.
  unfold add_compatible_unique, Outliers.add_compatible_unique, read_bins.
  by rewrite read_bins_raise.
Qed.

End AddUnique.

(** ** Further properties of [add_compatible_closest] *)

Section ClosestBin.
Import Outliers Spec.
Variable iteritems : forall V : Type, gmap string V -> list (string * V).
Hypothesis iteritems_perm :
  forall (V : Type) (d : gmap string V), iteritems V d ≡ₚ map_to_list d.

Local Abbreviation compatible_scaffolds := (compatible_scaffolds iteritems).
Local Abbreviation add_compatible_closest := (add_compatible_closest iteritems).

Lemma elem_of_compatible_scaffolds (lines : list CompatLine) (cur s : string) :
  s ∈ compatible_scaffolds lines cur
  <-> exists bin_stats,
        distance_table lines !! s = Some bin_stats
        /\ closest_to iteritems cur bin_stats = true.
Proof.
  unfold compatible_scaffolds, Outliers.compatible_scaffolds.
  rewrite elem_of_compatible_scaffolds_fold. split.
  - intros [?%elem_of_empty|(bs & Hin & Hc)]; [done|].
    exists bs. split; [|done]. by apply (elem_of_iteritems iteritems).
  - intros (bs & Hl & Hc). right. exists bs. split; [|done].
    by apply (elem_of_iteritems iteritems).
Qed.

Lemma closest_entry (bin_stats : gmap string (float * float * float))
    (column : list (string * (float * float * float)) -> list (string * float))
    (pick : float * float * float -> float) (cur : string) :
  (forall l, column l = (fun b => (b.1, pick b.2)) <$> l) ->
  closest (column (iteritems _ bin_stats)) cur ->
  exists d, bin_stats !! cur = Some d /\ (pick d <? 1e9)%float = true.
Proof.
  intros Hcol (i & v & Hi & Hv & _). rewrite Hcol in Hi.
  apply list_lookup_fmap_Some in Hi as ([b d] & [= -> ->] & Hi).
  exists d. split; [|done].
  apply (elem_of_iteritems iteritems iteritems_perm).
  by eapply list_elem_of_lookup_2.
Qed.

End ClosestBin.

Section ClosestChoice.
Import Outliers Spec.
Variable iteritems : forall V : Type, gmap string V -> list (string * V).

Local Abbreviation compatible_scaffolds := (compatible_scaffolds iteritems).
Local Abbreviation add_compatible_closest := (add_compatible_closest iteritems).

(** X18.  [add_compatible_closest] never gives a scaffold to two bins:
    run with the same compatibility table for two different bins, it
    accepts a scaffold for one of them at most, so that a scaffold that
    was in neither bin is afterwards in one of them at most. *)
Theorem add_compatible_closest_one_bin (lines : list CompatLine) (s : string)
    (B C : string) :
  (forall (V : Type) (d : gmap string V), iteritems V d ≡ₚ map_to_list d) ->
  (s ∈ compatible_scaffolds lines B -> s ∈ compatible_scaffolds lines C -> B = C)
  /\ (forall scaffolds genome_B genome_C,
        B <> C ->
        genome_B !! s = None -> genome_C !! s = None ->
        add_compatible_closest scaffolds genome_B lines B !! s = None
        \/ add_compatible_closest scaffolds genome_C lines C !! s = None).
Proof.
  intros Hperm.
  assert (s ∈ compatible_scaffolds lines B -> s ∈ compatible_scaffolds lines C ->
          B = C) as Hone.
  { rewrite !elem_of_compatible_scaffolds by done.
    intros (bs & Hbs & HB) (bs' & Hbs' & HC).
    assert (bs' = bs) as -> by congruence.
    apply closest_to_closest in HB as (HB & _), HC as (HC & _).
    by eapply closest_unique. }
  split; [done|].
  intros scaffolds genome_B genome_C Hne HB HC.
  destruct (decide (s ∈ compatible_scaffolds lines B)) as [Hin|Hnin].
  - right.
    destruct (add_compatible_closest_lookup iteritems scaffolds genome_C lines C s)
      as (H1 & _). rewrite H1; [done|]. intros Hin'. by apply Hne, Hone.
  - left.
    destruct (add_compatible_closest_lookup iteritems scaffolds genome_B lines B s)
      as (H1 & _). by rewrite H1.
Qed.

(** X19.  A scaffold is only ever added to a bin for which the table
    gives it three distances below 1e9.  A distance that is not a
    number, or one of 1e9 or more, keeps the scaffold out of that bin
    however close the bin is otherwise, and the bin is then written with
    the sequence it had for that id, if any. *)
Theorem add_compatible_closest_finite (lines : list CompatLine) (s cur : string) :
  (forall (V : Type) (d : gmap string V), iteritems V d ≡ₚ map_to_list d) ->
  (s ∈ compatible_scaffolds lines cur ->
   exists bin_stats gc td cov,
     distance_table lines !! s = Some bin_stats
     /\ bin_stats !! cur = Some (gc, td, cov)
     /\ (gc <? 1e9)%float = true /\ (td <? 1e9)%float = true
     /\ (cov <? 1e9)%float = true
     /\ is_nan gc = false /\ is_nan td = false /\ is_nan cov = false)
  /\ (forall bin_stats gc td cov scaffolds genome_seqs,
        distance_table lines !! s = Some bin_stats ->
        bin_stats !! cur = Some (gc, td, cov) ->
        (gc <? 1e9)%float = false \/ (td <? 1e9)%float = false
        \/ (cov <? 1e9)%float = false ->
        (s ∉ compatible_scaffolds lines cur)
        /\ add_compatible_closest scaffolds genome_seqs lines cur !! s
           = genome_seqs !! s)
  /\ (forall scaffolds genome_seqs,
        distance_table lines !! s = None ->
        add_compatible_closest scaffolds genome_seqs lines cur !! s
        = genome_seqs !! s).
Proof.
  intros Hperm.
  assert (s ∈ compatible_scaffolds lines cur ->
          exists bin_stats gc td cov,
            distance_table lines !! s = Some bin_stats
            /\ bin_stats !! cur = Some (gc, td, cov)
            /\ (gc <? 1e9)%float = true /\ (td <? 1e9)%float = true
            /\ (cov <? 1e9)%float = true) as Hfin.
  { rewrite elem_of_compatible_scaffolds by done.
    intros (bs & Hbs & (Hgc & Htd & Hcov)%closest_to_closest).
    apply (closest_entry iteritems Hperm bs gc_column (fun d => d.1.1)) in Hgc
      as ([[gc td] cov] & Hd & Hgc); [|done].
    apply (closest_entry iteritems Hperm bs td_column (fun d => d.1.2)) in Htd
      as (d' & Hd' & Htd); [|done].
    apply (closest_entry iteritems Hperm bs cov_column (fun d => d.2)) in Hcov
      as (d'' & Hd'' & Hcov); [|done].
    assert (d' = (gc, td, cov)) as -> by congruence.
    assert (d'' = (gc, td, cov)) as -> by congruence.
    by exists bs, gc, td, cov. }
  split; [|split].
  - intros (bs & gc & td & cov & ? & ? & Hgc & Htd & Hcov)%Hfin.
    destruct (ltb_not_nan _ _ Hgc) as [? _], (ltb_not_nan _ _ Htd) as [? _],
      (ltb_not_nan _ _ Hcov) as [? _].
    by exists bs, gc, td, cov.
  - intros bs gc td cov scaffolds genome_seqs Hbs Hd Hfar.
    assert (s ∉ compatible_scaffolds lines cur) as Hnot.
    { intros (bs' & gc' & td' & cov' & Hbs' & Hd' & Hgc & Htd & Hcov)%Hfin.
      assert (bs' = bs) as -> by congruence.
      assert ((gc', td', cov') = (gc, td, cov)) as [= -> -> ->] by congruence.
      destruct Hfar as [?|[?|?]]; congruence. }
    split; [done|].
    destruct (add_compatible_closest_lookup iteritems scaffolds genome_seqs
                lines cur s) as (H1 & _). by apply H1.
  - intros scaffolds genome_seqs Hnone.
    destruct (add_compatible_closest_lookup iteritems scaffolds genome_seqs
                lines cur s) as (H1 & _). apply H1.
    rewrite elem_of_compatible_scaffolds by done. intros (bs & ? & _). congruence.
Qed.

End ClosestChoice.

Section DistanceTable.
Import Outliers Spec.

Lemma distance_table_snoc (lines : list CompatLine) (l : CompatLine) :
  distance_table (lines ++ [l]) = add_line (distance_table lines) l.
Proof. unfold distance_table. by rewrite foldl_app. Qed.

Lemma lookup_add_line (T : gmap string (gmap string (float * float * float)))
    (l : CompatLine) (s b : string) :
  add_line T l !! s ≫= (fun bins => bins !! b)
  = if decide (line_scaffold l = s /\ line_bin l = b) then Some (distances l)
    else T !! s ≫= (fun bins => bins !! b).
Proof.
  unfold add_line.
  destruct (decide (line_scaffold l = s)) as [<-|Hs].
  - rewrite lookup_insert_eq. cbn [mbind option_bind].
    destruct (decide (line_bin l = b)) as [<-|Hb].
    + rewrite lookup_insert_eq. by rewrite decide_True.
    + rewrite lookup_insert_ne by done. rewrite decide_False by (by intros [_ ?]).
      destruct (T !! line_scaffold l); [done|]. apply lookup_empty.
  - rewrite lookup_insert_ne by done. by rewrite decide_False by (by intros [? _]).
Qed.

(** X20.  The table that [add_compatible_closest] builds holds, for a
    scaffold and a bin, the distances of the last line that names both:
    a later line replaces an earlier one, and a pair no line names has
    no entry.  The GC and coverage distances are absolute differences,
    the same whichever of the two values is the larger. *)
Theorem distance_table_lookup (lines : list CompatLine) (s b : string) :
  (distance_table lines !! s ≫= (fun bins => bins !! b)
   = distances <$> last (entries_of s b lines))
  /\ (distance_table lines !! s = None
      <-> Forall (fun l => line_scaffold l <> s) lines)
  /\ (forall l l',
        line_scaffold_gc l' = line_genome_gc l ->
        line_genome_gc l' = line_scaffold_gc l ->
        line_scaffold_cov l' = line_genome_cov l ->
        line_genome_cov l' = line_scaffold_cov l ->
        line_td l' = line_td l ->
        distances l' = distances l).
Proof.
  split; [|split].
  - induction lines as [|l lines IH] using rev_ind.
    + unfold distance_table. cbn [foldl]. by rewrite lookup_empty.
    + rewrite distance_table_snoc, lookup_add_line, IH.
      unfold entries_of. rewrite filter_app, filter_cons, filter_nil.
      destruct (decide _) as [H|H].
      * by rewrite last_snoc.
      * by rewrite app_nil_r.
  - induction lines as [|l lines IH] using rev_ind.
    + unfold distance_table. cbn [foldl]. by rewrite lookup_empty.
    + rewrite distance_table_snoc, Forall_app, Forall_singleton, <- IH.
      unfold add_line. destruct (decide (line_scaffold l = s)) as [<-|Hs].
      * rewrite lookup_insert_eq. split; [done|]. by intros [_ ?].
      * rewrite lookup_insert_ne by done. split; [done|]. by intros [? _].
  - intros l l' H1 H2 H3 H4 H5. unfold distances.
    by rewrite H1, H2, H3, H4, H5, (abs_sub_comm (line_genome_gc l)),
      (abs_sub_comm (line_genome_cov l)).
Qed.

End DistanceTable.

(** ** Further properties of [identify] and [compatible] *)

Section LoopInvariants.
Context {A B : Type} (body : A -> list B -> list B * res ()).
Hypothesis body_appends :
  forall a s, body a s = (s ++ (body a []).1, (body a []).2).

(** What every turn writes, the loop writes, also when it is cut
    short. *)
Lemma for_each_Forall (P : B -> Prop) (l : list A) :
  (forall a, a ∈ l -> Forall P (body a []).1) -> Forall P (for_each body l []).1.
Proof.
  induction l as [|a l IH]; intros HP; [constructor|].
  cbn [for_each]. pose proof (HP a ltac:(left)) as Ha.
  destruct (body a []) as [o [[]|e]]; [|done].
  rewrite (for_each_appends body body_appends). cbn [fst snd] in *.
  apply Forall_app. split; [done|]. apply IH. intros b Hb. apply HP. by right.
Qed.

Lemma for_each_sublist {C} (f : B -> C) (g : A -> list C) (l : list A) :
  (forall a, f <$> (body a []).1 `sublist_of` g a) ->
  f <$> (for_each body l []).1 `sublist_of` l ≫= g.
Proof.
  intros Hg. induction l as [|a l IH]; [constructor|].
  cbn [for_each mbind list_bind]. specialize (Hg a).
  destruct (body a []) as [o [[]|e]]; cbn [fst snd] in *.
  - rewrite (for_each_appends body body_appends). cbn [fst].
    rewrite fmap_app. by apply sublist_app.
  - by apply sublist_inserts_r.
Qed.

End LoopInvariants.

Section LoopFilter.
Context {A B : Type} (body1 body2 : A -> list B -> list B * res ()).
Context (P : B -> Prop) `{!forall b, Decision (P b)}.
Hypothesis body1_appends :
  forall a s, body1 a s = (s ++ (body1 a []).1, (body1 a []).2).
Hypothesis body2_appends :
  forall a s, body2 a s = (s ++ (body2 a []).1, (body2 a []).2).

(** Two loops whose turns fail together, the one writing what the
    other writes and [P] lets through. *)
Lemma for_each_filter (l : list A) :
  (forall a, (body1 a []).1 = filter P (body2 a []).1
             /\ (body1 a []).2 = (body2 a []).2) ->
  (for_each body1 l []).1 = filter P (for_each body2 l []).1
  /\ (for_each body1 l []).2 = (for_each body2 l []).2.
Proof.
  intros Hb. induction l as [|a l [IH1 IH2]]; [done|].
  cbn [for_each]. destruct (Hb a) as [H1 H2].
  destruct (body1 a []) as [o1 r1], (body2 a []) as [o2 r2].
  cbn [fst snd] in H1, H2. subst o1 r1.
  destruct r2 as [[]|e]; [|done].
  rewrite (for_each_appends body1 body1_appends),
    (for_each_appends body2 body2_appends). cbn [fst snd].
  by rewrite filter_app, IH1, IH2.
Qed.

End LoopFilter.

Section ReportType.
Import Outliers Spec.
Variable manhattan : list float -> list float -> float.
Variable pearsonr : list float -> list float -> float * float.
Variable np_mean : list float -> float.
Variable find_nearest : list float -> float -> res float.
Variable gc_dist : list (float * list (float * list (float * float))).
Variable td_dist : list (float * list (float * float)).
Variable iteritems : forall V : Type, gmap string V -> list (string * V).

Local Abbreviation identify_body :=
  (identify_body manhattan pearsonr np_mean find_nearest gc_dist td_dist).
Local Abbreviation identify_genome :=
  (identify_genome manhattan pearsonr np_mean find_nearest gc_dist td_dist).
Local Abbreviation identify :=
  (identify manhattan pearsonr np_mean find_nearest gc_dist td_dist iteritems).
Local Abbreviation compatible_body :=
  (compatible_body manhattan pearsonr np_mean find_nearest gc_dist td_dist).
Local Abbreviation compatible :=
  (compatible manhattan pearsonr np_mean find_nearest gc_dist td_dist iteritems).
Local Abbreviation identify_scaffold := (identify_scaffold manhattan pearsonr np_mean).
Local Abbreviation compatible_pair := (compatible_pair manhattan pearsonr np_mean).

Local Abbreviation passes report_type :=
  (fun row : Row => reported report_type (row_dists row) = true).

Lemma reported_any (report_type : string) (dists : list string) :
  reported report_type dists = true -> reported "any" dists = true.
Proof. rewrite !reported_iff. intros [[_ ?]|[_ ?]]; left; split; (done || lia). Qed.

Lemma identify_scaffold_filter sid gid gs stats lo hi tdb cov_corr cov_perc
    report_type :
  option_list (identify_scaffold sid gid gs stats lo hi tdb cov_corr cov_perc
                 report_type)
  = filter (passes report_type)
      (option_list (identify_scaffold sid gid gs stats lo hi tdb cov_corr cov_perc
                      "any")).
Proof.
  unfold identify_scaffold, Outliers.identify_scaffold.
  destruct (reported report_type _) eqn:Hr.
  - rewrite (reported_any _ _ Hr). unfold option_list. cbn [option_rect].
    by rewrite filter_cons_True, filter_nil.
  - destruct (reported "any" _); unfold option_list; cbn [option_rect]; [|done].
    rewrite filter_cons_False, filter_nil; [done|]. cbn. by rewrite Hr.
Qed.

Lemma compatible_pair_filter sid gid gs ss genes lo hi tdb cov_corr cov_perc
    report_type :
  option_list (compatible_pair sid gid gs ss genes lo hi tdb cov_corr cov_perc
                 report_type)
  = filter (passes report_type)
      (option_list (compatible_pair sid gid gs ss genes lo hi tdb cov_corr cov_perc
                      "any")).
Proof.
  unfold compatible_pair, Outliers.compatible_pair.
  destruct (reported report_type _) eqn:Hr.
  - rewrite (reported_any _ _ Hr). unfold option_list. cbn [option_rect].
    by rewrite filter_cons_True, filter_nil.
  - destruct (reported "any" _); unfold option_list; cbn [option_rect]; [|done].
    rewrite filter_cons_False, filter_nil; [done|]. cbn. by rewrite Hr.
Qed.

Lemma identify_body_filter stats_of g gs k cov_corr cov_perc report_type s :
  (identify_body stats_of g gs k cov_corr cov_perc report_type s []).1
  = filter (passes report_type)
      (identify_body stats_of g gs k cov_corr cov_perc "any" s []).1
  /\ (identify_body stats_of g gs k cov_corr cov_perc report_type s []).2
     = (identify_body stats_of g gs k cov_corr cov_perc "any" s []).2.
Proof.
  unfold identify_body, Outliers.identify_body.
  destruct (_ ≫= _) as [[stats [[lo hi] tdb]]|e]; [|done].
  pose proof (identify_scaffold_filter s g gs stats lo hi tdb cov_corr cov_perc
                report_type) as H.
  destruct (Outliers.identify_scaffold _ _ _ _ _ _ _ _ _ _ _ _ report_type),
    (Outliers.identify_scaffold _ _ _ _ _ _ _ _ _ _ _ _ "any");
    cbn [option_list fst snd app] in *; done.
Qed.

Lemma identify_genome_filter stats_of genome_stats gc_per td_per cov_corr cov_perc
    report_type g :
  (identify_genome stats_of genome_stats gc_per td_per cov_corr cov_perc
     report_type g []).1
  = filter (passes report_type)
      (identify_genome stats_of genome_stats gc_per td_per cov_corr cov_perc
         "any" g []).1
  /\ (identify_genome stats_of genome_stats gc_per td_per cov_corr cov_perc
        report_type g []).2
     = (identify_genome stats_of genome_stats gc_per td_per cov_corr cov_perc
          "any" g []).2.
Proof.
  unfold identify_genome, Outliers.identify_genome.
  destruct (_ ≫= _) as [[gs k]|e]; [|done].
  apply for_each_filter.
  - intros; apply identify_body_appends.
  - intros; apply identify_body_appends.
  - intros; apply identify_body_filter.
Qed.

(** X21.  The report type only selects among the rows: whatever it is,
    [identify] writes the rows that mode ["any"] writes and that meet
    the report condition, in the same order, and it fails or ends as
    mode ["any"] does.  Mode ["all"] thus writes the rows of mode
    ["any"] that name three signals or more, and a report type that is
    neither ["any"] nor ["all"] gives a report without rows and no
    error. *)
Theorem identify_report_type scaffolds_in_genome stats_of genome_stats
    gc_per td_per cov_corr cov_perc (report_type : string) :
  let run := identify scaffolds_in_genome stats_of genome_stats
               gc_per td_per cov_corr cov_perc in
  (run report_type).1
  = filter (fun row => reported report_type (row_dists row) = true) (run "any").1
  /\ (run report_type).2 = (run "any").2
  /\ (run "all").1 = filter (fun row => 3 <= len (row_dists row)) (run "any").1
  /\ (report_type <> "any" -> report_type <> "all" -> (run report_type).1 = []).
Proof.
  cbv zeta.
  assert (forall rt,
            (identify scaffolds_in_genome stats_of genome_stats
               gc_per td_per cov_corr cov_perc rt).1
            = filter (passes rt)
                (identify scaffolds_in_genome stats_of genome_stats
                   gc_per td_per cov_corr cov_perc "any").1
            /\ (identify scaffolds_in_genome stats_of genome_stats
                  gc_per td_per cov_corr cov_perc rt).2
               = (identify scaffolds_in_genome stats_of genome_stats
                    gc_per td_per cov_corr cov_perc "any").2) as H.
  { intros rt. unfold identify, Outliers.identify. apply for_each_filter.
    - intros; apply identify_genome_appends.
    - intros; apply identify_genome_appends.
    - intros; apply identify_genome_filter. }
  split; [apply H|]. split; [apply H|]. split.
  - destruct (H "all") as [-> _]. apply list_filter_iff. intros row.
    rewrite reported_iff. split; [by intros [[? _]|[_ ?]]|]. intros ?. by right.
  - intros Hany Hall. destruct (H report_type) as [-> _].
    apply filter_none, Forall_forall. intros row _.
    rewrite reported_iff. by intros [[? _]|[? _]].
Qed.

(** X22.  The same holds for [compatible]: its rows are the rows of
    mode ["any"] that meet the report condition, it fails or ends as
    mode ["any"] does, mode ["all"] keeps the rows with three compatible
    signals or more, and an unknown report type gives no row. *)
Theorem compatible_report_type scaffolds_of_interest stats_of genome_stats
    gc_per td_per cov_corr cov_perc (report_type : string) :
  let run := compatible scaffolds_of_interest stats_of genome_stats
               gc_per td_per cov_corr cov_perc in
  (run report_type).1
  = filter (fun row => reported report_type (row_dists row) = true) (run "any").1
  /\ (run report_type).2 = (run "any").2
  /\ (run "all").1 = filter (fun row => 3 <= len (row_dists row)) (run "any").1
  /\ (report_type <> "any" -> report_type <> "all" -> (run report_type).1 = []).
Proof.
  cbv zeta.
  assert (forall rt s ss genes g,
            (compatible_body s ss genes gc_per td_per cov_corr cov_perc rt g []).1
            = filter (passes rt)
                (compatible_body s ss genes gc_per td_per cov_corr cov_perc
                   "any" g []).1
            /\ (compatible_body s ss genes gc_per td_per cov_corr cov_perc rt g []).2
               = (compatible_body s ss genes gc_per td_per cov_corr cov_perc
                    "any" g []).2) as Hbody.
  { intros rt s ss genes g. unfold compatible_body, Outliers.compatible_body.
    destruct (_ ≫= _) as [[[lo hi] tdb]|e]; [|done].
    pose proof (compatible_pair_filter s g.1 g.2 ss genes lo hi tdb cov_corr
                  cov_perc rt) as H.
    destruct (Outliers.compatible_pair _ _ _ _ _ _ _ _ _ _ _ _ _ rt),
      (Outliers.compatible_pair _ _ _ _ _ _ _ _ _ _ _ _ _ "any");
      cbn [option_list fst snd app] in *; done. }
  assert (forall rt,
            (compatible scaffolds_of_interest stats_of genome_stats
               gc_per td_per cov_corr cov_perc rt).1
            = filter (passes rt)
                (compatible scaffolds_of_interest stats_of genome_stats
                   gc_per td_per cov_corr cov_perc "any").1
            /\ (compatible scaffolds_of_interest stats_of genome_stats
                  gc_per td_per cov_corr cov_perc rt).2
               = (compatible scaffolds_of_interest stats_of genome_stats
                    gc_per td_per cov_corr cov_perc "any").2) as H.
  { intros rt. unfold compatible, Outliers.compatible.
    assert (forall rt' (a : string * ScaffoldStat) (s : list Row),
              match scaffolds_of_interest !! a.1 with
              | Some genes =>
                  for_each (compatible_body a.1 a.2 genes gc_per td_per
                              cov_corr cov_perc rt')
                    (iteritems GenomeStat genome_stats) s
              | None => (s, Ok ())
              end
              = (s ++ (match scaffolds_of_interest !! a.1 with
                       | Some genes =>
                           for_each (compatible_body a.1 a.2 genes gc_per td_per
                                       cov_corr cov_perc rt')
                             (iteritems GenomeStat genome_stats) []
                       | None => ([], Ok ())
                       end).1,
                 (match scaffolds_of_interest !! a.1 with
                  | Some genes =>
                      for_each (compatible_body a.1 a.2 genes gc_per td_per
                                  cov_corr cov_perc rt')
                        (iteritems GenomeStat genome_stats) []
                  | None => ([], Ok ())
                  end).2)) as Happ.
    { intros rt' a s. destruct (scaffolds_of_interest !! a.1); [|by rewrite app_nil_r].
      apply for_each_appends. intros; apply compatible_body_appends. }
    apply for_each_filter; [apply Happ | apply Happ |].
    intros a. destruct (scaffolds_of_interest !! a.1) as [genes|]; [|done].
    apply for_each_filter; [| |by intros; apply Hbody].
    - intros; apply compatible_body_appends.
    - intros; apply compatible_body_appends. }
  split; [apply H|]. split; [apply H|]. split.
  - destruct (H "all") as [-> _]. apply list_filter_iff. intros row.
    rewrite reported_iff. split; [by intros [[? _]|[_ ?]]|]. intros ?. by right.
  - intros Hany Hall. destruct (H report_type) as [-> _].
    apply filter_none, Forall_forall. intros row _.
    rewrite reported_iff. by intros [[? _]|[? _]].
Qed.

End ReportType.

Section ReportRows.
Import Outliers Spec.
Variable manhattan : list float -> list float -> float.
Variable pearsonr : list float -> list float -> float * float.
Variable np_mean : list float -> float.
Variable find_nearest : list float -> float -> res float.
Variable gc_dist : list (float * list (float * list (float * float))).
Variable td_dist : list (float * list (float * float)).
Variable iteritems : forall V : Type, gmap string V -> list (string * V).

Local Abbreviation identify_body :=
  (identify_body manhattan pearsonr np_mean find_nearest gc_dist td_dist).
Local Abbreviation identify_genome :=
  (identify_genome manhattan pearsonr np_mean find_nearest gc_dist td_dist).
Local Abbreviation identify :=
  (identify manhattan pearsonr np_mean find_nearest gc_dist td_dist iteritems).
Local Abbreviation compatible_body :=
  (compatible_body manhattan pearsonr np_mean find_nearest gc_dist td_dist).
Local Abbreviation compatible :=
  (compatible manhattan pearsonr np_mean find_nearest gc_dist td_dist iteritems).
Local Abbreviation identify_scaffold := (identify_scaffold manhattan pearsonr np_mean).
Local Abbreviation compatible_pair := (compatible_pair manhattan pearsonr np_mean).
Local Abbreviation identify_dists := (identify_dists manhattan pearsonr np_mean).
Local Abbreviation compatible_dists := (compatible_dists manhattan pearsonr np_mean).

Lemma flags_sublist (b1 b2 b3 b4 : bool) :
  flag b1 "GC" ++ flag b2 "TD" ++ flag b3 "COV_CORR" ++ flag b4 "COV_PERC"
  `sublist_of` signals.
Proof.
  destruct b1, b2, b3, b4; cbn;
    repeat first [apply sublist_nil | apply sublist_skip | apply sublist_cons].
Qed.

(** The signals of a row: some of the four, each once, in their order,
    and as many as the report type asks for. *)
Lemma reported_dists (report_type : string) (dists : list string) :
  dists `sublist_of` signals -> reported report_type dists = true ->
  1 <= len dists <= 4 /\ NoDup dists.
Proof.
  intros Hsub Hrep. split.
  - pose proof (sublist_length _ _ Hsub) as Hlen. cbn in Hlen.
    apply reported_iff in Hrep. unfold len in *. lia.
  - eapply sublist_NoDup; [|exact Hsub]. unfold signals.
    apply (bool_decide_unpack (NoDup ["GC"; "TD"; "COV_CORR"; "COV_PERC"])).
    by vm_compute.
Qed.

Lemma identify_scaffold_row sid gid gs stats lo hi tdb cov_corr cov_perc
    report_type row :
  identify_scaffold sid gid gs stats lo hi tdb cov_corr cov_perc report_type
  = Some row ->
  row = make_row manhattan np_mean sid gid gs stats lo hi tdb
          (identify_dists gs stats lo hi tdb cov_corr cov_perc) None
  /\ reported report_type (row_dists row) = true
  /\ row_dists row `sublist_of` signals.
Proof.
  unfold identify_scaffold, Outliers.identify_scaffold.
  destruct (reported _ _) eqn:Hr; [|done]. intros [= <-].
  split; [done|]. split; [exact Hr|]. unfold make_row. cbn [row_dists].
  rewrite identify_dists_flags. apply flags_sublist.
Qed.

Lemma compatible_pair_row sid gid gs ss genes lo hi tdb cov_corr cov_perc
    report_type row :
  compatible_pair sid gid gs ss genes lo hi tdb cov_corr cov_perc report_type
  = Some row ->
  row = make_row manhattan np_mean sid gid gs ss lo hi tdb
          (compatible_dists gs ss lo hi tdb cov_corr cov_perc) (Some genes)
  /\ reported report_type (row_dists row) = true
  /\ row_dists row `sublist_of` signals.
Proof.
  unfold compatible_pair, Outliers.compatible_pair.
  destruct (reported _ _) eqn:Hr; [|done]. intros [= <-].
  split; [done|]. split; [exact Hr|]. unfold make_row. cbn [row_dists].
  rewrite compatible_dists_flags. apply flags_sublist.
Qed.

(** X23.  Every row [identify] writes, also in a run that fails later,
    stands for a scaffold and a genome that have statistics, repeats the
    length and the GC content of the scaffold and the mean GC of the
    genome, has no gene columns, and lists between one and four signals,
    each once, in the order GC, TD, COV_CORR, COV_PERC, as many as the
    report type asks for.  The rows follow the order in which the
    genomes and their scaffolds are visited, with at most one row for
    each scaffold listed. *)
Theorem identify_rows scaffolds_in_genome stats_of genome_stats
    gc_per td_per cov_corr cov_perc (report_type : string) :
  let rows := (identify scaffolds_in_genome stats_of genome_stats
                 gc_per td_per cov_corr cov_perc report_type).1 in
  Forall (fun row =>
            row_genes row = None
            /\ reported report_type (row_dists row) = true
            /\ 1 <= len (row_dists row) <= 4
            /\ NoDup (row_dists row)
            /\ row_dists row `sublist_of` signals
            /\ exists stats gs,
                 stats_of !! row_scaffold row = Some stats
                 /\ genome_stats !! row_genome row = Some gs
                 /\ row_length row = length stats
                 /\ row_gc row = gc stats
                 /\ row_mean_gc row = mean_gc gs) rows
  /\ (fun row => (row_genome row, row_scaffold row)) <$> rows
     `sublist_of`
     (iteritems _ scaffolds_in_genome ≫= fun g => (fun s => (g.1, s)) <$> g.2).
Proof.
  cbv zeta.
  assert (forall g gs k s,
            genome_stats !! g = Some gs ->
            forall row,
              row ∈ (identify_body stats_of g gs k cov_corr cov_perc report_type
                       s []).1 ->
              (row_genome row, row_scaffold row) = (g, s)
              /\ row_genes row = None
              /\ reported report_type (row_dists row) = true
              /\ row_dists row `sublist_of` signals
              /\ exists stats gs,
                   stats_of !! row_scaffold row = Some stats
                   /\ genome_stats !! row_genome row = Some gs
                   /\ row_length row = length stats
                   /\ row_gc row = gc stats
                   /\ row_mean_gc row = mean_gc gs) as Hbody.
  { intros g gs k s Hgs row. unfold identify_body, Outliers.identify_body, lookup_key.
    destruct (stats_of !! s) as [stats|] eqn:Hs; cbn [mbind res_bind];
      [|by intros ?%elem_of_nil].
    destruct (scaffold_bounds _ _ _ k (length stats)) as [[[lo hi] tdb]|e];
      cbn [mbind res_bind]; [|by intros ?%elem_of_nil].
    destruct (Outliers.identify_scaffold _ _ _ _ _ _ _ _ _ _ _ _ _) as [row'|]
      eqn:Hrow; [|by intros ?%elem_of_nil].
    cbn [fst app]. intros ->%list_elem_of_singleton.
    apply identify_scaffold_row in Hrow as (-> & Hrep & Hsub).
    cbn in *. repeat (split; [done|]). by exists stats, gs. }
  assert (forall g gs k s,
            (fun row => (row_genome row, row_scaffold row))
              <$> (identify_body stats_of g gs k cov_corr cov_perc report_type
                     s []).1
            `sublist_of` [(g, s)]) as Hone.
  { intros g gs k s. unfold identify_body, Outliers.identify_body.
    destruct (_ ≫= _) as [[stats [[lo hi] tdb]]|e]; [|apply sublist_nil_l].
    destruct (Outliers.identify_scaffold _ _ _ _ _ _ _ _ _ _ _ _ _) as [row|]
      eqn:Hrow; [|apply sublist_nil_l].
    apply identify_scaffold_row in Hrow as (-> & _). done. }
  split.
  - unfold identify, Outliers.identify.
    apply for_each_Forall; [intros; apply identify_genome_appends|].
    intros [g sids] _. unfold identify_genome, Outliers.identify_genome, lookup_key.
    cbn [fst snd].
    destruct (genome_stats !! g) as [gs|] eqn:Hgs; cbn [mbind res_bind];
      [|constructor].
    destruct (genome_keys _ _ _ gs gc_per td_per) as [k|e]; cbn [mbind res_bind];
      [|constructor].
    apply for_each_Forall; [intros; apply identify_body_appends|].
    intros s _. apply Forall_forall. intros row Hrow.
    destruct (Hbody g gs k s Hgs row Hrow) as (_ & ? & Hrep & Hsub & ?).
    destruct (reported_dists _ _ Hsub Hrep). done.
  - unfold identify, Outliers.identify.
    apply for_each_sublist; [intros; apply identify_genome_appends|].
    intros [g sids]. unfold identify_genome, Outliers.identify_genome.
    cbn [fst snd].
    destruct (_ ≫= _) as [[gs k]|e]; [|apply sublist_nil_l].
    eapply (transitivity (y := sids ≫= fun s => [(g, s)])).
    + apply for_each_sublist; [intros; apply identify_body_appends|].
      intros s. apply Hone.
    + clear. induction sids as [|s sids IH]; [done|]. cbn. by apply sublist_skip.
Qed.

(** X24.  Every row [compatible] writes, also in a run that fails
    later, stands for a scaffold of interest and carries the number of
    genes and the percentage recorded for that scaffold; a scaffold that
    is not of interest gets no row, however compatible it is.  The row
    lists between one and four signals, each once, in the order GC, TD,
    COV_CORR, COV_PERC, and the rows follow the order in which the
    scaffolds and, for each, the genomes are visited. *)
Theorem compatible_rows scaffolds_of_interest stats_of genome_stats
    gc_per td_per cov_corr cov_perc (report_type : string) :
  let rows := (compatible scaffolds_of_interest stats_of genome_stats
                 gc_per td_per cov_corr cov_perc report_type).1 in
  Forall (fun row =>
            (exists genes,
               scaffolds_of_interest !! row_scaffold row = Some genes
               /\ row_genes row = Some genes)
            /\ reported report_type (row_dists row) = true
            /\ 1 <= len (row_dists row) <= 4
            /\ NoDup (row_dists row)
            /\ row_dists row `sublist_of` signals
            /\ exists ss gs,
                 (row_scaffold row, ss) ∈ iteritems _ stats_of
                 /\ (row_genome row, gs) ∈ iteritems _ genome_stats
                 /\ row_length row = length ss
                 /\ row_gc row = gc ss
                 /\ row_mean_gc row = mean_gc gs) rows
  /\ (fun row => (row_scaffold row, row_genome row)) <$> rows
     `sublist_of`
     (iteritems _ stats_of ≫= fun s =>
        match scaffolds_of_interest !! s.1 with
        | Some _ => (fun g => (s.1, g.1)) <$> iteritems _ genome_stats
        | None => []
        end).
Proof.
  cbv zeta.
  assert (forall s ss genes (g : string * GenomeStat) row,
            row ∈ (compatible_body s ss genes gc_per td_per cov_corr cov_perc
                     report_type g []).1 ->
            (row_scaffold row, row_genome row) = (s, g.1)
            /\ row_genes row = Some genes
            /\ reported report_type (row_dists row) = true
            /\ row_dists row `sublist_of` signals
            /\ row_length row = length ss
            /\ row_gc row = gc ss
            /\ row_mean_gc row = mean_gc g.2) as Hbody.
  { intros s ss genes g row. unfold compatible_body, Outliers.compatible_body.
    destruct (_ ≫= _) as [[[lo hi] tdb]|e]; [|by intros ?%elem_of_nil].
    destruct (Outliers.compatible_pair _ _ _ _ _ _ _ _ _ _ _ _ _ _) as [row'|]
      eqn:Hrow; [|by intros ?%elem_of_nil].
    cbn [fst app]. intros ->%list_elem_of_singleton.
    apply compatible_pair_row in Hrow as (-> & Hrep & Hsub). done. }
  assert (forall s ss genes (g : string * GenomeStat),
            (fun row => (row_scaffold row, row_genome row))
              <$> (compatible_body s ss genes gc_per td_per cov_corr cov_perc
                     report_type g []).1
            `sublist_of` [(s, g.1)]) as Hone.
  { intros s ss genes g. unfold compatible_body, Outliers.compatible_body.
    destruct (_ ≫= _) as [[[lo hi] tdb]|e]; [|apply sublist_nil_l].
    destruct (Outliers.compatible_pair _ _ _ _ _ _ _ _ _ _ _ _ _ _) as [row|]
      eqn:Hrow; [|apply sublist_nil_l].
    apply compatible_pair_row in Hrow as (-> & _). done. }
  assert (forall (a : string * ScaffoldStat) (s : list Row),
            match scaffolds_of_interest !! a.1 with
            | Some genes =>
                for_each (compatible_body a.1 a.2 genes gc_per td_per
                            cov_corr cov_perc report_type)
                  (iteritems GenomeStat genome_stats) s
            | None => (s, Ok ())
            end
            = (s ++ (match scaffolds_of_interest !! a.1 with
                     | Some genes =>
                         for_each (compatible_body a.1 a.2 genes gc_per td_per
                                     cov_corr cov_perc report_type)
                           (iteritems GenomeStat genome_stats) []
                     | None => ([], Ok ())
                     end).1,
               (match scaffolds_of_interest !! a.1 with
                | Some genes =>
                    for_each (compatible_body a.1 a.2 genes gc_per td_per
                                cov_corr cov_perc report_type)
                      (iteritems GenomeStat genome_stats) []
                | None => ([], Ok ())
                end).2)) as Happ.
  { intros a s. destruct (scaffolds_of_interest !! a.1); [|by rewrite app_nil_r].
    apply for_each_appends. intros; apply compatible_body_appends. }
  split.
  - unfold compatible, Outliers.compatible.
    apply for_each_Forall; [apply Happ|].
    intros [s ss] Hs. cbn [fst snd].
    destruct (scaffolds_of_interest !! s) as [genes|] eqn:Hgenes; [|constructor].
    apply for_each_Forall; [intros; apply compatible_body_appends|].
    intros [g gs] Hg. apply Forall_forall. intros row Hrow.
    destruct (Hbody s ss genes (g, gs) row Hrow)
      as ([= Hs' Hg'] & ? & Hrep & Hsub & ? & ? & ?).
    destruct (reported_dists _ _ Hsub Hrep).
    split; [exists genes; by rewrite Hs'|]. repeat (split; [done|]).
    exists ss, gs. by rewrite Hs', Hg'.
  - unfold compatible, Outliers.compatible.
    apply for_each_sublist; [apply Happ|].
    intros [s ss]. cbn [fst snd].
    destruct (scaffolds_of_interest !! s) as [genes|]; [|apply sublist_nil_l].
    eapply (transitivity (y := iteritems _ genome_stats ≫= fun g => [(s, g.1)])).
    + apply for_each_sublist; [intros; apply compatible_body_appends|].
      intros g. apply Hone.
    + clear. induction (iteritems GenomeStat genome_stats) as [|g l IH]; [done|].
      cbn. by apply sublist_skip.
Qed.

(** X25.  With a genome sampled once the correlation is not tested:
    COV_CORR is then neither among the outlying distributions of
    [identify] nor among the compatible ones of [compatible].  Mode
    ["all"], which asks for three signals, can thus only be met by GC,
    TD and COV_PERC together, in the one function as in the other. *)
Theorem report_all_single_sample sid gid gs stats genes lo hi tdb cov_corr cov_perc :
  len (mean_coverage gs) <= 1 ->
  let outlying := (identify_dists gs stats lo hi tdb cov_corr cov_perc).1.1 in
  let fitting := (compatible_dists gs stats lo hi tdb cov_corr cov_perc).1.1 in
  ("COV_CORR" ∉ outlying) /\ ("COV_CORR" ∉ fitting)
  /\ (is_Some (identify_scaffold sid gid gs stats lo hi tdb cov_corr cov_perc "all")
      <-> outlying = ["GC"; "TD"; "COV_PERC"])
  /\ (is_Some (compatible_pair sid gid gs stats genes lo hi tdb cov_corr cov_perc
                 "all")
      <-> fitting = ["GC"; "TD"; "COV_PERC"]).
Proof.
  intros Hlen. cbv zeta.
  unfold identify_scaffold, Outliers.identify_scaffold,
    compatible_pair, Outliers.compatible_pair.
  rewrite identify_dists_flags, compatible_dists_flags.
  assert ((1 <? len (mean_coverage gs)) = false) as -> by (apply Z.ltb_ge; lia).
  cbn [andb].
  set (b1 := (_ || _)%bool). set (b2 := (tdb <? _)%float). set (b4 := (_ || _)%bool).
  set (c1 := (_ && _)%bool). set (c2 := (_ <=? tdb)%float).
  set (c4 := (_ <=? cov_perc)%float).
  split; [|split; [|split]].
  - destruct (elem_of_flags b1 b2 false b4) as (_ & _ & H & _).
    intros Hin. by apply H in Hin.
  - destruct (elem_of_flags c1 c2 false c4) as (_ & _ & H & _).
    intros Hin. by apply H in Hin.
  - destruct b1, b2, b4; cbn; split; (done || by intros [? [=]]).
  - destruct c1, c2, c4; cbn; split; (done || by intros [? [=]]).
Qed.

End ReportRows.

(** The nearest key computed from left to right is one of the keys. *)
Lemma find_nearest_returns_a_key : Spec.returns_a_key Ref.find_nearest.
Proof.
  intros array value. unfold Ref.find_nearest.
  destruct array as [|k ks]; [done|].
  assert (forall (ks l : list float) (best : float * float),
            best.2 ∈ l ->
            (foldl (fun best k' =>
                      if (abs (k' - value) <? best.1)%float
                      then (abs (k' - value), k') else best) best ks).2
            ∈ l ++ ks) as H.
  { clear. induction ks as [|k' ks IH]; intros l best Hbest; cbn [foldl].
    - by rewrite app_nil_r.
    - rewrite (assoc_L app l [k'] ks : l ++ k' :: ks = (l ++ [k']) ++ ks).
      apply IH. destruct (abs (k' - value) <? best.1)%float; cbn [snd].
      + apply elem_of_app. right. left.
      + apply elem_of_app. by left. }
  apply (H ks [k] (abs (k - value), k)). left.
Qed.

Section LoopOutcome.
Context {A B : Type} (body : A -> list B -> list B * res ()).
Hypothesis body_appends :
  forall a s, body a s = (s ++ (body a []).1, (body a []).2).

(** A loop ends exactly when every turn does, and fails as one of its
    turns fails. *)
Lemma for_each_ends (l : list A) :
  (for_each body l []).2 = Ok () <-> Forall (fun a => (body a []).2 = Ok ()) l.
Proof.
  induction l as [|a l IH]; [by split; [constructor|]|].
  rewrite Forall_cons, <- IH. cbn [for_each].
  destruct (body a []) as [o [[]|e]] eqn:Hb; cbn [snd].
  - rewrite (for_each_appends body body_appends). cbn [snd]. by split; [|intros [_ ?]].
  - by split; [|intros [? _]].
Qed.

Lemma for_each_outcome (Q : res () -> Prop) (l : list A) :
  Q (Ok ()) -> (forall a, Q (body a []).2) -> Q (for_each body l []).2.
Proof.
  intros HQ Hbody. induction l as [|a l IH]; [done|].
  cbn [for_each]. specialize (Hbody a).
  destruct (body a []) as [o [[]|e]]; cbn [snd] in *; [|done].
  by rewrite (for_each_appends body body_appends).
Qed.

End LoopOutcome.

Section IdentifyOutcome.
Import Outliers Spec.
Variable manhattan : list float -> list float -> float.
Variable pearsonr : list float -> list float -> float * float.
Variable np_mean : list float -> float.
Variable find_nearest : list float -> float -> res float.
Variable gc_dist : list (float * list (float * list (float * float))).
Variable td_dist : list (float * list (float * float)).
Variable iteritems : forall V : Type, gmap string V -> list (string * V).

Local Abbreviation identify_body :=
  (identify_body manhattan pearsonr np_mean find_nearest gc_dist td_dist).
Local Abbreviation identify_genome :=
  (identify_genome manhattan pearsonr np_mean find_nearest gc_dist td_dist).
Local Abbreviation identify :=
  (identify manhattan pearsonr np_mean find_nearest gc_dist td_dist iteritems).
Local Abbreviation genome_keys := (genome_keys find_nearest gc_dist td_dist).
Local Abbreviation scaffold_bounds := (scaffold_bounds find_nearest gc_dist td_dist).

(** The errors of the lookups. *)
Local Abbreviation lookup_error r :=
  (match r with
   | Ok _ => True
   | Raise e => e = KeyError \/ e = IndexError \/ e = ValueError
   end).

Hypothesis find_nearest_key : returns_a_key find_nearest.

Lemma find_nearest_nil (value : float) : find_nearest [] value = Raise ValueError.
Proof.
  pose proof (find_nearest_key [] value) as H.
  destruct (find_nearest [] value) as [k|e].
  - by apply elem_of_nil in H.
  - by destruct H as [_ ->].
Qed.

Lemma find_nearest_error (array : list float) (value : float) :
  lookup_error (find_nearest array value).
Proof.
  pose proof (find_nearest_key array value) as H.
  destruct (find_nearest array value) as [k|e]; [done|].
  destruct H as [_ ->]. auto.
Qed.

Lemma getitem_error {V} (d : list (float * V)) (k : float) :
  lookup_error (getitem d k).
Proof. unfold getitem. destruct (List.find _ d); cbn; auto. Qed.

Lemma first_error {V} (l : list V) : lookup_error (first l).
Proof. destruct l; cbn; auto. Qed.

Lemma bind_error {V W} (r : res V) (f : V -> res W) :
  lookup_error r -> (forall v, lookup_error (f v)) -> lookup_error (r ≫= f).
Proof.
  destruct r as [v|e]; cbn [mbind res_bind];
    [intros _ H; apply H | intros H _; exact H].
Qed.

Lemma genome_keys_error gs gc_per td_per :
  lookup_error (genome_keys gs gc_per td_per).
Proof.
  unfold genome_keys, Outliers.genome_keys.
  repeat (apply bind_error;
          [first [apply getitem_error | apply first_error | apply find_nearest_error]|];
          intros ?).
  done.
Qed.

Lemma scaffold_bounds_error k n : lookup_error (scaffold_bounds k n).
Proof.
  unfold scaffold_bounds, Outliers.scaffold_bounds.
  destruct k as [[[? ?] ?] ?].
  repeat (apply bind_error;
          [first [apply getitem_error | apply find_nearest_error]|]; intros ?).
  done.
Qed.

(** Without reference distributions no genome has keys. *)
Lemma genome_keys_no_gc gs gc_per td_per :
  gc_dist = [] -> genome_keys gs gc_per td_per = Raise ValueError.
Proof.
  intros Hgc. unfold genome_keys, Outliers.genome_keys. rewrite Hgc.
  cbn [keys fmap list_fmap]. by rewrite find_nearest_nil.
Qed.

Lemma genome_keys_no_td gs gc_per td_per :
  td_dist = [] -> exists e, genome_keys gs gc_per td_per = Raise e.
Proof.
  intros Htd. unfold genome_keys, Outliers.genome_keys. rewrite Htd.
  cbn [keys fmap list_fmap first mbind res_bind].
  repeat match goal with
         | |- exists e, (?r ≫= _) = Raise e =>
             destruct r; cbn [mbind res_bind]; [|by eauto]
         end.
  by eauto.
Qed.

Lemma identify_body_ends stats_of g gs k cov_corr cov_perc report_type s :
  (identify_body stats_of g gs k cov_corr cov_perc report_type s []).2 = Ok ()
  <-> exists stats b,
        stats_of !! s = Some stats /\ scaffold_bounds k (length stats) = Ok b.
Proof.
  unfold identify_body, Outliers.identify_body, lookup_key.
  destruct (stats_of !! s) as [stats|]; cbn [mbind res_bind].
  - destruct (scaffold_bounds k (length stats)) as [[[lo hi] tdb]|e] eqn:Hb;
      cbn [mbind res_bind].
    + destruct (Outliers.identify_scaffold _ _ _ _ _ _ _ _ _ _ _ _ _); cbn;
        (split; [intros _; eauto | done]).
    + cbn. split; [done|]. intros (? & ? & [= <-] & ?). congruence.
  - cbn. split; [done|]. by intros (? & ? & ? & _).
Qed.

Lemma identify_body_error stats_of g gs k cov_corr cov_perc report_type s :
  lookup_error (identify_body stats_of g gs k cov_corr cov_perc report_type s []).2.
Proof.
  unfold identify_body, Outliers.identify_body, lookup_key.
  destruct (stats_of !! s) as [stats|]; cbn [mbind res_bind]; [|cbn; auto].
  pose proof (scaffold_bounds_error k (length stats)) as H.
  destruct (scaffold_bounds k (length stats)) as [[[lo hi] tdb]|e];
    cbn [mbind res_bind]; [|done].
  by destruct (Outliers.identify_scaffold _ _ _ _ _ _ _ _ _ _ _ _ _).
Qed.

(** The first genome of a run without reference distributions. *)
Lemma identify_first_genome scaffolds_in_genome stats_of genome_stats
    gc_per td_per cov_corr cov_perc (report_type : string) :
  (forall (V : Type) (d : gmap string V), iteritems V d ≡ₚ map_to_list d) ->
  scaffolds_in_genome <> ∅ ->
  (forall gs, exists e, genome_keys gs gc_per td_per = Raise e) ->
  exists g sids rest,
    iteritems _ scaffolds_in_genome = (g, sids) :: rest
    /\ identify scaffolds_in_genome stats_of genome_stats
         gc_per td_per cov_corr cov_perc report_type
       = ([], match genome_stats !! g with
              | Some gs => gs' ← genome_keys gs gc_per td_per; Raise KeyError
              | None => Raise KeyError
              end).
Proof.
  intros Hperm Hne Hkeys.
  destruct (iteritems _ scaffolds_in_genome) as [|[g sids] rest] eqn:Hit.
  - destruct Hne. apply map_to_list_empty_iff, Permutation_nil_r.
    by rewrite <- Hperm, Hit.
  - exists g, sids, rest. split; [done|].
    unfold identify, Outliers.identify. rewrite Hit. cbn [for_each].
    unfold Outliers.identify_genome at 1. unfold lookup_key. cbn [fst snd].
    destruct (genome_stats !! g) as [gs|]; cbn [mbind res_bind]; [|done].
    destruct (Hkeys gs) as [e He]. fold genome_keys. by rewrite He.
Qed.

(** X26.  For scaffolds whose signature and coverage profile have the
    dimensions of their genome's, on which the signature distance and the
    correlation of the libraries return, and with a [find_nearest] that
    returns one of the keys and raises [ValueError] on an empty list of
    keys: a run of [identify] ends without an error exactly when every
    genome of the input has statistics and keys into the reference
    distributions, and every scaffold listed for it has statistics and
    bounds; the keys are needed also for a genome with no scaffold.  A
    genome or a scaffold without statistics makes the run fail, and the
    errors of a run are those of a missing key ([KeyError]), of an empty
    table ([IndexError]) and of an empty list of keys ([ValueError]).
    Without GC distributions a run on at least one genome writes no row
    and fails at the first genome, with [KeyError] when that genome has no
    statistics and with [ValueError] otherwise; without TD distributions
    it writes no row and fails as well. *)
Theorem identify_completes scaffolds_in_genome stats_of genome_stats
    gc_per td_per cov_corr cov_perc (report_type : string) :
  (forall (V : Type) (d : gmap string V), iteritems V d ≡ₚ map_to_list d) ->
  (forall g sids gs s stats,
     scaffolds_in_genome !! g = Some sids -> genome_stats !! g = Some gs ->
     s ∈ sids -> stats_of !! s = Some stats -> same_dimensions gs stats) ->
  let run := identify scaffolds_in_genome stats_of genome_stats
               gc_per td_per cov_corr cov_perc report_type in
  let outcome := run.2 in
  (outcome = Ok ()
   <-> forall g sids,
         scaffolds_in_genome !! g = Some sids ->
         exists gs k,
           genome_stats !! g = Some gs
           /\ genome_keys gs gc_per td_per = Ok k
           /\ forall s, s ∈ sids ->
                exists stats b,
                  stats_of !! s = Some stats
                  /\ scaffold_bounds k (length stats) = Ok b)
  /\ (outcome = Ok () \/ outcome = Raise KeyError \/ outcome = Raise IndexError
      \/ outcome = Raise ValueError)
  /\ (forall g sids,
        scaffolds_in_genome !! g = Some sids -> genome_stats !! g = None ->
        outcome <> Ok ())
  /\ (forall g sids s,
        scaffolds_in_genome !! g = Some sids -> s ∈ sids -> stats_of !! s = None ->
        outcome <> Ok ())
  /\ (scaffolds_in_genome <> ∅ -> gc_dist = [] ->
      exists g sids rest,
        iteritems _ scaffolds_in_genome = (g, sids) :: rest
        /\ run = ([], match genome_stats !! g with
                       | Some _ => Raise ValueError
                       | None => Raise KeyError
                       end))
  /\ (scaffolds_in_genome <> ∅ -> td_dist = [] -> exists e, run = ([], Raise e)).
Proof.
  intros Hperm _. cbv zeta.
  assert ((identify scaffolds_in_genome stats_of genome_stats
             gc_per td_per cov_corr cov_perc report_type).2 = Ok ()
          <-> forall g sids,
                scaffolds_in_genome !! g = Some sids ->
                exists gs k,
                  genome_stats !! g = Some gs
                  /\ genome_keys gs gc_per td_per = Ok k
                  /\ forall s, s ∈ sids ->
                       exists stats b,
                         stats_of !! s = Some stats
                         /\ scaffold_bounds k (length stats) = Ok b) as Hends.
  { unfold identify, Outliers.identify.
    rewrite for_each_ends by (intros; apply identify_genome_appends).
    rewrite Forall_forall.
    assert (forall g sids,
              (identify_genome stats_of genome_stats gc_per td_per cov_corr cov_perc
                 report_type (g, sids) []).2 = Ok ()
              <-> exists gs k,
                    genome_stats !! g = Some gs
                    /\ genome_keys gs gc_per td_per = Ok k
                    /\ forall s, s ∈ sids ->
                         exists stats b,
                           stats_of !! s = Some stats
                           /\ scaffold_bounds k (length stats) = Ok b) as Hg.
    { intros g sids. unfold identify_genome, Outliers.identify_genome, lookup_key.
      cbn [fst snd].
      destruct (genome_stats !! g) as [gs|]; cbn [mbind res_bind].
      - destruct (genome_keys gs gc_per td_per) as [k|e] eqn:Hk; cbn [mbind res_bind].
        + rewrite for_each_ends by (intros; apply identify_body_appends).
          rewrite Forall_forall. setoid_rewrite identify_body_ends.
          split; [intros H; by exists gs, k|].
          intros (gs' & k' & [= <-] & Hk' & H). rewrite Hk in Hk'.
          by injection Hk' as <-.
        + cbn. split; [done|]. intros (? & ? & [= <-] & ? & _). congruence.
      - cbn. split; [done|]. by intros (? & ? & ? & _). }
    split.
    - intros H g sids Hl. apply Hg, H. by apply (elem_of_iteritems iteritems).
    - intros H [g sids] Hin. apply Hg, H. by apply (elem_of_iteritems iteritems) in Hin. }
  split; [done|]. split; [|split; [|split; [|split]]].
  - unfold identify, Outliers.identify.
    assert (lookup_error
              (for_each (identify_genome stats_of genome_stats gc_per td_per
                           cov_corr cov_perc report_type)
                 (iteritems _ scaffolds_in_genome) []).2) as H.
    { eapply for_each_outcome with (Q := fun r => lookup_error r);
        [intros; apply identify_genome_appends | done |].
      intros [g sids]. unfold identify_genome, Outliers.identify_genome, lookup_key.
      cbn [fst snd].
      destruct (genome_stats !! g) as [gs|]; cbn [mbind res_bind]; [|cbn; auto].
      pose proof (genome_keys_error gs gc_per td_per) as Hk.
      destruct (genome_keys gs gc_per td_per) as [k|e]; cbn [mbind res_bind]; [|done].
      eapply for_each_outcome with (Q := fun r => lookup_error r);
        [intros; apply identify_body_appends | done |].
      intros s. apply identify_body_error. }
    destruct (for_each _ _ _).2 as [[]|e]; [by left|].
    destruct H as [->|[->| ->]]; auto.
  - intros g sids Hl Hnone Hok. rewrite Hends in Hok.
    destruct (Hok g sids Hl) as (gs & k & Hgs & _). congruence.
  - intros g sids s Hl Hin Hnone Hok. rewrite Hends in Hok.
    destruct (Hok g sids Hl) as (gs & k & _ & _ & Hs).
    destruct (Hs s Hin) as (stats & b & Hstats & _). congruence.
  - intros Hne Hgc.
    destruct (identify_first_genome scaffolds_in_genome stats_of genome_stats
                gc_per td_per cov_corr cov_perc report_type Hperm Hne)
      as (g & sids & rest & Hit & Hrun).
    { intros gs. exists ValueError. by apply genome_keys_no_gc. }
    exists g, sids, rest. split; [done|]. rewrite Hrun.
    destruct (genome_stats !! g) as [gs|]; [|done].
    by rewrite genome_keys_no_gc.
  - intros Hne Htd.
    destruct (identify_first_genome scaffolds_in_genome stats_of genome_stats
                gc_per td_per cov_corr cov_perc report_type Hperm Hne)
      as (g & sids & rest & Hit & Hrun).
    { intros gs. by apply genome_keys_no_td. }
    rewrite Hrun. destruct (genome_stats !! g) as [gs|]; [|by eauto].
    destruct (genome_keys_no_td gs gc_per td_per Htd) as [e ->]. by eauto.
Qed.

End IdentifyOutcome.

(** ** The index of the plots *)

Lemma insert_sorted_perm (x : string) (l : list string) :
  Ref.insert_sorted x l ≡ₚ x :: l.
Proof.
  induction l as [|y l IH]; cbn; [done|].
  destruct (String.leb x y); [done|]. rewrite IH. apply Permutation_swap.
Qed.

Lemma alphanumeric_sort_perm (l : list string) : Ref.alphanumeric_sort l ≡ₚ l.
Proof.
  induction l as [|x l IH]; cbn; [done|].
  rewrite insert_sorted_perm. by rewrite IH.
Qed.

Section HtmlIndex.
Variable alphanumeric_sort : list string -> list string.
Variable iteritems : forall V : Type, gmap string V -> list (string * V).
Hypothesis iteritems_perm :
  forall (V : Type) (d : gmap string V), iteritems V d ≡ₚ map_to_list d.
Hypothesis sort_perm : forall l : list string, alphanumeric_sort l ≡ₚ l.

Implicit Types genome_plots : gmap string (list (string * string)).

(** The sorted ids are the keys of the dictionary. *)
Lemma elem_of_sorted_ids genome_plots (genome_id : string) :
  genome_id ∈ alphanumeric_sort (iteritems _ genome_plots).*1
  <-> is_Some (genome_plots !! genome_id).
Proof.
  rewrite sort_perm, iteritems_perm, list_elem_of_fmap. split.
  - intros [[k v] [-> Hin]]. apply elem_of_map_to_list in Hin. by exists v.
  - intros [v Hv]. exists (genome_id, v). split; [done|].
    by apply elem_of_map_to_list.
Qed.

Lemma sorted_ids_nil genome_plots :
  alphanumeric_sort (iteritems _ genome_plots).*1 = [] <-> genome_plots = ∅.
Proof.
  split.
  - intros Hnil. apply map_empty. intros k.
    destruct (genome_plots !! k) as [v|] eqn:Hk; [|done].
    assert (k ∈ alphanumeric_sort (iteritems _ genome_plots).*1) as Hin
      by (apply elem_of_sorted_ids; by exists v).
    rewrite Hnil in Hin. by apply elem_of_nil in Hin.
  - intros ->. apply Permutation_nil_r.
    by rewrite sort_perm, iteritems_perm, map_to_list_empty.
Qed.

(** The loop over genomes that are keys writes their sections and
    ends. *)
Lemma menu_loop genome_plots (l fout : list string) :
  (forall genome_id, genome_id ∈ l -> is_Some (genome_plots !! genome_id)) ->
  for_each (Outliers.menu_genome genome_plots) l fout
  = (fout ++ (l ≫= Spec.menu_section genome_plots), Ok ()).
Proof.
  revert fout. induction l as [|g l IH]; intros fout Hkeys; cbn [for_each].
  - cbn. by rewrite app_nil_r.
  - destruct (Hkeys g) as [plots Hg]; [left|].
    unfold Outliers.menu_genome at 1, lookup_key. rewrite Hg.
    rewrite IH by (intros g' Hg'; apply Hkeys; by right).
    f_equal. rewrite bind_cons. unfold Spec.menu_section at 2. rewrite Hg. cbn [default].
    by rewrite <- !app_assoc.
Qed.

(** X27. [create_html_index] raises an [IndexError], before it opens
    either file, when there is no starting plot: the dictionary is empty,
    or the first genome in sorted order has no plot.  Otherwise it ends,
    whatever the later genomes hold: [index.html] frames the first plot of
    the first genome, and [plot_menu.html] holds, between its head and its
    foot, the section of every genome in sorted order. *)
Theorem create_html_index_outcome genome_plots :
  let sorted_genome_ids := alphanumeric_sort (iteritems _ genome_plots).*1 in
  (Spec.starting_plot sorted_genome_ids genome_plots = None
   <-> genome_plots = ∅
       \/ exists genome_id, head sorted_genome_ids = Some genome_id
                            /\ genome_plots !! genome_id = Some [])
  /\ Outliers.create_html_index alphanumeric_sort iteritems genome_plots
     = match Spec.starting_plot sorted_genome_ids genome_plots with
       | None => ((None, None), Raise IndexError)
       | Some (genome_id, plot) =>
           ((Some (Outliers.index_html plot.2),
             Some (Outliers.menu_head (genome_id +:+ "<br>" +:+ plot.1)
                   ++ (sorted_genome_ids ≫= Spec.menu_section genome_plots)
                   ++ Outliers.menu_foot)),
            Ok ())
       end.
Proof.
  intros sorted_genome_ids.
  pose proof (sorted_ids_nil genome_plots) as Hnil.
  pose proof (elem_of_sorted_ids genome_plots) as Hkeys.
  unfold Outliers.create_html_index, Spec.starting_plot.
  fold sorted_genome_ids in Hnil, Hkeys |- *.
  destruct sorted_genome_ids as [|g rest] eqn:Hsorted.
  - split; [|reflexivity]. cbn. split; [intros _; left; by apply Hnil|done].
  - destruct (proj1 (Hkeys g) ltac:(left)) as [plots Hg].
    assert (genome_plots ≠ ∅) as Hne.
    { intros Hempty. apply Hnil in Hempty. discriminate. }
    rewrite list_getitem_0. cbn [mbind res_bind head option_bind].
    unfold lookup_key at 1. rewrite Hg. cbn [mbind res_bind option_bind].
    destruct plots as [|plot more].
    + split; [|reflexivity]. split; [|done].
      intros _. right. by exists g.
    + rewrite list_getitem_0. cbn [mbind res_bind head option_bind]. split.
      * split; [done|]. intros [Hempty|(g' & Hhead & Hnone)]; [done|].
        injection Hhead as <-. congruence.
      * rewrite menu_loop by (intros g' Hg'; by apply Hkeys).
        by rewrite <- app_assoc.
Qed.

End HtmlIndex.

(** An outlier file of bare ids whose last line has no line feed
    removes the scaffold of the last line only. *)
Lemma remove_outliers_bare_ids_witness :
  Outliers.remove_outliers
    {["s" := Ref.scaffold_s.2; "t" := Ref.scaffold_t.2]} Ref.unterminated_lines
  = Ok (delete "t" {["s" := Ref.scaffold_s.2; "t" := Ref.scaffold_t.2]}).
Proof.
  destruct (remove_outliers_bare_ids
              {["s" := Ref.scaffold_s.2; "t" := Ref.scaffold_t.2]}
              Ref.unterminated_lines)
    as (out_genome & Hrun & _ & _ & Hlast).
  - repeat constructor.
  - intros s [v Hs].
    apply lookup_insert_Some in Hs as [[<- _]|[_ Hs]]; [reflexivity|].
    apply lookup_singleton_Some in Hs as [<- _]. reflexivity.
  - rewrite Hrun. f_equal.
    apply (Hlast [Ref.table_line ["s"]] "t"); [reflexivity | repeat constructor].
Defined.

(** Of the scaffolds [s] and [t], only [s] is named once. *)
Lemma add_compatible_unique_accepts_witness :
  exists out_genome,
    Outliers.add_compatible_unique Ref.iteritems
      [Ref.scaffold_s; Ref.scaffold_t] ∅ Ref.compatible_lines "binA"
    = Ok out_genome
    /\ out_genome !! "s" = Some Ref.scaffold_s.2
    /\ out_genome !! "t" = None.
Proof.
  destruct (add_compatible_unique_accepts Ref.iteritems
              [Ref.scaffold_s; Ref.scaffold_t] ∅ Ref.compatible_lines "binA"
              (fun V d => reflexivity (map_to_list d))
              ltac:(repeat constructor))
    as (out_genome & Hrun & Hlookup & _).
  exists out_genome. split; [exact Hrun|].
  split; rewrite Hlookup; reflexivity.
Defined.

Lemma add_compatible_unique_short_line_witness :
  Outliers.add_compatible_unique Ref.iteritems
    [Ref.scaffold_s; Ref.scaffold_t] ∅ Ref.bare_lines "binA"
  = Raise IndexError.
Proof.
  apply (add_compatible_unique_short_line Ref.iteritems).
  left. reflexivity.
Defined.

(** A table that names [s] for two bins, closer to [binB]. *)
Lemma add_compatible_closest_one_bin_witness :
  Outliers.add_compatible_closest Ref.iteritems [Ref.scaffold_s] ∅
    [Ref.compat_line "s" "binB" 50 49 0.1 10 9;
     Ref.compat_line "s" "binC" 50 52 0.5 10 15]%float "binB" !! "s" = None
  \/ Outliers.add_compatible_closest Ref.iteritems [Ref.scaffold_s] ∅
       [Ref.compat_line "s" "binB" 50 49 0.1 10 9;
        Ref.compat_line "s" "binC" 50 52 0.5 10 15]%float "binC" !! "s" = None.
Proof.
  apply (proj2 (add_compatible_closest_one_bin Ref.iteritems _ "s" "binB" "binC"
                  (fun V d => reflexivity (map_to_list d)))
           [Ref.scaffold_s] ∅ ∅);
    [discriminate | reflexivity | reflexivity].
Defined.

(** A line whose TD distance is not a number. *)
Lemma add_compatible_closest_finite_witness :
  ("s" ∉ Outliers.compatible_scaffolds Ref.iteritems
           [Ref.compat_line "s" "binB" 50 49 nan 10 9]%float "binB")
  /\ Outliers.add_compatible_closest Ref.iteritems [Ref.scaffold_s] ∅
       [Ref.compat_line "s" "binB" 50 49 nan 10 9]%float "binB" !! "s"
     = (∅ : gmap string (list ascii)) !! "s".
Proof.
  apply (proj1 (proj2 (add_compatible_closest_finite Ref.iteritems
                         [Ref.compat_line "s" "binB" 50 49 nan 10 9]%float
                         "s" "binB"
                         (fun V d => reflexivity (map_to_list d))))
           {["binB" := (1, nan, 1)%float]} 1%float nan 1%float [Ref.scaffold_s] ∅);
    [vm_compute; reflexivity | reflexivity | right; left; reflexivity].
Defined.

(** One sample: mode ["all"] needs GC, TD and COV_PERC. *)
Lemma report_all_single_sample_witness :
  "COV_CORR" ∉ (Outliers.identify_dists Ref.manhattan Ref.pearsonr Ref.np_mean
                  Ref.single_sample Ref.scaffold_a (-0.04) 0.04 0.3 0.8 50).1.1.
Proof.
  apply (report_all_single_sample Ref.manhattan Ref.pearsonr Ref.np_mean
           "a" "g1" Ref.single_sample Ref.scaffold_a (12, 50%float)
           (-0.04) 0.04 0.3 0.8 50).
  vm_compute. discriminate.
Defined.

(** A run on one genome and its two scaffolds ends. *)
Lemma identify_completes_witness :
  (Outliers.identify Ref.manhattan Ref.pearsonr Ref.np_mean Ref.find_nearest
     Ref.gc_dist Ref.td_dist Ref.iteritems
     {["g1" := ["a"; "b"]]} {["a" := Ref.scaffold_a; "b" := Ref.scaffold_b]}
     {["g1" := Ref.genome]} 90 95 0.8 50 "any").2 = Ok ()
  <-> forall g sids,
        ({["g1" := ["a"; "b"]]} : gmap string (list string)) !! g = Some sids ->
        exists gs k,
          ({["g1" := Ref.genome]} : gmap string Outliers.GenomeStat) !! g = Some gs
          /\ Outliers.genome_keys Ref.find_nearest Ref.gc_dist Ref.td_dist gs 90 95
             = Ok k
          /\ forall s, s ∈ sids ->
               exists stats b,
                 ({["a" := Ref.scaffold_a; "b" := Ref.scaffold_b]}
                    : gmap string Outliers.ScaffoldStat) !! s = Some stats
                 /\ Outliers.scaffold_bounds Ref.find_nearest Ref.gc_dist Ref.td_dist
                      k (Outliers.length stats) = Ok b.
Proof.
  refine (proj1 (identify_completes Ref.manhattan Ref.pearsonr Ref.np_mean
                   Ref.find_nearest Ref.gc_dist Ref.td_dist Ref.iteritems
                   find_nearest_returns_a_key
                   {["g1" := ["a"; "b"]]}
                   {["a" := Ref.scaffold_a; "b" := Ref.scaffold_b]}
                   {["g1" := Ref.genome]} 90 95 0.8 50 "any"
                   (fun V d => reflexivity (map_to_list d)) _)).
  intros g sids gs s stats Hg Hgs Hs Hstats.
  apply lookup_singleton_Some in Hg as [<- <-].
  apply lookup_singleton_Some in Hgs as [_ <-].
  apply elem_of_cons in Hs as [->|Hs].
  - injection Hstats as <-. split; reflexivity.
  - apply list_elem_of_singleton in Hs as ->.
    injection Hstats as <-. split; reflexivity.
Defined.

(** The genome [g1] sorts first and has plots; [g2] has none. *)
Lemma create_html_index_outcome_witness :
  Outliers.create_html_index Ref.alphanumeric_sort Ref.iteritems Ref.genome_plots
  = ((Some (Outliers.index_html "g1.gc.html"),
      Some (Outliers.menu_head "g1<br>GC"
            ++ (["g1"; "g2"] ≫= Spec.menu_section Ref.genome_plots)
            ++ Outliers.menu_foot)),
     Ok ()).
Proof.
  exact (proj2 (create_html_index_outcome Ref.alphanumeric_sort Ref.iteritems
                  (fun V d => reflexivity (map_to_list d))
                  alphanumeric_sort_perm Ref.genome_plots)).
Defined.
